(** * npk-solver: the blend calculation of [src/services/solver.ts]

    A shallow embedding of [calculateMix], the function that turns a blend
    request into a mixed-integer linear program for glpk.js and the
    solver's answer back into a recipe, with the properties the
    specification states about it.

    Numbers.  A TypeScript [number] is modelled by [number] below: an exact
    rational, or one of the IEEE special values NaN, +Infinity, -Infinity.
    Rounding, overflow and the sign of zero are abstracted away; what is
    kept is everything the code can observe without rounding: comparisons
    with NaN are false, [0 / 0] is NaN, [x / 0] is infinite, and NaN and
    zero are falsy.

    Effects.  [calculateMix] is an [async] function that loads the solver,
    calls it, and logs to the console.  The embedding takes what loading
    the solver does as an argument (it throws, or it yields a solver whose
    [solve] returns or throws) and returns the list of what the call did
    to the outside together with how its promise ends.

    Objects.  A second embedding, [calculateMix_heap], keeps the request
    and the fertilizers as objects in a heap; it is proved to compute what
    the first one computes and is used for what the call leaves
    unchanged.

    Rounding.  A third embedding, [Rounded.calculateMix], takes the
    arithmetic of the numbers as a parameter; over the exact arithmetic
    it is the first one, and what is proved of it holds as well for the
    binary64 arithmetic of a JavaScript engine. *)

From Stdlib Require Import QArith Qround Lqa ZArith List String DecimalString.
From stdpp Require Import gmap strings list.

Local Open Scope string_scope.

(** ** JavaScript numbers *)

Module JsNumber.

Inductive number : Type :=
| NaN
| NegInf
| Fin (q : Q)
| PosInf.

(** The sign of a number that is not NaN. *)
Definition sign (a : number) : comparison :=
match a with
| NaN => Eq
| NegInf => Lt
| Fin q => (q ?= 0)%Q
| PosInf => Gt
end.

Definition sign_mul (s t : comparison) : comparison :=
match s, t with
| Eq, _ | _, Eq => Eq
| Lt, Lt | Gt, Gt => Gt
| Lt, Gt | Gt, Lt => Lt
end.

(** The infinity of a sign; a zero sign stands for an undefined form. *)
Definition inf_of_sign (s : comparison) : number :=
match s with
| Eq => NaN
| Lt => NegInf
| Gt => PosInf
end.

(** Unary minus. *)
Definition neg (a : number) : number :=
match a with
| NaN => NaN
| NegInf => PosInf
| Fin q => Fin (- q)
| PosInf => NegInf
end.

(** [a + b] *)
Definition add (a b : number) : number :=
match a, b with
| NaN, _ | _, NaN => NaN
| Fin x, Fin y => Fin (x + y)
| PosInf, NegInf | NegInf, PosInf => NaN
| PosInf, _ | _, PosInf => PosInf
| NegInf, _ | _, NegInf => NegInf
end.

(** [a - b] *)
Definition sub (a b : number) : number := add a (neg b).

(** [a * b]: an infinity times zero is NaN. *)
Definition mul (a b : number) : number :=
match a, b with
| NaN, _ | _, NaN => NaN
| Fin x, Fin y => Fin (x * y)
| _, _ => inf_of_sign (sign_mul (sign a) (sign b))
end.

(** [a / b]: [0 / 0] and [Infinity / Infinity] are NaN, a nonzero number
  over zero is an infinity (the zero divisor is read as [+0]). *)
Definition div (a b : number) : number :=
match a, b with
| NaN, _ | _, NaN => NaN
| Fin x, Fin y =>
    if Qeq_bool y 0 then inf_of_sign (sign a) else Fin (x / y)
| Fin _, _ => Fin 0
| _, Fin y => if Qeq_bool y 0 then a else inf_of_sign (sign_mul (sign a) (sign b))
| _, _ => NaN
end.

(** [a < b] *)
Definition ltb (a b : number) : bool :=
match a, b with
| NaN, _ | _, NaN => false
| Fin x, Fin y => negb (Qle_bool y x)
| NegInf, NegInf | PosInf, _ | _, NegInf => false
| NegInf, _ | _, PosInf => true
end.

(** [a > b] *)
Definition gtb (a b : number) : bool := ltb b a.

(** [a === b] on numbers: NaN is equal to nothing. *)
Definition eqb (a b : number) : bool :=
match a, b with
| Fin x, Fin y => Qeq_bool x y
| NegInf, NegInf | PosInf, PosInf => true
| _, _ => false
end.

(** [a <= b] *)
Definition leb (a b : number) : bool := ltb a b || eqb a b.

(** [Math.floor] *)
Definition floor (a : number) : number :=
match a with
| Fin q => Fin (inject_Z (Qfloor q))
| _ => a
end.

(** A number in a condition: zero and NaN are falsy. *)
Definition truthy (a : number) : bool :=
match a with
| NaN => false
| Fin q => negb (Qeq_bool q 0)
| _ => true
end.

(** [a || b] *)
Definition or_else (a b : number) : number := if truthy a then a else b.

Definition is_nan (a : number) : bool :=
match a with NaN => true | _ => false end.

Definition is_finite (a : number) : bool :=
match a with Fin _ => true | _ => false end.

End JsNumber.

Import JsNumber.

Declare Scope js_scope.
Delimit Scope js_scope with js.
Bind Scope js_scope with number.
Notation "a + b" := (add a b) : js_scope.
Notation "a - b" := (sub a b) : js_scope.
Notation "a * b" := (mul a b) : js_scope.
Notation "a / b" := (div a b) : js_scope.
Notation "- a" := (neg a) : js_scope.
Notation "a <? b" := (ltb a b) : js_scope.
Notation "a >? b" := (gtb a b) : js_scope.
Notation "a <=? b" := (leb a b) : js_scope.
Notation "a === b" := (eqb a b) (at level 70, no associativity) : js_scope.
Notation "0" := (Fin 0) : js_scope.
Notation "1" := (Fin 1) : js_scope.
Notation "2" := (Fin 2) : js_scope.
Notation "100" := (Fin 100) : js_scope.

(** ** The data model of [src/types/index.ts] and of [solver.ts] *)

Module Fertilizer.
Record t : Type := mk {
  id : string;
  name : string;
  n : number;  (* Nitrogen percentage *)
  p : number;  (* Phosphorus percentage *)
  k : number   (* Potassium percentage *)
}.
End Fertilizer.

Record RecipeIngredient : Type := {
  fertilizer : Fertilizer.t;
  amount : number  (* in grams *)
}.

Record CalculateMixParams : Type := {
  targetN : number;
  targetP : number;
  targetK : number;
  totalWeight : number;
  tolerance : number;
  increment : number;
  availableFertilizers : list Fertilizer.t
}.

Module NPK.
Record t : Type := mk { n : number; p : number; k : number }.
End NPK.

(** Every field of a [CalculationResult] is optional in the source. *)
Record CalculationResult : Type := {
  recipe : option (list RecipeIngredient);
  error : option string;
  actualNPK : option NPK.t;
  actualWeight : option number
}.

(** ** The problem object handed to glpk.js *)

(** The constants of the glpk.js instance ([glpk.GLP_MIN] and so on).  They
    belong to the library, not to this repository; the values are those of
    GLPK's header. *)
Module Glp.
Definition GLP_MIN : Z := 1.
Definition GLP_LO : Z := 2.
Definition GLP_UP : Z := 3.
Definition GLP_DB : Z := 4.
Definition GLP_FX : Z := 5.
Definition GLP_UNDEF : Z := 1.
Definition GLP_FEAS : Z := 2.
Definition GLP_NOFEAS : Z := 4.
Definition GLP_OPT : Z := 5.
Definition GLP_UNBND : Z := 6.
End Glp.

(** An entry [{ name, coef }] of an objective or of a constraint row. *)
Module Coef.
Record t : Type := mk { name : string; coef : number }.
End Coef.

(** The [bnds] of a row; the source leaves [lb] or [ub] out for one-sided
    rows. *)
Module Bnds.
Record t : Type := mk { type : Z; lb : option number; ub : option number }.
End Bnds.

(** An entry of [lp.subjectTo]. *)
Module Constraint.
Record t : Type := mk { name : string; vars : list Coef.t; bnds : Bnds.t }.
End Constraint.

(** An entry of [lp.bounds]. *)
Module Bound.
Record t : Type := mk { name : string; type : Z; lb : number; ub : number }.
End Bound.

Module Objective.
Record t : Type := mk { direction : Z; name : string; vars : list Coef.t }.
End Objective.

Module LP.
Record t : Type := mk {
  name : string;
  objective : Objective.t;
  subjectTo : list Constraint.t;
  bounds : list Bound.t;
  binaries : list string;
  generals : list string
}.

(** The pushes of the source, one per array of the problem object. *)
Definition push_objective_var (c : Coef.t) (lp : t) : t :=
  mk (name lp)
     (Objective.mk (Objective.direction (objective lp))
                   (Objective.name (objective lp))
                   (Objective.vars (objective lp) ++ [c]))
     (subjectTo lp) (bounds lp) (binaries lp) (generals lp).

Definition push_subjectTo (r : Constraint.t) (lp : t) : t :=
  mk (name lp) (objective lp) (subjectTo lp ++ [r]) (bounds lp)
     (binaries lp) (generals lp).

Definition push_bound (b : Bound.t) (lp : t) : t :=
  mk (name lp) (objective lp) (subjectTo lp) (bounds lp ++ [b])
     (binaries lp) (generals lp).

Definition push_binary (v : string) (lp : t) : t :=
  mk (name lp) (objective lp) (subjectTo lp) (bounds lp)
     (binaries lp ++ [v]) (generals lp).

Definition push_general (v : string) (lp : t) : t :=
  mk (name lp) (objective lp) (subjectTo lp) (bounds lp)
     (binaries lp) (generals lp ++ [v]).
End LP.

(** ** The solver and what a call can do *)

(** What a [throw] carries: an [Error] with its message, or any other
    value, of which the code only takes [String(err)]. *)
Inductive JsThrown : Type :=
| ErrorObject (message : string)
| OtherValue (to_string : string).

(** [result.result] of glpk.js, as far as the code reads it.  A variable
    the solver does not report reads as [undefined], here [None]. *)
Record SolveResult : Type := {
  status : Z;
  vars : gmap string number
}.

(** The object [await GLPK()] yields: [solve] returns or throws. *)
Record GlpkInstance : Type := {
  solve : LP.t -> JsThrown + SolveResult
}.

(** How an [async] function ends. *)
Inductive Promise (A : Type) : Type :=
| Resolved (a : A)
| Rejected (e : JsThrown).
Arguments Resolved {A} a.
Arguments Rejected {A} e.

(** What a call does to the outside, in order. *)
Inductive Event : Type :=
| CallGLPK
| CallSolve (lp : LP.t)
| ConsoleError (e : JsThrown).

(** ** Helpers of the language *)

(** [`${index}`] and [`${status}`] *)
Definition string_of_index (index : nat) : string :=
  NilZero.string_of_uint (Nat.to_uint index).

Definition string_of_status (s : Z) : string :=
  NilZero.string_of_int (Z.to_int s).

(** [Array.prototype.forEach] with its index argument, on a state. *)
Fixpoint forEach_from {A St : Type} (body : A -> nat -> St -> St)
    (index : nat) (l : list A) (s : St) : St :=
  match l with
  | [] => s
  | f :: l' => forEach_from body (S index) l' (body f index s)
  end.

Definition forEach {A St : Type} (body : A -> nat -> St -> St)
    (l : list A) (s : St) : St :=
  forEach_from body 0 l s.

(** [err instanceof Error ? err.message : String(err)] *)
Definition cause (err : JsThrown) : string :=
  match err with
  | ErrorObject message => message
  | OtherValue s => s
  end.

(** The locals of lines 169-170 of [calculateMix], which its second
    [forEach] updates. *)
Module Totals.
Record t : Type := mk {
  recipe : list RecipeIngredient;
  actualN : number;
  actualP : number;
  actualK : number;
  actualWeight : number
}.
End Totals.

(** ** [calculateMix] *)

Section CalculateMix.

Local Open Scope js_scope.

(** [const epsilon = 0.001] *)
Definition epsilon : number := Fin (1 # 1000).

(** The callback of [fertilizers.filter] (lines 37-42). *)
Definition zero_target_filter (params : CalculateMixParams)
    (fertilizer : Fertilizer.t) : bool :=
  if (targetN params === 0) && (Fertilizer.n fertilizer >? 0) then false
  else if (targetP params === 0) && (Fertilizer.p fertilizer >? 0) then false
  else if (targetK params === 0) && (Fertilizer.k fertilizer >? 0) then false
  else true.

(** What the [forEach] of lines 72-116 writes to: the problem object and
    the map from variable names to fertilizers. *)
Record Builder : Type := {
  lp : LP.t;
  fertilizerMap : gmap string Fertilizer.t
}.

(** The object literal of lines 55-66. *)
Definition empty_lp : LP.t :=
  LP.mk "Fertilizer-Mix"
        (Objective.mk Glp.GLP_MIN "count" [])
        [] [] [] [].

(** The body of the [forEach] of lines 72-116, for one fertilizer. *)
Definition declare_fertilizer (totalWeight increment M : number)
    (f : Fertilizer.t) (index : nat) (st : Builder) : Builder :=
  let fertilizerMap := <["x" ++ string_of_index index := f]> (fertilizerMap st) in
  let x_var := "x" ++ string_of_index index in
  let z_var := "z" ++ string_of_index index in
  let y_var := "y" ++ string_of_index index in
  let lp := LP.push_objective_var (Coef.mk y_var 1) (lp st) in
  let lp := LP.push_binary y_var lp in
  let lp := LP.push_general z_var lp in
  let lp := LP.push_bound (Bound.mk x_var Glp.GLP_DB 0 totalWeight) lp in
  let lp := LP.push_bound
              (Bound.mk z_var Glp.GLP_DB 0 (floor (totalWeight / increment))) lp in
  let lp := LP.push_bound (Bound.mk y_var Glp.GLP_DB 0 1) lp in
  let lp := LP.push_subjectTo
              (Constraint.mk ("c_increment_" ++ string_of_index index)
                      [Coef.mk x_var 1; Coef.mk z_var (- increment)]
                      (Bnds.mk Glp.GLP_FX (Some 0) (Some 0))) lp in
  let lp := LP.push_subjectTo
              (Constraint.mk ("c_bigM_upper_" ++ string_of_index index)
                      [Coef.mk x_var 1; Coef.mk y_var (- M)]
                      (Bnds.mk Glp.GLP_UP None (Some 0))) lp in
  let lp := LP.push_subjectTo
              (Constraint.mk ("c_bigM_lower_" ++ string_of_index index)
                      [Coef.mk x_var 1; Coef.mk y_var (- epsilon)]
                      (Bnds.mk Glp.GLP_LO (Some 0) None)) lp in
  {| lp := lp; fertilizerMap := fertilizerMap |}.

(** Lines 52-163: the problem built for the fertilizers that passed the
    filter. *)
Definition build_lp (params : CalculateMixParams)
    (availableFertilizers : list Fertilizer.t) : Builder :=
  let targetN := targetN params in
  let targetP := targetP params in
  let targetK := targetK params in
  let totalWeight := totalWeight params in
  let toleranceMultiplier := tolerance params / 100 in
  let M := totalWeight * 2 in
  let st := forEach (declare_fertilizer totalWeight (increment params) M)
                    availableFertilizers
                    {| lp := empty_lp; fertilizerMap := ∅ |} in
  let lp := lp st in
  let lp := LP.push_subjectTo
              (Constraint.mk "c_total_weight"
                      (imap (fun index _ =>
                               Coef.mk ("x" ++ string_of_index index) 1)
                            availableFertilizers)
                      (Bnds.mk Glp.GLP_FX (Some totalWeight) (Some totalWeight)))
              lp in
  let isNitrogenConstraintNecessary :=
    negb ((targetN === 0)
          && forallb (fun f => Fertilizer.n f === 0) availableFertilizers) in
  let lp :=
    if isNitrogenConstraintNecessary then
      let targetNAmount := totalWeight * (targetN / 100) in
      LP.push_subjectTo
        (Constraint.mk "c_N_tolerance"
                (imap (fun index f =>
                         Coef.mk ("x" ++ string_of_index index)
                                 (Fertilizer.n f / 100))
                      availableFertilizers)
                (Bnds.mk Glp.GLP_DB
                         (Some (targetNAmount * (1 - toleranceMultiplier)))
                         (Some (targetNAmount * (1 + toleranceMultiplier)))))
        lp
    else lp in
  let isPhosphorusConstraintNecessary :=
    negb ((targetP === 0)
          && forallb (fun f => Fertilizer.p f === 0) availableFertilizers) in
  let lp :=
    if isPhosphorusConstraintNecessary then
      let targetPAmount := totalWeight * (targetP / 100) in
      LP.push_subjectTo
        (Constraint.mk "c_P_tolerance"
                (imap (fun index f =>
                         Coef.mk ("x" ++ string_of_index index)
                                 (Fertilizer.p f / 100))
                      availableFertilizers)
                (Bnds.mk Glp.GLP_DB
                         (Some (targetPAmount * (1 - toleranceMultiplier)))
                         (Some (targetPAmount * (1 + toleranceMultiplier)))))
        lp
    else lp in
  let isPotassiumConstraintNecessary :=
    negb ((targetK === 0)
          && forallb (fun f => Fertilizer.k f === 0) availableFertilizers) in
  let lp :=
    if isPotassiumConstraintNecessary then
      let targetKAmount := totalWeight * (targetK / 100) in
      LP.push_subjectTo
        (Constraint.mk "c_K_tolerance"
                (imap (fun index f =>
                         Coef.mk ("x" ++ string_of_index index)
                                 (Fertilizer.k f / 100))
                      availableFertilizers)
                (Bnds.mk Glp.GLP_DB
                         (Some (targetKAmount * (1 - toleranceMultiplier)))
                         (Some (targetKAmount * (1 + toleranceMultiplier)))))
        lp
    else lp in
  {| lp := lp; fertilizerMap := fertilizerMap st |}.


(** The body of the [forEach] of lines 172-181. *)
Definition collect (result : SolveResult) (f : Fertilizer.t) (index : nat)
    (acc : Totals.t) : Totals.t :=
  let x_val := vars result !! ("x" ++ string_of_index index) in
  match x_val with
  | Some x_val =>
      if truthy x_val && (x_val >? epsilon) then
        Totals.mk
          (Totals.recipe acc ++ [{| fertilizer := f; amount := x_val |}])
          (Totals.actualN acc + (x_val * Fertilizer.n f / 100))
          (Totals.actualP acc + (x_val * Fertilizer.p f / 100))
          (Totals.actualK acc + (x_val * Fertilizer.k f / 100))
          (Totals.actualWeight acc + x_val)
      else acc
  | None => acc
  end.

(** Lines 197-206: the message for a status that is neither optimal nor
    feasible. *)
Definition status_error_message (status : Z) : string :=
  if (status =? Glp.GLP_NOFEAS)%Z then
    "No feasible solution could be found for the given parameters. Try adjusting NPK targets, tolerance, or available fertilizers."
  else if (status =? Glp.GLP_UNBND)%Z then
    "The problem is unbounded (variables can increase indefinitely without violating constraints)."
  else if (status =? Glp.GLP_UNDEF)%Z then
    "The problem is undefined (e.g., due to contradictory constraints or numerical instability)."
  else
    "Solver finished with status: " ++ string_of_status status.

(** Lines 168-208: what is returned for a result of the solver. *)
Definition interpret (availableFertilizers : list Fertilizer.t)
    (result : SolveResult) : CalculationResult :=
  if (status result =? Glp.GLP_OPT)%Z || (status result =? Glp.GLP_FEAS)%Z then
    let acc := forEach (collect result) availableFertilizers
                       (Totals.mk [] 0 0 0 0) in
    let actualN := Totals.actualN acc in
    let actualP := Totals.actualP acc in
    let actualK := Totals.actualK acc in
    let actualWeight := Totals.actualWeight acc in
    let finalNPK :=
      NPK.mk (or_else ((actualN / actualWeight) * 100) 0)
             (or_else ((actualP / actualWeight) * 100) 0)
             (or_else ((actualK / actualWeight) * 100) 0) in
    let finalRecipe :=
      List.filter (fun item => amount item >? epsilon) (Totals.recipe acc) in
    {| recipe := Some finalRecipe;
       error := None;
       actualNPK := Some finalNPK;
       actualWeight := Some actualWeight |}
  else
    let errorMessage := status_error_message (status result) in
    {| recipe := None; error := Some errorMessage;
       actualNPK := None; actualWeight := None |}.

(** [{ error: message }] *)
Definition failure (message : string) : CalculationResult :=
  {| recipe := None; error := Some message;
     actualNPK := None; actualWeight := None |}.

(** The function itself.  [GLPK] is what [await GLPK()] does: it throws
    or yields the solver.  The result pairs what the call did to the
    outside with how the promise it returns ends. *)
Definition calculateMix (GLPK : JsThrown + GlpkInstance)
    (params : CalculateMixParams) : list Event * Promise CalculationResult :=
  let fertilizers := availableFertilizers params in
  let availableFertilizers :=
    List.filter (zero_target_filter params) fertilizers in
  if (length availableFertilizers =? 0)%nat then
    ([], Resolved (failure "No fertilizers selected for mixing."))
  else if (totalWeight params <=? 0) || (increment params <=? 0) then
    ([], Resolved (failure "Total weight and increment must be positive."))
  else
    match GLPK with
    | inl err => ([CallGLPK], Rejected err)
    | inr glpk =>
        let lp := lp (build_lp params availableFertilizers) in
        match solve glpk lp with
        | inr result =>
            ([CallGLPK; CallSolve lp],
             Resolved (interpret availableFertilizers result))
        | inl err =>
            ([CallGLPK; CallSolve lp; ConsoleError err],
             Resolved
               (failure ("An unexpected error occurred during calculation: "
                         ++ cause err)))
        end
    end.

End CalculateMix.

(** ** What a row of the problem means *)

(** The solver is a library, its code is not part of the repository; a row
    is read the way GLPK documents it and the specification writes the
    constraints: it bounds the linear form of its coefficients from below
    ([GLP_LO]), from above ([GLP_UP]), on both sides ([GLP_DB]) or to one
    value ([GLP_FX]). *)
Section RowSemantics.

Local Open Scope js_scope.

(** The values an assignment gives to the variables, by name. *)
Definition Assignment : Type := string -> number.

Definition row_value (a : Assignment) (r : Constraint.t) : number :=
  fold_left (fun s c => s + Coef.coef c * a (Coef.name c)) (Constraint.vars r) 0.

Definition satisfies (a : Assignment) (r : Constraint.t) : bool :=
  let v := row_value a r in
  let b := Constraint.bnds r in
  if (Bnds.type b =? Glp.GLP_LO)%Z then
    match Bnds.lb b with Some l => l <=? v | None => false end
  else if (Bnds.type b =? Glp.GLP_UP)%Z then
    match Bnds.ub b with Some u => v <=? u | None => false end
  else if (Bnds.type b =? Glp.GLP_DB)%Z then
    match Bnds.lb b, Bnds.ub b with
    | Some l, Some u => (l <=? v) && (v <=? u)
    | _, _ => false
    end
  else if (Bnds.type b =? Glp.GLP_FX)%Z then
    match Bnds.lb b with Some l => v === l | None => false end
  else true.

(** A binary variable takes the value 0 or 1. *)
Definition is_binary (v : number) : bool := (v === 0) || (v === 1).

End RowSemantics.

(** ** The three nutrients, for statements that hold for each of them *)

Inductive Nutrient : Type := Nitrogen | Phosphorus | Potassium.

Definition percentage (nu : Nutrient) (f : Fertilizer.t) : number :=
  match nu with
  | Nitrogen => Fertilizer.n f
  | Phosphorus => Fertilizer.p f
  | Potassium => Fertilizer.k f
  end.

Definition target (nu : Nutrient) (params : CalculateMixParams) : number :=
  match nu with
  | Nitrogen => targetN params
  | Phosphorus => targetP params
  | Potassium => targetK params
  end.

Definition tolerance_row_name (nu : Nutrient) : string :=
  match nu with
  | Nitrogen => "c_N_tolerance"
  | Phosphorus => "c_P_tolerance"
  | Potassium => "c_K_tolerance"
  end.

Definition reported (nu : Nutrient) (npk : NPK.t) : number :=
  match nu with
  | Nitrogen => NPK.n npk
  | Phosphorus => NPK.p npk
  | Potassium => NPK.k npk
  end.

(** ** Sample data: some of [defaultFertilizers] and a request *)

Definition blood_meal : Fertilizer.t :=
  Fertilizer.mk "4d0f7f3a" "Blood Meal" (Fin 12) (Fin 0) (Fin 0).
Definition bone_meal : Fertilizer.t :=
  Fertilizer.mk "4d0f7f3b" "Bone Meal" (Fin 3) (Fin 15) (Fin 0).
Definition urea : Fertilizer.t :=
  Fertilizer.mk "4d0f7f41" "Urea" (Fin 46) (Fin 0) (Fin 0).
Definition potassium_chloride : Fertilizer.t :=
  Fertilizer.mk "4d0f7f44" "Potassium Chloride" (Fin 0) (Fin 0) (Fin 60).

Definition sample_params : CalculateMixParams :=
  {| targetN := Fin 10; targetP := Fin 10; targetK := Fin 10;
     totalWeight := Fin 1000; tolerance := Fin 5; increment := Fin 10;
     availableFertilizers := [urea; bone_meal; potassium_chloride] |}.

(** A solver that answers every problem with the given result. *)
Definition answering (r : SolveResult) : GlpkInstance :=
  {| solve := fun _ => inr r |}.

(** A solver whose [solve] throws. *)
Definition throwing (e : JsThrown) : GlpkInstance :=
  {| solve := fun _ => inl e |}.

(** ** Definitions the statements are written with *)

(** The fertilizers that pass the filter of lines 37-42. *)
Definition survivors (params : CalculateMixParams) : list Fertilizer.t :=
  List.filter (zero_target_filter params) (availableFertilizers params).

(** The three rows the first [forEach] pushes for one index. *)
Definition rows_of_index (increment M : number) (index : nat) : list Constraint.t :=
  [ Constraint.mk ("c_increment_" ++ string_of_index index)
           [Coef.mk ("x" ++ string_of_index index) 1%js;
            Coef.mk ("z" ++ string_of_index index) (- increment)%js]
           (Bnds.mk Glp.GLP_FX (Some 0%js) (Some 0%js));
    Constraint.mk ("c_bigM_upper_" ++ string_of_index index)
           [Coef.mk ("x" ++ string_of_index index) 1%js;
            Coef.mk ("y" ++ string_of_index index) (- M)%js]
           (Bnds.mk Glp.GLP_UP None (Some 0%js));
    Constraint.mk ("c_bigM_lower_" ++ string_of_index index)
           [Coef.mk ("x" ++ string_of_index index) 1%js;
            Coef.mk ("y" ++ string_of_index index) (- epsilon)%js]
           (Bnds.mk Glp.GLP_LO (Some 0%js) None) ].

Definition total_weight_row (params : CalculateMixParams)
    (fs : list Fertilizer.t) : Constraint.t :=
  Constraint.mk "c_total_weight"
         (imap (fun index _ => Coef.mk ("x" ++ string_of_index index) 1%js) fs)
         (Bnds.mk Glp.GLP_FX (Some (totalWeight params)) (Some (totalWeight params))).

(** The tolerance row of a nutrient as the specification words it: the
    sum of [amount_i * pct_i / 100] between [target_amount * (1 - tol)] and
    [target_amount * (1 + tol)], with [target_amount] the total weight
    times the target percentage over 100 and [tol] the tolerance over
    100. *)
Definition spec_tolerance_row (params : CalculateMixParams)
    (fs : list Fertilizer.t) (nu : Nutrient) : Constraint.t :=
  let target_amount := (totalWeight params * (target nu params / 100))%js in
  let tol := (tolerance params / 100)%js in
  Constraint.mk (tolerance_row_name nu)
         (imap (fun index f =>
                  Coef.mk ("x" ++ string_of_index index) (percentage nu f / 100)%js)
               fs)
         (Bnds.mk Glp.GLP_DB
                  (Some (target_amount * (1 - tol))%js)
                  (Some (target_amount * (1 + tol))%js)).

(** When the specification emits that row: the target is nonzero, or some
    surviving fertilizer has a nonzero percentage of the nutrient. *)
Definition spec_tolerance_row_emitted (params : CalculateMixParams)
    (fs : list Fertilizer.t) (nu : Nutrient) : bool :=
  negb (target nu params === 0)%js
  || existsb (fun f => negb (percentage nu f === 0)%js) fs.

(** The nutrient total and the weight of a recipe, as the specification
    words them: [amount * pct / 100], and the amounts, summed over the
    ingredients of the recipe. *)
Definition nutrient_total (nu : Nutrient) (r : list RecipeIngredient) : number :=
  fold_left (fun s item =>
               (s + (amount item * percentage nu (fertilizer item) / 100))%js)
            r 0%js.

Definition total_weight (r : list RecipeIngredient) : number :=
  fold_left (fun s item => (s + amount item)%js) r 0%js.

(** The totals are those of the recipe collected so far. *)
Definition totals_of_recipe (acc : Totals.t) : Prop :=
  Totals.actualN acc = nutrient_total Nitrogen (Totals.recipe acc)
  /\ Totals.actualP acc = nutrient_total Phosphorus (Totals.recipe acc)
  /\ Totals.actualK acc = nutrient_total Potassium (Totals.recipe acc)
  /\ Totals.actualWeight acc = total_weight (Totals.recipe acc).

(** What the second [forEach] leaves behind. *)
Definition collected (params : CalculateMixParams) (result : SolveResult) : Totals.t :=
  forEach (collect result) (survivors params) (Totals.mk [] 0%js 0%js 0%js 0%js).

(** [(total / weight) * 100 || 0] *)
Definition final_percentage (total weight : number) : number :=
  or_else ((total / weight) * 100)%js 0%js.

(** The success result for collected totals. *)
Definition success_of (acc : Totals.t) : CalculationResult :=
  {| recipe := Some (Totals.recipe acc);
     error := None;
     actualNPK :=
       Some (NPK.mk (final_percentage (Totals.actualN acc) (Totals.actualWeight acc))
                    (final_percentage (Totals.actualP acc) (Totals.actualWeight acc))
                    (final_percentage (Totals.actualK acc) (Totals.actualWeight acc)));
     actualWeight := Some (Totals.actualWeight acc) |}.

(** ** More sample data: answers of a solver *)

(** A blend of urea, bone meal and potassium chloride for [sample_params]. *)
Definition blend_result : SolveResult :=
  {| status := Glp.GLP_OPT;
     vars := {[ "x0" := Fin 180; "x1" := Fin 650; "x2" := Fin 170;
                "y0" := Fin 1; "y1" := Fin 1; "y2" := Fin 1;
                "z0" := Fin 18; "z1" := Fin 65; "z2" := Fin 17 ]} |}.

(** A feasible answer in which no amount is above the threshold. *)
Definition trivial_result : SolveResult :=
  {| status := Glp.GLP_FEAS;
     vars := {[ "x0" := Fin 0; "x1" := Fin (1 # 1000); "x2" := Fin (1 # 2000) ]} |}.

(** What the function returns for [sample_params] and [blend_result]. *)
Definition sample_success : CalculationResult :=
  Eval vm_compute in interpret (survivors sample_params) blend_result.

Definition sample_npk : NPK.t :=
  Eval vm_compute in
    match actualNPK sample_success with
    | Some npk => npk
    | None => NPK.mk 0%js 0%js 0%js
    end.

Definition sample_recipe : list RecipeIngredient :=
  Eval vm_compute in
    match recipe sample_success with
    | Some r => r
    | None => []
    end.

(** The variables of [blend_result] as an assignment. *)
Definition blend_assignment : Assignment :=
  fun v => default 0%js (vars blend_result !! v).

(** An assignment that uses five grams of the first fertilizer and leaves
    its indicator at 0. *)
Definition five_unused : Assignment :=
  fun v => if String.eqb v "x0" then Fin 5 else 0%js.

(** A material that takes nitrogen up: its nitrogen percentage is below
    zero. *)
Definition sawdust : Fertilizer.t :=
  Fertilizer.mk "5a7d0001" "Sawdust" (Fin (-1)) (Fin 0) (Fin 0).

(** A request for a blend without nitrogen. *)
Definition no_nitrogen_params : CalculateMixParams :=
  {| targetN := Fin 0; targetP := Fin 10; targetK := Fin 10;
     totalWeight := Fin 1000; tolerance := Fin 5; increment := Fin 10;
     availableFertilizers := [sawdust; urea; potassium_chloride] |}.

(** Requests with a total weight of zero, with and without fertilizers. *)
Definition weightless_params : CalculateMixParams :=
  {| targetN := Fin 10; targetP := Fin 10; targetK := Fin 10;
     totalWeight := Fin 0; tolerance := Fin 5; increment := Fin 10;
     availableFertilizers := [urea; bone_meal; potassium_chloride] |}.

Definition weightless_empty_params : CalculateMixParams :=
  {| targetN := Fin 10; targetP := Fin 10; targetK := Fin 10;
     totalWeight := Fin 0; tolerance := Fin 5; increment := Fin 10;
     availableFertilizers := [] |}.

(** The solver could not be loaded. *)
Definition load_failure : JsThrown := ErrorObject "failed to load glpk.wasm".

(** The model built for [sample_params], and the Usage-lower row of its
    first fertilizer. *)
Definition sample_model : LP.t :=
  lp (build_lp sample_params (survivors sample_params)).

Definition usage_lower_0 : Constraint.t :=
  Constraint.mk ("c_bigM_lower_" ++ string_of_index 0)
         [Coef.mk ("x" ++ string_of_index 0) 1%js;
          Coef.mk ("y" ++ string_of_index 0) (- epsilon)%js]
         (Bnds.mk Glp.GLP_LO (Some 0%js) None).

(** The two rows that link the amount and the indicator of one index:
    Usage-lower, [amount - epsilon * used >= 0], and Usage-upper,
    [amount - M * used <= 0]. *)
Definition usage_lower_row (index : nat) : Constraint.t :=
  Constraint.mk ("c_bigM_lower_" ++ string_of_index index)
         [Coef.mk ("x" ++ string_of_index index) 1%js;
          Coef.mk ("y" ++ string_of_index index) (- epsilon)%js]
         (Bnds.mk Glp.GLP_LO (Some 0%js) None).

Definition usage_upper_row (M : number) (index : nat) : Constraint.t :=
  Constraint.mk ("c_bigM_upper_" ++ string_of_index index)
         [Coef.mk ("x" ++ string_of_index index) 1%js;
          Coef.mk ("y" ++ string_of_index index) (- M)%js]
         (Bnds.mk Glp.GLP_UP None (Some 0%js)).

(** The Usage-upper row of the first fertilizer of [sample_model]. *)
Definition usage_upper_0 : Constraint.t := usage_upper_row (Fin 2000) 0.



(** ** [calculateMix] on a heap of objects

    The embedding above passes values.  In the program the request, the
    array of fertilizers and the fertilizers are objects that the caller
    keeps, and the recipe that is returned refers to the very same
    fertilizer objects.  This second reading of the function keeps the
    objects in a heap and goes through references, so that what the call
    writes can be stated.  The problem object is plain data (numbers and
    names, no reference to an object of the caller) and is kept as a value;
    the arrays and the map that hold references to fertilizers live in the
    heap. *)

Module OnHeap.

Abbreviation loc := positive.

Inductive object : Type :=
| ParamsObj (targetN targetP targetK totalWeight tolerance increment : number)
            (availableFertilizers : loc)
| FertilizerObj (f : Fertilizer.t)
| ArrayObj (elems : list loc)
| MapObj (entries : gmap string loc)
| RecipeIngredientObj (fertilizer : loc) (amount : number).

Abbreviation heap := (gmap loc object).

(** A computation on the heap.  [None] stands for a heap that does not
    have the shape the TypeScript types promise (a dangling reference, an
    object of another type). *)
Definition M (A : Type) : Type := heap -> option (A * heap).

Definition ret {A : Type} (a : A) : M A := fun h => Some (a, h).

Definition bind {A B : Type} (m : M A) (k : A -> M B) : M B :=
  fun h => match m h with
           | Some (a, h') => k a h'
           | None => None
           end.

Definition ill_typed {A : Type} : M A := fun _ => None.

(** A new object, at a reference that is not in use. *)
Definition alloc (o : object) : M loc :=
  fun h => let l := fresh (dom h) in Some (l, <[l := o]> h).

Definition load (l : loc) : M object :=
  fun h => match h !! l with
           | Some o => Some (o, h)
           | None => None
           end.

(** A write to an object that exists. *)
Definition store (l : loc) (o : object) : M unit :=
  fun h => match h !! l with
           | Some _ => Some (tt, <[l := o]> h)
           | None => None
           end.

End OnHeap.

Notation "'do' x <- m ; k" := (OnHeap.bind m (fun x => k))
  (at level 10, x name, m at level 100, k at level 200).
Notation "'do' ' pat <- m ; k" :=
  (OnHeap.bind m (fun x => match x with pat => k end))
  (at level 10, pat pattern, m at level 100, k at level 200).

Module HeapMix.
Import OnHeap.
Local Open Scope js_scope.

Definition load_fertilizer (l : loc) : M Fertilizer.t :=
  do o <- load l;
  match o with FertilizerObj f => ret f | _ => ill_typed end.

Definition load_array (l : loc) : M (list loc) :=
  do o <- load l;
  match o with ArrayObj elems => ret elems | _ => ill_typed end.

Definition load_map (l : loc) : M (gmap string loc) :=
  do o <- load l;
  match o with MapObj entries => ret entries | _ => ill_typed end.

Definition load_item (l : loc) : M (loc * number) :=
  do o <- load l;
  match o with RecipeIngredientObj f x => ret (f, x) | _ => ill_typed end.

(** [Array.prototype.map] and [filter] with a callback that reads the
    heap, and [forEach] with a callback that may write it. *)
Fixpoint mapM {A B : Type} (f : A -> M B) (l : list A) : M (list B) :=
  match l with
  | [] => ret []
  | a :: l' => do b <- f a; do bs <- mapM f l'; ret (b :: bs)
  end.

Fixpoint filterM {A : Type} (p : A -> M bool) (l : list A) : M (list A) :=
  match l with
  | [] => ret []
  | a :: l' =>
      do keep <- p a;
      do rest <- filterM p l';
      ret (if keep : bool then a :: rest else rest)
  end.

Fixpoint forEachM_from {A St : Type} (body : A -> nat -> St -> M St)
    (index : nat) (l : list A) (s : St) : M St :=
  match l with
  | [] => ret s
  | a :: l' => do s' <- body a index s; forEachM_from body (S index) l' s'
  end.

Definition forEachM {A St : Type} (body : A -> nat -> St -> M St)
    (l : list A) (s : St) : M St :=
  forEachM_from body 0 l s.

(** The destructuring of lines 27-35: the request as a value, with the
    fertilizers its array refers to. *)
Definition load_params (params : loc) : M (CalculateMixParams * list loc) :=
  do o <- load params;
  match o with
  | ParamsObj targetN targetP targetK totalWeight tolerance increment array =>
      do fertilizers <- load_array array;
      do values <- mapM load_fertilizer fertilizers;
      ret ({| targetN := targetN; targetP := targetP; targetK := targetK;
              totalWeight := totalWeight; tolerance := tolerance;
              increment := increment; availableFertilizers := values |},
           fertilizers)
  | _ => ill_typed
  end.

(** What the function returns: the recipe is a reference to an array of
    references to [RecipeIngredient] objects. *)
Record Returned : Type := {
  recipe_at : option loc;
  error_text : option string;
  npk : option NPK.t;
  weight : option number
}.

Definition failed (message : string) : Returned :=
  {| recipe_at := None; error_text := Some message;
     npk := None; weight := None |}.

(** The running sums of lines 170 and 176-179. *)
Record Sums : Type := {
  sumN : number;
  sumP : number;
  sumK : number;
  sumWeight : number
}.

(** The body of the first [forEach], as far as it touches the heap:
    [fertilizerMap.set]. *)
Definition remember (fertilizerMap : loc) (f : loc) (index : nat)
    (_ : unit) : M unit :=
  do entries <- load_map fertilizerMap;
  store fertilizerMap (MapObj (<["x" ++ string_of_index index := f]> entries)).

(** The body of the second [forEach]: a new [RecipeIngredient] that
    refers to the fertilizer, pushed on the recipe. *)
Definition collect_at (result : SolveResult) (recipe : loc) (f : loc)
    (index : nat) (s : Sums) : M Sums :=
  match vars result !! ("x" ++ string_of_index index) with
  | Some x_val =>
      if truthy x_val && (x_val >? epsilon) then
        do item <- alloc (RecipeIngredientObj f x_val);
        do items <- load_array recipe;
        do _ <- store recipe (ArrayObj (items ++ [item]));
        do fv <- load_fertilizer f;
        ret {| sumN := sumN s + (x_val * Fertilizer.n fv / 100);
               sumP := sumP s + (x_val * Fertilizer.p fv / 100);
               sumK := sumK s + (x_val * Fertilizer.k fv / 100);
               sumWeight := sumWeight s + x_val |}
      else ret s
  | None => ret s
  end.

Definition interpret_at (availableFertilizers : list loc)
    (result : SolveResult) : M Returned :=
  if (status result =? Glp.GLP_OPT)%Z || (status result =? Glp.GLP_FEAS)%Z then
    do recipe <- alloc (ArrayObj []);
    do s <- forEachM (collect_at result recipe) availableFertilizers
                     {| sumN := 0; sumP := 0; sumK := 0; sumWeight := 0 |};
    let finalNPK :=
      NPK.mk (or_else ((sumN s / sumWeight s) * 100) 0)
             (or_else ((sumP s / sumWeight s) * 100) 0)
             (or_else ((sumK s / sumWeight s) * 100) 0) in
    do items <- load_array recipe;
    do kept <- filterM (fun item => do '(_, x) <- load_item item;
                                    ret (x >? epsilon)) items;
    do finalRecipe <- alloc (ArrayObj kept);
    ret {| recipe_at := Some finalRecipe; error_text := None;
           npk := Some finalNPK; weight := Some (sumWeight s) |}
  else
    ret (failed (status_error_message (status result))).

Definition calculateMix_heap (GLPK : JsThrown + GlpkInstance) (params : loc)
    : M (list Event * Promise Returned) :=
  do '(request, fertilizers) <- load_params params;
  do kept <- filterM (fun f => do fv <- load_fertilizer f;
                               ret (zero_target_filter request fv))
                     fertilizers;
  do availableFertilizers <- alloc (ArrayObj kept);
  if (length kept =? 0)%nat then
    ret ([], Resolved (failed "No fertilizers selected for mixing."))
  else if (totalWeight request <=? 0) || (increment request <=? 0) then
    ret ([], Resolved (failed "Total weight and increment must be positive."))
  else
    match GLPK with
    | inl err => ret ([CallGLPK], Rejected err)
    | inr glpk =>
        do fertilizerMap <- alloc (MapObj ∅);
        do _ <- forEachM (remember fertilizerMap) kept tt;
        do values <- mapM load_fertilizer kept;
        let lp := lp (build_lp request values) in
        match solve glpk lp with
        | inr result =>
            do returned <- interpret_at kept result;
            ret ([CallGLPK; CallSolve lp], Resolved returned)
        | inl err =>
            ret ([CallGLPK; CallSolve lp; ConsoleError err],
                 Resolved
                   (failed ("An unexpected error occurred during calculation: "
                            ++ cause err)))
        end
    end.

(** The running sums are the totals of the value-passing loop. *)
Definition sums_of (s : Sums) (acc : Totals.t) : Prop :=
  sumN s = Totals.actualN acc /\ sumP s = Totals.actualP acc
  /\ sumK s = Totals.actualK acc /\ sumWeight s = Totals.actualWeight acc.

(** *** Reading a heap back into values *)

Definition read_fertilizer (h : heap) (l : loc) : option Fertilizer.t :=
  match h !! l with
  | Some (FertilizerObj f) => Some f
  | _ => None
  end.

Definition read_item (h : heap) (l : loc) : option RecipeIngredient :=
  match h !! l with
  | Some (RecipeIngredientObj f x) =>
      match read_fertilizer h f with
      | Some fv => Some {| fertilizer := fv; amount := x |}
      | None => None
      end
  | _ => None
  end.

Fixpoint read_all {A : Type} (read : loc -> option A) (ls : list loc)
    : option (list A) :=
  match ls with
  | [] => Some []
  | l :: ls' =>
      match read l, read_all read ls' with
      | Some a, Some rest => Some (a :: rest)
      | _, _ => None
      end
  end.

Definition read_array {A : Type} (read : heap -> loc -> option A)
    (h : heap) (l : loc) : option (list A) :=
  match h !! l with
  | Some (ArrayObj elems) => read_all (read h) elems
  | _ => None
  end.

Definition read_params (h : heap) (params : loc) : option CalculateMixParams :=
  match h !! params with
  | Some (ParamsObj targetN targetP targetK totalWeight tolerance increment array) =>
      match read_array read_fertilizer h array with
      | Some values =>
          Some {| targetN := targetN; targetP := targetP; targetK := targetK;
                  totalWeight := totalWeight; tolerance := tolerance;
                  increment := increment; availableFertilizers := values |}
      | None => None
      end
  | _ => None
  end.

Definition read_returned (h : heap) (r : Returned) : option CalculationResult :=
  match recipe_at r with
  | Some l =>
      match read_array read_item h l with
      | Some items =>
          Some {| recipe := Some items; error := error_text r;
                  actualNPK := npk r; actualWeight := weight r |}
      | None => None
      end
  | None =>
      Some {| recipe := None; error := error_text r;
              actualNPK := npk r; actualWeight := weight r |}
  end.

Definition read_promise (h : heap) (p : Promise Returned)
    : option (Promise CalculationResult) :=
  match p with
  | Resolved r =>
      match read_returned h r with
      | Some v => Some (Resolved v)
      | None => None
      end
  | Rejected e => Some (Rejected e)
  end.

(** *** A sample heap: the request [sample_params] and its objects *)

Definition sample_heap : heap :=
  {[ 1%positive := ParamsObj (Fin 10) (Fin 10) (Fin 10) (Fin 1000) (Fin 5) (Fin 10)
                             2%positive;
     2%positive := ArrayObj [3; 4; 5]%positive;
     3%positive := FertilizerObj urea;
     4%positive := FertilizerObj bone_meal;
     5%positive := FertilizerObj potassium_chloride ]}.

End HeapMix.

(** ** The problem in closed form *)

(** The bounds the first [forEach] declares for one index (lines 86-89). *)
Definition declared_bounds (totalWeight increment : number) (index : nat)
    : list Bound.t :=
  [ Bound.mk ("x" ++ string_of_index index) Glp.GLP_DB 0%js totalWeight;
    Bound.mk ("z" ++ string_of_index index) Glp.GLP_DB 0%js
             (floor (totalWeight / increment)%js);
    Bound.mk ("y" ++ string_of_index index) Glp.GLP_DB 0%js 1%js ].

(** The tolerance rows that are emitted, in the order nitrogen, phosphorus,
    potassium. *)
Definition tolerance_rows (params : CalculateMixParams)
    (fs : list Fertilizer.t) : list Constraint.t :=
  flat_map (fun nu => if spec_tolerance_row_emitted params fs nu
                      then [spec_tolerance_row params fs nu] else [])
           [Nitrogen; Phosphorus; Potassium].

(** The whole problem object for a request and the fertilizers that
    passed the filter, written without loops. *)
Definition closed_form_lp (params : CalculateMixParams)
    (fs : list Fertilizer.t) : LP.t :=
  LP.mk "Fertilizer-Mix"
        (Objective.mk Glp.GLP_MIN "count"
           (imap (fun index _ => Coef.mk ("y" ++ string_of_index index) 1%js) fs))
        (List.app
           (concat (imap (fun index _ =>
                            rows_of_index (increment params)
                                          (totalWeight params * 2)%js index) fs))
           (total_weight_row params fs :: tolerance_rows params fs))
        (concat (imap (fun index _ =>
                         declared_bounds (totalWeight params) (increment params) index)
                      fs))
        (imap (fun index _ => "y" ++ string_of_index index) fs)
        (imap (fun index _ => "z" ++ string_of_index index) fs).

(** The request with another list of fertilizers. *)
Definition with_fertilizers (params : CalculateMixParams)
    (fs : list Fertilizer.t) : CalculateMixParams :=
  {| targetN := targetN params; targetP := targetP params;
     targetK := targetK params; totalWeight := totalWeight params;
     tolerance := tolerance params; increment := increment params;
     availableFertilizers := fs |}.

(** The values a solver reports, as an assignment; a variable it does not
    report counts as 0. *)
Definition assignment_of (result : SolveResult) : Assignment :=
  fun v => default 0%js (vars result !! v).

(** ** References into the request, for the function on the heap *)

(** An entry of the recipe: an object that was not in the heap [h0] and
    that refers to one of the given fertilizer objects. *)
Definition refers_into (h0 h : gmap positive OnHeap.object)
    (all : list positive) (item : positive) : Prop :=
  h0 !! item = None
  /\ exists f x, h !! item = Some (OnHeap.RecipeIngredientObj f x) /\ In f all.

(** The references the array of the request holds. *)
Definition request_fertilizers (h : gmap positive OnHeap.object)
    (params : positive) : list positive :=
  match h !! params with
  | Some (OnHeap.ParamsObj _ _ _ _ _ _ array) =>
      match h !! array with
      | Some (OnHeap.ArrayObj elems) => elems
      | _ => []
      end
  | _ => []
  end.

(** ** The components that call [calculateMix] and keep its results

    The components are React function components; each is modelled by its
    state and by its handlers as functions from a state to the next one.

    Modelled from the spec: the hook [useLocalStorage] is not among the
    sources.  It is taken to hold a value and to replace it when its
    setter is called (with a value, or with a function of the previous
    value), as [useState] does; what it persists is not modelled.

    What the browser supplies to a handler is an argument of it: the
    answer of [window.confirm], the identifier of [crypto.randomUUID], the
    renderings of [new Date()], and [StringToNumber], what [Number] makes
    of a string. *)

(** [Blend] of [src/types/index.ts]. *)
Module Blend.
Record t : Type := mk {
  id : string;
  name : string;
  date : string;
  targetNPK : NPK.t;
  totalWeight : number;  (* in grams *)
  recipe : list RecipeIngredient
}.
End Blend.

(** A state of type [number | string]. *)
Inductive NumberOrString : Type :=
| NumberValue (v : number)
| StringValue (s : string).

(** [Number(value)] *)
Definition Number (StringToNumber : string -> number) (value : NumberOrString)
    : number :=
  match value with
  | NumberValue v => v
  | StringValue s => StringToNumber s
  end.

(** [String(n)] for the integer [new Date().getTime()]. *)
Definition string_of_time (t : Z) : string :=
  NilZero.string_of_int (Z.to_int t).

(** [x !== ''], the truth value of a string. *)
Definition nonempty (s : string) : bool := negb (String.eqb s "").

Module Mixer.

(** [/^[0-9]*\.?[0-9]*$/.test(value)]: digits, at most one dot, digits. *)
Definition is_digit (c : Ascii.ascii) : bool :=
  (48 <=? Ascii.nat_of_ascii c)%nat && (Ascii.nat_of_ascii c <=? 57)%nat.

Fixpoint skip_digits (s : string) : string :=
  match s with
  | String c rest => if is_digit c then skip_digits rest else s
  | EmptyString => s
  end.

Definition skip_dot (s : string) : string :=
  match s with
  | String c rest => if Ascii.eqb c (Ascii.ascii_of_nat 46) then rest else s
  | EmptyString => s
  end.

Definition number_text (value : string) : bool :=
  String.eqb (skip_digits (skip_dot (skip_digits value))) "".

(** [handleNumberInputChange(setter)(e)]: the value the setter's state
    has afterwards. *)
Definition handleNumberInputChange (current : NumberOrString) (value : string)
    : NumberOrString :=
  if String.eqb value "" || number_text value then StringValue value
  else current.

(** [getSafeNumber(value, defaultValue)] *)
Definition getSafeNumber (StringToNumber : string -> number)
    (value : NumberOrString) (defaultValue : number) : number :=
  match value with
  | StringValue EmptyString => defaultValue
  | _ =>
      let num := Number StringToNumber value in
      if is_nan num then defaultValue else num
  end.

(** The state of the component (lines 153-172). *)
Record State : Type := {
  targetN : NumberOrString;
  targetP : NumberOrString;
  targetK : NumberOrString;
  totalWeight : NumberOrString;
  tolerance : number;
  increment : NumberOrString;
  allFertilizers : list Fertilizer.t;
  selectedFertilizers : list Fertilizer.t;
  calculationResult : option CalculationResult;
  pastBlends : list Blend.t
}.

Definition setCalculationResult (r : option CalculationResult) (st : State)
    : State :=
  {| targetN := targetN st; targetP := targetP st; targetK := targetK st;
     totalWeight := totalWeight st; tolerance := tolerance st;
     increment := increment st; allFertilizers := allFertilizers st;
     selectedFertilizers := selectedFertilizers st;
     calculationResult := r;
     pastBlends := pastBlends st |}.

Definition setPastBlends (update : list Blend.t -> list Blend.t) (st : State)
    : State :=
  {| targetN := targetN st; targetP := targetP st; targetK := targetK st;
     totalWeight := totalWeight st; tolerance := tolerance st;
     increment := increment st; allFertilizers := allFertilizers st;
     selectedFertilizers := selectedFertilizers st;
     calculationResult := calculationResult st;
     pastBlends := update (pastBlends st) |}.

(** The request [handleCalculateMix] builds (lines 176-180 and
    193-201). *)
Definition request (StringToNumber : string -> number) (st : State)
    : CalculateMixParams :=
  let safeTargetN := getSafeNumber StringToNumber (targetN st) 0%js in
  let safeTargetP := getSafeNumber StringToNumber (targetP st) 0%js in
  let safeTargetK := getSafeNumber StringToNumber (targetK st) 0%js in
  let safeTotalWeight := getSafeNumber StringToNumber (totalWeight st) 0%js in
  let safeIncrement := getSafeNumber StringToNumber (increment st) 0%js in
  Build_CalculateMixParams safeTargetN safeTargetP safeTargetK safeTotalWeight
                           (tolerance st) safeIncrement (selectedFertilizers st).

(** [handleCalculateMix] (lines 175-206): what is done to the outside,
    the state afterwards, and what the handler's promise is rejected
    with, if it is. *)
Definition handleCalculateMix (StringToNumber : string -> number)
    (GLPK : JsThrown + GlpkInstance) (st : State)
    : list Event * State * option JsThrown :=
  let safeTotalWeight := getSafeNumber StringToNumber (totalWeight st) 0%js in
  let safeIncrement := getSafeNumber StringToNumber (increment st) 0%js in
  if (safeTotalWeight <=? 0)%js then
    ([], setCalculationResult
           (Some (failure "Total Blend Weight must be greater than 0.")) st,
     None)
  else if (safeIncrement <=? 0)%js then
    ([], setCalculationResult
           (Some (failure "Ingredient Increment must be greater than 0.")) st,
     None)
  else
    let params := request StringToNumber st in
    let st := setCalculationResult None st in
    match calculateMix GLPK params with
    | (events, Resolved result) =>
        (events, setCalculationResult (Some result) st, None)
    | (events, Rejected err) => (events, st, Some err)
    end.

(** The condition of [handleSaveBlend] (line 209): a recipe, no error
    text, percentages, and an actual weight that is neither zero nor
    NaN. *)
Definition can_save (calculationResult : option CalculationResult) : bool :=
  match calculationResult with
  | Some result =>
      match recipe result, actualNPK result, actualWeight result with
      | Some _, Some _, Some w =>
          negb (match error result with
                | Some message => nonempty message
                | None => false
                end)
          && truthy w
      | _, _, _ => false
      end
  | None => false
  end.

(** [handleSaveBlend] (lines 208-227): the state afterwards and the text
    of the alert. *)
Definition handleSaveBlend (StringToNumber : string -> number)
    (randomUUID localeString isoString : string) (st : State)
    : State * string :=
  match calculationResult st with
  | Some result =>
      match recipe result, actualNPK result, actualWeight result with
      | Some r, Some _, Some w =>
          if can_save (calculationResult st) then
            let newBlend :=
              Blend.mk randomUUID
                       ("Blend " ++ localeString)
                       isoString
                       (NPK.mk (getSafeNumber StringToNumber (targetN st) 0%js)
                               (getSafeNumber StringToNumber (targetP st) 0%js)
                               (getSafeNumber StringToNumber (targetK st) 0%js))
                       w
                       r in
            (setPastBlends (fun prevBlends => List.app prevBlends [newBlend]) st,
             "Blend saved successfully!")
          else
            (st, "Cannot save blend: no successful calculation result found or missing NPK/Weight data.")
      | _, _, _ =>
          (st, "Cannot save blend: no successful calculation result found or missing NPK/Weight data.")
      end
  | None =>
      (st, "Cannot save blend: no successful calculation result found or missing NPK/Weight data.")
  end.
End Mixer.

(** The component of saved blends (its [handleDeleteBlend], lines 9-13). *)
Module PastBlends.
Definition handleDeleteBlend (confirm : bool) (id : string)
    (pastBlends : list Blend.t) : list Blend.t :=
  if confirm then
    List.filter (fun blend => negb (String.eqb (Blend.id blend) id)) pastBlends
  else pastBlends.
End PastBlends.

(** The library of fertilizers (its state and handlers, lines 25-55). *)
Module FertilizerLibrary.
Record State : Type := {
  fertilizers : list Fertilizer.t;
  open : bool;
  selectedFertilizer : option Fertilizer.t
}.

Definition handleAdd (st : State) : State :=
  {| fertilizers := fertilizers st; open := true; selectedFertilizer := None |}.

Definition handleEdit (fertilizer : Fertilizer.t) (st : State) : State :=
  {| fertilizers := fertilizers st; open := true;
     selectedFertilizer := Some fertilizer |}.

Definition handleDelete (confirm : bool) (id : string) (st : State) : State :=
  if confirm then
    {| fertilizers :=
         List.filter (fun f => negb (String.eqb (Fertilizer.id f) id))
                     (fertilizers st);
       open := open st; selectedFertilizer := selectedFertilizer st |}
  else st.

(** [now] is [new Date().getTime()]. *)
Definition handleSave (now : Z) (fertilizer : Fertilizer.t) (st : State)
    : State :=
  if nonempty (Fertilizer.id fertilizer) then
    {| fertilizers :=
         List.map (fun f => if String.eqb (Fertilizer.id f) (Fertilizer.id fertilizer)
                            then fertilizer else f)
                  (fertilizers st);
       open := false; selectedFertilizer := selectedFertilizer st |}
  else
    {| fertilizers :=
         List.app (fertilizers st)
                  [Fertilizer.mk (string_of_time now)
                                 (Fertilizer.name fertilizer)
                                 (Fertilizer.n fertilizer)
                                 (Fertilizer.p fertilizer)
                                 (Fertilizer.k fertilizer)];
       open := false; selectedFertilizer := selectedFertilizer st |}.
End FertilizerLibrary.

(** The dialog of [src/components/FertilizerForm.tsx]. *)
Module FertilizerForm.
Definition emptyFertilizer : Fertilizer.t :=
  Fertilizer.mk "" "" 0%js 0%js 0%js.

(** The four inputs of the dialog, by their [name] attribute. *)
Inductive Input : Type := name | n | p | k.

(** The state the effect of lines 25-27 sets when the dialog is given a
    fertilizer or none: [fertilizer || emptyFertilizer]. *)
Definition initial (fertilizer : option Fertilizer.t) : Fertilizer.t :=
  match fertilizer with
  | Some f => f
  | None => emptyFertilizer
  end.

(** [handleChange] for an event of one of the inputs (lines 29-35). *)
Definition handleChange (StringToNumber : string -> number)
    (input : Input) (value : string) (formState : Fertilizer.t)
    : Fertilizer.t :=
  match input with
  | name =>
      Fertilizer.mk (Fertilizer.id formState) value (Fertilizer.n formState)
                    (Fertilizer.p formState) (Fertilizer.k formState)
  | n =>
      Fertilizer.mk (Fertilizer.id formState) (Fertilizer.name formState)
                    (StringToNumber value)
                    (Fertilizer.p formState) (Fertilizer.k formState)
  | p =>
      Fertilizer.mk (Fertilizer.id formState) (Fertilizer.name formState)
                    (Fertilizer.n formState)
                    (StringToNumber value) (Fertilizer.k formState)
  | k =>
      Fertilizer.mk (Fertilizer.id formState) (Fertilizer.name formState)
                    (Fertilizer.n formState) (Fertilizer.p formState)
                    (StringToNumber value)
  end.

(** A sequence of change events, the first one first. *)
Definition handleChanges (StringToNumber : string -> number)
    (events : list (Input * string)) (formState : Fertilizer.t)
    : Fertilizer.t :=
  fold_left (fun st e => handleChange StringToNumber (fst e) (snd e) st)
            events formState.
End FertilizerForm.

(** A user session with the dialog: the library opens it for a new or for
    an existing fertilizer, the user changes inputs, and Save hands the
    form's state to the library's [handleSave]. *)
Definition edit_and_save (StringToNumber : string -> number) (now : Z)
    (selection : option Fertilizer.t) (events : list (FertilizerForm.Input * string))
    (st : FertilizerLibrary.State) : FertilizerLibrary.State :=
  let st :=
    match selection with
    | Some f => FertilizerLibrary.handleEdit f st
    | None => FertilizerLibrary.handleAdd st
    end in
  let formState :=
    FertilizerForm.handleChanges StringToNumber events
      (FertilizerForm.initial (FertilizerLibrary.selectedFertilizer st)) in
  FertilizerLibrary.handleSave now formState st.

(** ** Sample data for the components *)

(** A reading of decimal text, for the samples: the digits before a dot as
    an integer; anything else is NaN.  The properties below hold for every
    [StringToNumber]. *)
Definition integer_text (s : string) : number :=
  if Mixer.number_text s && nonempty s then
    match NilZero.uint_of_string s with
    | Some u => Fin (inject_Z (Z.of_uint u))
    | None => NaN
    end
  else NaN.

Definition sample_mixer : Mixer.State :=
  {| Mixer.targetN := NumberValue (Fin 10);
     Mixer.targetP := NumberValue (Fin 10);
     Mixer.targetK := NumberValue (Fin 10);
     Mixer.totalWeight := NumberValue (Fin 1000);
     Mixer.tolerance := Fin 5;
     Mixer.increment := NumberValue (Fin 10);
     Mixer.allFertilizers := [urea; bone_meal; potassium_chloride];
     Mixer.selectedFertilizers := [urea; bone_meal; potassium_chloride];
     Mixer.calculationResult := None;
     Mixer.pastBlends := [] |}.

Definition sample_library : FertilizerLibrary.State :=
  {| FertilizerLibrary.fertilizers := [urea; bone_meal; potassium_chloride];
     FertilizerLibrary.open := false;
     FertilizerLibrary.selectedFertilizer := None |}.

(** Text of digits only. *)
Fixpoint all_digits (s : string) : bool :=
  match s with
  | String c rest => Mixer.is_digit c && all_digits rest
  | EmptyString => true
  end.

(** The mixer after a calculation that the solver answers with
    [blend_result]. *)
Definition calculated_mixer : Mixer.State :=
  snd (fst (Mixer.handleCalculateMix integer_text
              (inr (answering blend_result)) sample_mixer)).

(** An answer without a feasible solution, and the dosing row of the first
    fertilizer of the sample model. *)
Definition infeasible_result : SolveResult :=
  {| status := Glp.GLP_NOFEAS; vars := ∅ |}.

Definition dosing_row_0 : Constraint.t :=
  Constraint.mk ("c_increment_" ++ string_of_index 0)
    [Coef.mk ("x" ++ string_of_index 0) 1%js;
     Coef.mk ("z" ++ string_of_index 0) (- Fin 10)%js]
    (Bnds.mk Glp.GLP_FX (Some 0%js) (Some 0%js)).

(** ** The function over an arithmetic that rounds *)

(** The embedding above computes with exact rationals.  A JavaScript
    engine rounds the result of every addition, subtraction,
    multiplication and division to the nearest binary64 number, and a
    decimal literal stands for the binary64 number nearest to it; unary
    minus, comparisons, [Math.floor] and the truth value of a number do
    not round.  For the properties that speak about computed numbers the
    function is embedded once more, over an arbitrary arithmetic of which
    the exact one and the binary64 one are instances; over the exact
    arithmetic it is [calculateMix] as embedded above. *)
Module Rounded.

Class Arithmetic : Type := {
  add : number -> number -> number;
  sub : number -> number -> number;
  mul : number -> number -> number;
  div : number -> number -> number;
  (** the number a decimal literal stands for *)
  decimal : Q -> number
}.

Notation "a ⊕ b" := (add a b) (at level 50, left associativity).
Notation "a ⊖ b" := (sub a b) (at level 50, left associativity).
Notation "a ⊗ b" := (mul a b) (at level 40, left associativity).
Notation "a ⊘ b" := (div a b) (at level 40, left associativity).

Local Open Scope js_scope.

(** *** Two arithmetics *)

Definition exact_arithmetic : Arithmetic :=
  {| add := JsNumber.add; sub := JsNumber.sub;
     mul := JsNumber.mul; div := JsNumber.div;
     decimal := Fin |}.

(** [2 ^ k], and for a rational [q > 0] the integer [k] with
    [2 ^ k <= q < 2 ^ (k + 1)]. *)
Definition pow2 (k : Z) : Q := Qpower 2 k.

Definition ilog2 (q : Q) : Z :=
  let k := (Z.log2 (Qnum q) - Z.log2 (Zpos (Qden q)))%Z in
  if Qle_bool (pow2 k) q then k else (k - 1)%Z.

(** The integer nearest to a rational, the even one of two that are
    equally near. *)
Definition round_half_even (m : Q) : Z :=
  let f := Qfloor m in
  match (m - inject_Z f ?= 1 # 2)%Q with
  | Lt => f
  | Gt => (f + 1)%Z
  | Eq => if Z.even f then f else (f + 1)%Z
  end.

(** The binary64 number nearest to a rational [q > 0]: a multiple of
    [2 ^ e] with a significand of at most 53 bits, where [e] is at least
    -1074; from [2 ^ 1024] on, infinity. *)
Definition nearest_binary64 (q : Q) : number :=
  let e := Z.max (ilog2 q - 52) (-1074) in
  let v := Qred (inject_Z (round_half_even (q / pow2 e)) * pow2 e) in
  if Qle_bool (pow2 1024) v then PosInf else Fin v.

Definition to_binary64 (q : Q) : number :=
  match (q ?= 0)%Q with
  | Eq => Fin 0
  | Gt => nearest_binary64 q
  | Lt => neg (nearest_binary64 (- q))
  end.

Definition rounded (a : number) : number :=
  match a with
  | Fin q => to_binary64 q
  | _ => a
  end.

(** Each operation is the exact one followed by rounding. *)
Definition binary64_arithmetic : Arithmetic :=
  {| add := fun a b => rounded (JsNumber.add a b);
     sub := fun a b => rounded (JsNumber.sub a b);
     mul := fun a b => rounded (JsNumber.mul a b);
     div := fun a b => rounded (JsNumber.div a b);
     decimal := to_binary64 |}.

(** *** [calculateMix] *)

(** [const epsilon = 0.001] *)
Definition epsilon (A : Arithmetic) : number := decimal (1 # 1000).

(** The body of the [forEach] of lines 72-116, for one fertilizer. *)
Definition declare_fertilizer (A : Arithmetic) (totalWeight increment M : number)
    (f : Fertilizer.t) (index : nat) (st : Builder) : Builder :=
  let fertilizerMap := <["x" ++ string_of_index index := f]> (fertilizerMap st) in
  let x_var := "x" ++ string_of_index index in
  let z_var := "z" ++ string_of_index index in
  let y_var := "y" ++ string_of_index index in
  let lp := LP.push_objective_var (Coef.mk y_var 1) (lp st) in
  let lp := LP.push_binary y_var lp in
  let lp := LP.push_general z_var lp in
  let lp := LP.push_bound (Bound.mk x_var Glp.GLP_DB 0 totalWeight) lp in
  let lp := LP.push_bound
              (Bound.mk z_var Glp.GLP_DB 0 (floor (totalWeight ⊘ increment))) lp in
  let lp := LP.push_bound (Bound.mk y_var Glp.GLP_DB 0 1) lp in
  let lp := LP.push_subjectTo
              (Constraint.mk ("c_increment_" ++ string_of_index index)
                      [Coef.mk x_var 1; Coef.mk z_var (- increment)]
                      (Bnds.mk Glp.GLP_FX (Some 0) (Some 0))) lp in
  let lp := LP.push_subjectTo
              (Constraint.mk ("c_bigM_upper_" ++ string_of_index index)
                      [Coef.mk x_var 1; Coef.mk y_var (- M)]
                      (Bnds.mk Glp.GLP_UP None (Some 0))) lp in
  let lp := LP.push_subjectTo
              (Constraint.mk ("c_bigM_lower_" ++ string_of_index index)
                      [Coef.mk x_var 1; Coef.mk y_var (- epsilon A)]
                      (Bnds.mk Glp.GLP_LO (Some 0) None)) lp in
  {| lp := lp; fertilizerMap := fertilizerMap |}.

(** Lines 52-163: the problem built for the fertilizers that passed the
    filter. *)
Definition build_lp (A : Arithmetic) (params : CalculateMixParams)
    (availableFertilizers : list Fertilizer.t) : Builder :=
  let targetN := targetN params in
  let targetP := targetP params in
  let targetK := targetK params in
  let totalWeight := totalWeight params in
  let toleranceMultiplier := tolerance params ⊘ 100 in
  let M := totalWeight ⊗ 2 in
  let st := forEach (declare_fertilizer A totalWeight (increment params) M)
                    availableFertilizers
                    {| lp := empty_lp; fertilizerMap := ∅ |} in
  let lp := lp st in
  let lp := LP.push_subjectTo
              (Constraint.mk "c_total_weight"
                      (imap (fun index _ =>
                               Coef.mk ("x" ++ string_of_index index) 1)
                            availableFertilizers)
                      (Bnds.mk Glp.GLP_FX (Some totalWeight) (Some totalWeight)))
              lp in
  let isNitrogenConstraintNecessary :=
    negb ((targetN === 0)
          && forallb (fun f => Fertilizer.n f === 0) availableFertilizers) in
  let lp :=
    if isNitrogenConstraintNecessary then
      let targetNAmount := totalWeight ⊗ (targetN ⊘ 100) in
      LP.push_subjectTo
        (Constraint.mk "c_N_tolerance"
                (imap (fun index f =>
                         Coef.mk ("x" ++ string_of_index index)
                                 (Fertilizer.n f ⊘ 100))
                      availableFertilizers)
                (Bnds.mk Glp.GLP_DB
                         (Some (targetNAmount ⊗ (1 ⊖ toleranceMultiplier)))
                         (Some (targetNAmount ⊗ (1 ⊕ toleranceMultiplier)))))
        lp
    else lp in
  let isPhosphorusConstraintNecessary :=
    negb ((targetP === 0)
          && forallb (fun f => Fertilizer.p f === 0) availableFertilizers) in
  let lp :=
    if isPhosphorusConstraintNecessary then
      let targetPAmount := totalWeight ⊗ (targetP ⊘ 100) in
      LP.push_subjectTo
        (Constraint.mk "c_P_tolerance"
                (imap (fun index f =>
                         Coef.mk ("x" ++ string_of_index index)
                                 (Fertilizer.p f ⊘ 100))
                      availableFertilizers)
                (Bnds.mk Glp.GLP_DB
                         (Some (targetPAmount ⊗ (1 ⊖ toleranceMultiplier)))
                         (Some (targetPAmount ⊗ (1 ⊕ toleranceMultiplier)))))
        lp
    else lp in
  let isPotassiumConstraintNecessary :=
    negb ((targetK === 0)
          && forallb (fun f => Fertilizer.k f === 0) availableFertilizers) in
  let lp :=
    if isPotassiumConstraintNecessary then
      let targetKAmount := totalWeight ⊗ (targetK ⊘ 100) in
      LP.push_subjectTo
        (Constraint.mk "c_K_tolerance"
                (imap (fun index f =>
                         Coef.mk ("x" ++ string_of_index index)
                                 (Fertilizer.k f ⊘ 100))
                      availableFertilizers)
                (Bnds.mk Glp.GLP_DB
                         (Some (targetKAmount ⊗ (1 ⊖ toleranceMultiplier)))
                         (Some (targetKAmount ⊗ (1 ⊕ toleranceMultiplier)))))
        lp
    else lp in
  {| lp := lp; fertilizerMap := fertilizerMap st |}.

(** The body of the [forEach] of lines 172-181. *)
Definition collect (A : Arithmetic) (result : SolveResult) (f : Fertilizer.t)
    (index : nat) (acc : Totals.t) : Totals.t :=
  let x_val := vars result !! ("x" ++ string_of_index index) in
  match x_val with
  | Some x_val =>
      if truthy x_val && (x_val >? epsilon A) then
        Totals.mk
          (Totals.recipe acc ++ [{| fertilizer := f; amount := x_val |}])
          (Totals.actualN acc ⊕ (x_val ⊗ Fertilizer.n f ⊘ 100))
          (Totals.actualP acc ⊕ (x_val ⊗ Fertilizer.p f ⊘ 100))
          (Totals.actualK acc ⊕ (x_val ⊗ Fertilizer.k f ⊘ 100))
          (Totals.actualWeight acc ⊕ x_val)
      else acc
  | None => acc
  end.

(** Lines 168-208: what is returned for a result of the solver. *)
Definition interpret (A : Arithmetic) (availableFertilizers : list Fertilizer.t)
    (result : SolveResult) : CalculationResult :=
  if (status result =? Glp.GLP_OPT)%Z || (status result =? Glp.GLP_FEAS)%Z then
    let acc := forEach (collect A result) availableFertilizers
                       (Totals.mk [] 0 0 0 0) in
    let actualN := Totals.actualN acc in
    let actualP := Totals.actualP acc in
    let actualK := Totals.actualK acc in
    let actualWeight := Totals.actualWeight acc in
    let finalNPK :=
      NPK.mk (or_else ((actualN ⊘ actualWeight) ⊗ 100) 0)
             (or_else ((actualP ⊘ actualWeight) ⊗ 100) 0)
             (or_else ((actualK ⊘ actualWeight) ⊗ 100) 0) in
    let finalRecipe :=
      List.filter (fun item => amount item >? epsilon A) (Totals.recipe acc) in
    {| recipe := Some finalRecipe;
       error := None;
       actualNPK := Some finalNPK;
       actualWeight := Some actualWeight |}
  else
    let errorMessage := status_error_message (status result) in
    {| recipe := None; error := Some errorMessage;
       actualNPK := None; actualWeight := None |}.

(** The function itself, as [calculateMix] above. *)
Definition calculateMix (A : Arithmetic) (GLPK : JsThrown + GlpkInstance)
    (params : CalculateMixParams) : list Event * Promise CalculationResult :=
  let fertilizers := availableFertilizers params in
  let availableFertilizers :=
    List.filter (zero_target_filter params) fertilizers in
  if (length availableFertilizers =? 0)%nat then
    ([], Resolved (failure "No fertilizers selected for mixing."))
  else if (totalWeight params <=? 0) || (increment params <=? 0) then
    ([], Resolved (failure "Total weight and increment must be positive."))
  else
    match GLPK with
    | inl err => ([CallGLPK], Rejected err)
    | inr glpk =>
        let lp := lp (build_lp A params availableFertilizers) in
        match solve glpk lp with
        | inr result =>
            ([CallGLPK; CallSolve lp],
             Resolved (interpret A availableFertilizers result))
        | inl err =>
            ([CallGLPK; CallSolve lp; ConsoleError err],
             Resolved
               (failure ("An unexpected error occurred during calculation: "
                         ++ cause err)))
        end
    end.

(** *** The problem in closed form *)

(** The three rows the first [forEach] pushes for one index. *)
Definition rows_of_index (A : Arithmetic) (increment M : number) (index : nat)
    : list Constraint.t :=
  [ Constraint.mk ("c_increment_" ++ string_of_index index)
           [Coef.mk ("x" ++ string_of_index index) 1;
            Coef.mk ("z" ++ string_of_index index) (- increment)]
           (Bnds.mk Glp.GLP_FX (Some 0) (Some 0));
    Constraint.mk ("c_bigM_upper_" ++ string_of_index index)
           [Coef.mk ("x" ++ string_of_index index) 1;
            Coef.mk ("y" ++ string_of_index index) (- M)]
           (Bnds.mk Glp.GLP_UP None (Some 0));
    Constraint.mk ("c_bigM_lower_" ++ string_of_index index)
           [Coef.mk ("x" ++ string_of_index index) 1;
            Coef.mk ("y" ++ string_of_index index) (- epsilon A)]
           (Bnds.mk Glp.GLP_LO (Some 0) None) ].

(** The bounds it declares for one index. *)
Definition declared_bounds (A : Arithmetic) (totalWeight increment : number)
    (index : nat) : list Bound.t :=
  [ Bound.mk ("x" ++ string_of_index index) Glp.GLP_DB 0 totalWeight;
    Bound.mk ("z" ++ string_of_index index) Glp.GLP_DB 0
             (floor (totalWeight ⊘ increment));
    Bound.mk ("y" ++ string_of_index index) Glp.GLP_DB 0 1 ].

(** The tolerance row of a nutrient, and the tolerance rows that are
    emitted, in the order nitrogen, phosphorus, potassium. *)
Definition tolerance_row (A : Arithmetic) (params : CalculateMixParams)
    (fs : list Fertilizer.t) (nu : Nutrient) : Constraint.t :=
  let target_amount := totalWeight params ⊗ (target nu params ⊘ 100) in
  let tol := tolerance params ⊘ 100 in
  Constraint.mk (tolerance_row_name nu)
         (imap (fun index f =>
                  Coef.mk ("x" ++ string_of_index index) (percentage nu f ⊘ 100))
               fs)
         (Bnds.mk Glp.GLP_DB
                  (Some (target_amount ⊗ (1 ⊖ tol)))
                  (Some (target_amount ⊗ (1 ⊕ tol)))).

Definition tolerance_rows (A : Arithmetic) (params : CalculateMixParams)
    (fs : list Fertilizer.t) : list Constraint.t :=
  flat_map (fun nu => if spec_tolerance_row_emitted params fs nu
                      then [tolerance_row A params fs nu] else [])
           [Nitrogen; Phosphorus; Potassium].

(** The whole problem object for a request and the fertilizers that
    passed the filter, written without loops. *)
Definition closed_form_lp (A : Arithmetic) (params : CalculateMixParams)
    (fs : list Fertilizer.t) : LP.t :=
  LP.mk "Fertilizer-Mix"
        (Objective.mk Glp.GLP_MIN "count"
           (imap (fun index _ => Coef.mk ("y" ++ string_of_index index) 1) fs))
        (List.app
           (concat (imap (fun index _ =>
                            rows_of_index A (increment params)
                                          (totalWeight params ⊗ 2) index) fs))
           (total_weight_row params fs :: tolerance_rows A params fs))
        (concat (imap (fun index _ =>
                         declared_bounds A (totalWeight params) (increment params)
                                         index)
                      fs))
        (imap (fun index _ => "y" ++ string_of_index index) fs)
        (imap (fun index _ => "z" ++ string_of_index index) fs).

End Rounded.

(** A request for three tenths of a gram in steps of a tenth, the numbers
    being the binary64 numbers of the decimal literals. *)
Definition tenths_params : CalculateMixParams :=
  {| targetN := Fin 10; targetP := Fin 10; targetK := Fin 10;
     totalWeight := Rounded.to_binary64 (3 # 10); tolerance := Fin 5;
     increment := Rounded.to_binary64 (1 # 10);
     availableFertilizers := [urea; bone_meal; potassium_chloride] |}.

Definition tenths_model : LP.t :=
  Eval vm_compute in
    Rounded.closed_form_lp Rounded.binary64_arithmetic tenths_params
                           (survivors tenths_params).

(** An answer for [tenths_params]: a tenth and two tenths of a gram of the
    first two fertilizers, and of the third what the literal [0.001]
    stands for, which is not above epsilon. *)
Definition tenths_result : SolveResult :=
  {| status := Glp.GLP_OPT;
     vars := {[ "x0" := Rounded.to_binary64 (1 # 10);
                "x1" := Rounded.to_binary64 (2 # 10);
                "x2" := Rounded.to_binary64 (1 # 1000) ]} |}.

(** The rational that the literal [0.001] stands for in binary64. *)
Definition binary64_epsilon : Q :=
  Eval vm_compute in
    match Rounded.to_binary64 (1 # 1000) with
    | Fin q => q
    | _ => 0%Q
    end.

(** A request and an answer in numbers that binary64 holds exactly: 769
    units of 1/1024 gram, made of 256, 512 and 1 of them. *)
Definition dyadic_params : CalculateMixParams :=
  {| targetN := Fin 10; targetP := Fin 10; targetK := Fin 10;
     totalWeight := Fin (769 # 1024); tolerance := Fin 5;
     increment := Fin (1 # 1024);
     availableFertilizers := [urea; bone_meal; potassium_chloride] |}.

Definition dyadic_result : SolveResult :=
  {| status := Glp.GLP_OPT;
     vars := {[ "x0" := Fin (256 # 1024); "x1" := Fin (512 # 1024);
                "x2" := Fin (1 # 1024) ]} |}.

(** * Properties *)

(** ** The numbers and the function on small inputs *)

Example zero_over_zero : (0 / 0)%js = NaN.
Proof. reflexivity. Qed.

Example nan_or_zero : or_else ((0 / 0) * 100)%js 0%js = 0%js.
Proof. reflexivity. Qed.

Example one_over_zero : (1 / 0)%js = PosInf.
Proof. reflexivity. Qed.

Example nan_is_not_below : (NaN <=? 0)%js = false.
Proof. reflexivity. Qed.

Example floor_of_half : floor (Fin (7 # 2)) = Fin 3.
Proof. reflexivity. Qed.

Example variable_name : "x" ++ string_of_index 12 = "x12".
Proof. reflexivity. Qed.

(** The blend of the sample request: 180 g of urea, 650 g of bone meal and
    170 g of potassium chloride, 1000 g in all, with 10.23 % N, 9.75 % P and
    10.2 % K. *)
Example sample_blend :
  calculateMix (inr (answering blend_result)) sample_params
  = ([CallGLPK; CallSolve sample_model], Resolved sample_success)
  /\ recipe sample_success
     = Some [ {| fertilizer := urea; amount := Fin 180 |};
              {| fertilizer := bone_meal; amount := Fin 650 |};
              {| fertilizer := potassium_chloride; amount := Fin 170 |} ]
  /\ actualWeight sample_success = Some (Fin 1000)
  /\ (reported Nitrogen sample_npk === Fin (1023 # 100))%js = true
  /\ (reported Phosphorus sample_npk === Fin (975 # 100))%js = true
  /\ (reported Potassium sample_npk === Fin (102 # 10))%js = true.
Proof. repeat split; vm_compute; reflexivity. Qed.

(** A total weight of zero, no fertilizer, and targets that no fertilizer
    of the request can meet. *)
Example weightless_request :
  calculateMix (inr (answering blend_result)) weightless_params
  = ([], Resolved (failure "Total weight and increment must be positive.")).
Proof. reflexivity. Qed.

Example no_fertilizer_left :
  calculateMix (inr (answering blend_result))
    {| targetN := Fin 0; targetP := Fin 0; targetK := Fin 0;
       totalWeight := Fin 1000; tolerance := Fin 5; increment := Fin 10;
       availableFertilizers := [urea; bone_meal; potassium_chloride] |}
  = ([], Resolved (failure "No fertilizers selected for mixing.")).
Proof. reflexivity. Qed.

Example unknown_status :
  snd (calculateMix (inr (answering {| status := 3; vars := ∅ |})) sample_params)
  = Resolved (failure "Solver finished with status: 3").
Proof. vm_compute. reflexivity. Qed.

Example solver_throws :
  snd (calculateMix (inr (throwing (OtherValue "out of memory"))) sample_params)
  = Resolved (failure "An unexpected error occurred during calculation: out of memory").
Proof. vm_compute. reflexivity. Qed.

(** ** Tactics for the numbers *)

Lemma Qle_bool_false (x y : Q) : Qle_bool x y = false -> (y < x)%Q.
Proof.
  intros H. apply Qnot_le_lt. intros Hle. apply Qle_bool_iff in Hle. congruence.
Qed.

Lemma Qeq_bool_false (x y : Q) : Qeq_bool x y = false -> ~ (x == y)%Q.
Proof. intros H Heq. apply Qeq_bool_iff in Heq. congruence. Qed.

#[global] Arguments gtb : simpl never.
#[global] Arguments ltb : simpl never.
#[global] Arguments leb : simpl never.
#[global] Arguments eqb : simpl never.

Ltac q_props :=
  repeat match goal with
  | H : Qle_bool _ _ = true |- _ => apply Qle_bool_iff in H
  | H : Qle_bool _ _ = false |- _ => apply Qle_bool_false in H
  | H : Qeq_bool _ _ = true |- _ => apply Qeq_bool_iff in H
  | H : Qeq_bool _ _ = false |- _ => apply Qeq_bool_false in H
  | H : (_ ?= _)%Q = Eq |- _ => apply Qeq_alt in H
  | H : (_ ?= _)%Q = Lt |- _ => apply Qlt_alt in H
  | H : (_ ?= _)%Q = Gt |- _ => apply Qgt_alt in H
  end.

(* case analysis on every Q test in the goal and hypotheses *)
Ltac q_case_hyp H t :=
  lazymatch type of H with
  | t = _ => fail
  | _ => destruct t eqn:?
  end.

Ltac q_cases :=
  repeat match goal with
  | |- context [Qle_bool ?x ?y] => destruct (Qle_bool x y) eqn:?
  | |- context [Qeq_bool ?x ?y] => destruct (Qeq_bool x y) eqn:?
  | |- context [(?x ?= ?y)%Q] => destruct (x ?= y)%Q eqn:?
  | H : context [Qle_bool ?x ?y] |- _ => q_case_hyp H (Qle_bool x y)
  | H : context [Qeq_bool ?x ?y] |- _ => q_case_hyp H (Qeq_bool x y)
  | H : context [(?x ?= ?y)%Q] |- _ => q_case_hyp H (x ?= y)%Q
  end.

Ltac js_solve :=
  intros;
  unfold leb, gtb, ltb, eqb, truthy, or_else, is_nan, epsilon in *;
  simpl in *; repeat (progress (q_cases; simpl in *)); q_props;
  try discriminate; try congruence; try reflexivity; try lra; try nra.


Lemma leb_not_gtb (a b : number) : (a <=? b)%js = true -> (a >? b)%js = false.
Proof. destruct a, b; js_solve. Qed.

Lemma gtb_epsilon_truthy (a : number) : (a >? epsilon)%js = true -> truthy a = true.
Proof. destruct a; js_solve. Qed.

(** ** The rows of the model *)

Lemma declare_fertilizer_subjectTo tw inc M f index st :
  LP.subjectTo (lp (declare_fertilizer tw inc M f index st))
  = (LP.subjectTo (lp st) ++ rows_of_index inc M index)%list.
Proof.
  unfold declare_fertilizer, rows_of_index. simpl.
  rewrite <- !app_assoc. reflexivity.
Qed.

Lemma forEach_from_declare_rows tw inc M (l : list Fertilizer.t) :
  forall index st r,
    In r (LP.subjectTo (lp (forEach_from (declare_fertilizer tw inc M) index l st)))
    <-> In r (LP.subjectTo (lp st))
        \/ exists j f, l !! j = Some f /\ In r (rows_of_index inc M (index + j)).
Proof.
  induction l as [|f l IH]; intros index st r; simpl.
  - split; [auto|]. intros [H|(j & f & H & _)]; [assumption|discriminate].
  - rewrite IH, declare_fertilizer_subjectTo, in_app_iff. split.
    + intros [[H|H]|(j & g & Hj & H)].
      * auto.
      * right. exists 0%nat, f. rewrite Nat.add_0_r. auto.
      * right. exists (S j), g. rewrite Nat.add_succ_r. auto.
    + intros [H|(j & g & Hj & H)]; [auto|].
      destruct j as [|j].
      * rewrite Nat.add_0_r in H. auto.
      * right. exists j, g. rewrite Nat.add_succ_r in H. auto.
Qed.

Lemma necessary_iff_emitted params fs nu :
  negb ((target nu params === 0)%js
        && forallb (fun f => (percentage nu f === 0)%js) fs)
  = spec_tolerance_row_emitted params fs nu.
Proof.
  unfold spec_tolerance_row_emitted.
  rewrite negb_andb. f_equal.
  induction fs as [|f fs IH]; simpl; [reflexivity|].
  rewrite negb_andb, IH. reflexivity.
Qed.

Lemma build_lp_rows params fs r :
  In r (LP.subjectTo (lp (build_lp params fs)))
  <-> (exists j f, fs !! j = Some f
         /\ In r (rows_of_index (increment params) (totalWeight params * 2)%js j))
      \/ r = total_weight_row params fs
      \/ exists nu, spec_tolerance_row_emitted params fs nu = true
                    /\ r = spec_tolerance_row params fs nu.
Proof.
  unfold build_lp. cbv zeta.
  pose proof (necessary_iff_emitted params fs Nitrogen) as HN.
  pose proof (necessary_iff_emitted params fs Phosphorus) as HP.
  pose proof (necessary_iff_emitted params fs Potassium) as HK.
  cbn [target percentage] in HN, HP, HK. rewrite HN, HP, HK. clear HN HP HK.
  set (st := forEach _ _ _).
  assert (Hst : forall r, In r (LP.subjectTo (lp st)) <->
            exists j f, fs !! j = Some f
              /\ In r (rows_of_index (increment params) (totalWeight params * 2)%js j)).
  { intros r'. unfold st, forEach. rewrite forEach_from_declare_rows. simpl.
    split; [intros [[]|H]; exact H | auto]. }
  fold (total_weight_row params fs).
  fold (spec_tolerance_row params fs Nitrogen).
  fold (spec_tolerance_row params fs Phosphorus).
  fold (spec_tolerance_row params fs Potassium).
  destruct (spec_tolerance_row_emitted params fs Nitrogen) eqn:EN,
           (spec_tolerance_row_emitted params fs Phosphorus) eqn:EP,
           (spec_tolerance_row_emitted params fs Potassium) eqn:EK;
    simpl; rewrite ?in_app_iff, Hst; simpl;
    (split;
     [ intros H; repeat destruct H as [H|H]; subst; eauto 6; try contradiction
     | intros [H|[H|(nu & Hnu & H)]]; subst; auto 8;
       destruct nu; try congruence; auto 8 ]).
Qed.

(** ** The model the solver is called with *)

Lemma calculateMix_model GLPK params model :
  In (CallSolve model) (fst (calculateMix GLPK params)) ->
  model = lp (build_lp params (survivors params))
  /\ survivors params <> []
  /\ (totalWeight params <=? 0)%js = false
  /\ (increment params <=? 0)%js = false.
Proof.
  unfold calculateMix. fold (survivors params).
  destruct (survivors params) as [|f fs] eqn:Hs; simpl; [tauto|].
  destruct (totalWeight params <=? 0)%js; simpl; [tauto|].
  destruct (increment params <=? 0)%js; simpl; [tauto|].
  destruct GLPK as [e|glpk]; simpl.
  - intros [H|[]]; discriminate.
  - destruct (solve glpk _); simpl.
    + intros [H|[H|[H|[]]]]; try discriminate.
      injection H as <-. repeat split; congruence.
    + intros [H|[H|[]]]; try discriminate.
      injection H as <-. repeat split; congruence.
Qed.

Lemma tolerance_row_name_inj nu nu' :
  tolerance_row_name nu = tolerance_row_name nu' -> nu = nu'.
Proof. destruct nu, nu'; simpl; intros H; congruence. Qed.

Lemma rows_of_index_not_tolerance inc M j r nu :
  In r (rows_of_index inc M j) -> Constraint.name r <> tolerance_row_name nu.
Proof.
  unfold rows_of_index. simpl.
  intros [<-|[<-|[<-|[]]]]; destruct nu; simpl; discriminate.
Qed.

Lemma existsb_nonzero nu (fs : list Fertilizer.t) :
  existsb (fun f => negb (percentage nu f === 0)%js) fs = true
  <-> exists f, In f fs /\ (percentage nu f === 0)%js = false.
Proof.
  rewrite existsb_exists. split; intros (f & Hf & H); exists f; split; auto.
  - now apply negb_true_iff.
  - now apply negb_true_iff.
Qed.

(** C5.  In every model handed to the solver and for each of the three
    nutrients, a row with the nutrient's tolerance name is present if and
    only if the target of the nutrient is nonzero or some surviving
    fertilizer has a nonzero percentage of it; and a row with that name is
    the double-bounded row of the specification: coefficients [pct_i / 100]
    on the amounts, between [target_amount * (1 - tol)] and
    [target_amount * (1 + tol)]. *)
Theorem tolerance_row_emitted_iff GLPK params model nu :
  In (CallSolve model) (fst (calculateMix GLPK params)) ->
  ((exists r, In r (LP.subjectTo model) /\ Constraint.name r = tolerance_row_name nu)
   <-> ((target nu params === 0)%js = false
        \/ exists f, In f (survivors params) /\ (percentage nu f === 0)%js = false))
  /\ (forall r, In r (LP.subjectTo model) ->
                Constraint.name r = tolerance_row_name nu ->
                r = spec_tolerance_row params (survivors params) nu).
Proof.
  intros Hm. apply calculateMix_model in Hm as (-> & _).
  assert (Hrow : forall r, In r (LP.subjectTo (lp (build_lp params (survivors params)))) ->
            Constraint.name r = tolerance_row_name nu ->
            spec_tolerance_row_emitted params (survivors params) nu = true
            /\ r = spec_tolerance_row params (survivors params) nu).
  { intros r Hr Hname. apply build_lp_rows in Hr as [(j & f & _ & Hr)|[->|(nu' & He & ->)]].
    - now apply rows_of_index_not_tolerance with (nu := nu) in Hr.
    - destruct nu; discriminate.
    - apply tolerance_row_name_inj in Hname as <-. auto. }
  split; [split|].
  - intros (r & Hr & Hname). destruct (Hrow r Hr Hname) as [He _].
    unfold spec_tolerance_row_emitted in He. apply orb_true_iff in He as [He|He].
    + left. now apply negb_true_iff.
    + right. now apply existsb_nonzero.
  - intros H. exists (spec_tolerance_row params (survivors params) nu). split; [|reflexivity].
    apply build_lp_rows. right. right. exists nu. split; [|reflexivity].
    unfold spec_tolerance_row_emitted. apply orb_true_iff.
    destruct H as [H|H]; [left; now apply negb_true_iff | right; now apply existsb_nonzero].
  - intros r Hr Hname. now apply Hrow.
Qed.

(** ** The two rows that link an amount and its indicator *)

Lemma named_usage_lower inc M j r s :
  In r (rows_of_index inc M j) ->
  Constraint.name r = "c_bigM_lower_" ++ s ->
  r = Constraint.mk ("c_bigM_lower_" ++ s)
             [Coef.mk ("x" ++ s) 1%js; Coef.mk ("y" ++ s) (- epsilon)%js]
             (Bnds.mk Glp.GLP_LO (Some 0%js) None).
Proof.
  unfold rows_of_index. simpl.
  intros [<-|[<-|[<-|[]]]]; simpl; intros H; try discriminate.
  apply String.app_inj in H. rewrite <- H. reflexivity.
Qed.

Lemma named_usage_upper inc M j r s :
  In r (rows_of_index inc M j) ->
  Constraint.name r = "c_bigM_upper_" ++ s ->
  r = Constraint.mk ("c_bigM_upper_" ++ s)
             [Coef.mk ("x" ++ s) 1%js; Coef.mk ("y" ++ s) (- M)%js]
             (Bnds.mk Glp.GLP_UP None (Some 0%js)).
Proof.
  unfold rows_of_index. simpl.
  intros [<-|[<-|[<-|[]]]]; simpl; intros H; try discriminate.
  apply String.app_inj in H. rewrite <- H. reflexivity.
Qed.

Lemma model_row_cases params r s :
  In r (LP.subjectTo (lp (build_lp params (survivors params)))) ->
  (Constraint.name r = "c_bigM_lower_" ++ s \/ Constraint.name r = "c_bigM_upper_" ++ s) ->
  exists j, In r (rows_of_index (increment params) (totalWeight params * 2)%js j).
Proof.
  intros Hr Hname.
  apply build_lp_rows in Hr as [(j & f & _ & Hr)|[->|(nu & _ & ->)]].
  - eauto.
  - destruct Hname; discriminate.
  - destruct nu, Hname; discriminate.
Qed.

Lemma usage_lower_sat (a : Assignment) s :
  is_binary (a ("y" ++ s)) = true ->
  satisfies a (Constraint.mk ("c_bigM_lower_" ++ s)
                 [Coef.mk ("x" ++ s) 1%js; Coef.mk ("y" ++ s) (- epsilon)%js]
                 (Bnds.mk Glp.GLP_LO (Some 0%js) None)) = true ->
  (a ("y" ++ s) === 1)%js = true ->
  (epsilon <=? a ("x" ++ s))%js = true.
Proof.
  unfold satisfies, row_value, is_binary. simpl.
  destruct (a ("x" ++ s)) as [| |x|], (a ("y" ++ s)) as [| |y|]; js_solve.
Qed.

Lemma usage_upper_sat (a : Assignment) s M :
  is_binary (a ("y" ++ s)) = true ->
  satisfies a (Constraint.mk ("c_bigM_upper_" ++ s)
                 [Coef.mk ("x" ++ s) 1%js; Coef.mk ("y" ++ s) (- M)%js]
                 (Bnds.mk Glp.GLP_UP None (Some 0%js))) = true ->
  (a ("x" ++ s) >? 0)%js = true ->
  (a ("y" ++ s) === 1)%js = true.
Proof.
  unfold satisfies, row_value, is_binary. simpl.
  destruct (a ("x" ++ s)) as [| |x|], (a ("y" ++ s)) as [| |y|], M as [| |m|];
    js_solve.
Qed.

Lemma usage_lower_unused (a : Assignment) index :
  (a ("y" ++ string_of_index index) === 0)%js = true ->
  satisfies a (usage_lower_row index)
  = (0 <=? a ("x" ++ string_of_index index))%js.
Proof.
  unfold satisfies, row_value, usage_lower_row. simpl.
  destruct (a ("x" ++ string_of_index index)) as [| |x|],
           (a ("y" ++ string_of_index index)) as [| |y|];
    try discriminate; try reflexivity; intros Hy;
    unfold leb, ltb, eqb, epsilon; cbn [add mul neg sign sign_mul inf_of_sign];
    try reflexivity.
  apply Qeq_bool_iff in Hy.
  assert (E : (0 + 1 * x + - (1 # 1000) * y == x)%Q) by (rewrite Hy; ring).
  apply eq_true_iff_eq. rewrite !orb_true_iff, !negb_true_iff.
  rewrite <- !not_true_iff_false, !Qle_bool_iff, !Qeq_bool_iff, E. reflexivity.
Qed.

Lemma above_epsilon_positive (x : number) :
  (x >? epsilon)%js = true -> (x >? 0)%js = true.
Proof. destruct x; js_solve. Qed.

Lemma usage_rows_in_model params index f :
  survivors params !! index = Some f ->
  In (usage_lower_row index)
     (LP.subjectTo (lp (build_lp params (survivors params))))
  /\ In (usage_upper_row (totalWeight params * 2)%js index)
        (LP.subjectTo (lp (build_lp params (survivors params)))).
Proof.
  intros Hf. split; apply build_lp_rows; left; exists index, f;
    (split; [exact Hf|]); unfold rows_of_index, usage_lower_row, usage_upper_row.
  - do 2 right. left. reflexivity.
  - right. left. reflexivity.
Qed.

(** C1, as amended.  Every model handed to the solver holds, for the index
    of every surviving fertilizer, the Usage-lower row
    [amount_i - epsilon * used_i >= 0] and the Usage-upper row
    [amount_i - M * used_i <= 0], and no other row of either name.  An
    assignment that satisfies the Usage-lower row with [used_i = 1] has
    [amount_i >= epsilon]; with [used_i = 0] the Usage-lower row is
    satisfied exactly when [amount_i >= 0], so that it forces the
    indicator for no amount.  An assignment with [used_i] in {0, 1} that
    satisfies the Usage-upper row and has [amount_i > 0], so also one
    that has [amount_i > epsilon], has [used_i = 1]: it is the upper row,
    not the lower one, that forces the indicator. *)
Theorem usage_rows_link_amount_and_used GLPK params model index f (a : Assignment) :
  In (CallSolve model) (fst (calculateMix GLPK params)) ->
  survivors params !! index = Some f ->
  exists M,
    let lower := usage_lower_row index in
    let upper := usage_upper_row M index in
    let amount_i := a ("x" ++ string_of_index index) in
    let used_i := a ("y" ++ string_of_index index) in
    (In lower (LP.subjectTo model) /\ In upper (LP.subjectTo model))
    /\ (forall r, In r (LP.subjectTo model) ->
          (Constraint.name r = Constraint.name lower -> r = lower)
          /\ (Constraint.name r = Constraint.name upper -> r = upper))
    /\ (satisfies a lower = true -> (used_i === 1)%js = true ->
        (epsilon <=? amount_i)%js = true)
    /\ ((used_i === 0)%js = true -> satisfies a lower = (0 <=? amount_i)%js)
    /\ (is_binary used_i = true -> satisfies a upper = true ->
        (amount_i >? 0)%js = true -> (used_i === 1)%js = true)
    /\ (is_binary used_i = true -> satisfies a upper = true ->
        (amount_i >? epsilon)%js = true -> (used_i === 1)%js = true).
Proof.
  intros Hm Hf. apply calculateMix_model in Hm as (-> & _).
  exists (totalWeight params * 2)%js. cbv zeta.
  split; [exact (usage_rows_in_model params index f Hf)|].
  split.
  { intros r Hr. split; intros Hname.
    - destruct (model_row_cases params r _ Hr (or_introl Hname)) as [j Hj].
      exact (named_usage_lower _ _ _ _ _ Hj Hname).
    - destruct (model_row_cases params r _ Hr (or_intror Hname)) as [j Hj].
      exact (named_usage_upper _ _ _ _ _ Hj Hname). }
  split.
  { intros Hsat Hone. apply usage_lower_sat; [|exact Hsat|exact Hone].
    unfold is_binary. rewrite Hone. apply orb_true_r. }
  split; [apply usage_lower_unused|].
  split; intros Hbin Hsat Hpos.
  - now apply usage_upper_sat with (M := (totalWeight params * 2)%js).
  - apply usage_upper_sat with (M := (totalWeight params * 2)%js);
      [exact Hbin | exact Hsat | now apply above_epsilon_positive].
Qed.

(** ** The recipe and the totals the second loop collects *)

Lemma collect_cases result f index acc :
  (exists x_val,
      vars result !! ("x" ++ string_of_index index) = Some x_val
      /\ (x_val >? epsilon)%js = true
      /\ collect result f index acc
         = Totals.mk
             (Totals.recipe acc ++ [{| fertilizer := f; amount := x_val |}])
             (Totals.actualN acc + (x_val * Fertilizer.n f / 100))%js
             (Totals.actualP acc + (x_val * Fertilizer.p f / 100))%js
             (Totals.actualK acc + (x_val * Fertilizer.k f / 100))%js
             (Totals.actualWeight acc + x_val)%js)
  \/ ((forall x_val, vars result !! ("x" ++ string_of_index index) = Some x_val ->
                     (x_val >? epsilon)%js = false)
      /\ collect result f index acc = acc).
Proof.
  unfold collect.
  destruct (vars result !! ("x" ++ string_of_index index)) as [x_val|] eqn:Hx.
  - destruct (x_val >? epsilon)%js eqn:Hgt.
    + left. exists x_val. rewrite (gtb_epsilon_truthy _ Hgt). auto.
    + right. rewrite andb_false_r. split; [|reflexivity].
      intros ? [= <-]. assumption.
  - right. split; [discriminate | reflexivity].
Qed.

Lemma collect_totals result f index acc :
  totals_of_recipe acc -> totals_of_recipe (collect result f index acc).
Proof.
  intros (HN & HP & HK & HW).
  destruct (collect_cases result f index acc) as [(x & _ & _ & ->)|[_ ->]].
  - unfold totals_of_recipe, nutrient_total, total_weight. simpl.
    rewrite !fold_left_app. simpl.
    rewrite HN, HP, HK, HW. auto.
  - repeat split; assumption.
Qed.

Lemma forEach_from_collect_totals result (l : list Fertilizer.t) :
  forall index acc,
    totals_of_recipe acc ->
    totals_of_recipe (forEach_from (collect result) index l acc).
Proof.
  induction l as [|f l IH]; intros index acc H; simpl; [assumption|].
  apply IH, collect_totals, H.
Qed.

Lemma forEach_from_collect_recipe result (l : list Fertilizer.t) :
  forall index acc item,
    In item (Totals.recipe (forEach_from (collect result) index l acc))
    <-> In item (Totals.recipe acc)
        \/ exists j, l !! j = Some (fertilizer item)
             /\ vars result !! ("x" ++ string_of_index (index + j)) = Some (amount item)
             /\ (amount item >? epsilon)%js = true.
Proof.
  induction l as [|f l IH]; intros index acc item; simpl.
  - split; [auto|]. intros [H|(j & H & _)]; [assumption|discriminate].
  - rewrite IH. split.
    + intros [H|(j & Hj & Hx & Hgt)].
      * destruct (collect_cases result f index acc) as [(x & Hx & Hgt & Heq)|[_ Heq]];
          rewrite Heq in H; simpl in H; [|auto].
        apply in_app_iff in H as [H|[<-|[]]]; [auto|].
        right. exists 0%nat. rewrite Nat.add_0_r. auto.
      * right. exists (S j). rewrite Nat.add_succ_r. auto.
    + intros [H|(j & Hj & Hx & Hgt)].
      * left. destruct (collect_cases result f index acc) as [(x & _ & _ & ->)|[_ ->]];
          simpl; [apply in_app_iff|]; auto.
      * destruct j as [|j]; simpl in Hj.
        -- left. rewrite Nat.add_0_r in Hx. injection Hj as ->.
           destruct (collect_cases result (fertilizer item) index acc)
             as [(x & Hx' & _ & ->)|[Hno _]].
           ++ simpl. apply in_app_iff. right. left.
              rewrite Hx in Hx'. injection Hx' as <-. now destruct item.
           ++ rewrite (Hno _ Hx) in Hgt. discriminate.
        -- right. exists j. rewrite Nat.add_succ_r in Hx. auto.
Qed.

Lemma filter_all_true {A} (p : A -> bool) (l : list A) :
  (forall x, In x l -> p x = true) -> List.filter p l = l.
Proof.
  induction l as [|x l IH]; intros H; simpl; [reflexivity|].
  rewrite (H x (or_introl eq_refl)), IH; [reflexivity|].
  intros y Hy. apply H. now right.
Qed.

Lemma collected_recipe params result item :
  In item (Totals.recipe (collected params result))
  <-> exists index, survivors params !! index = Some (fertilizer item)
        /\ vars result !! ("x" ++ string_of_index index) = Some (amount item)
        /\ (amount item >? epsilon)%js = true.
Proof.
  unfold collected, forEach. rewrite forEach_from_collect_recipe. simpl.
  split; [intros [[]|H]; exact H | auto].
Qed.

Lemma collected_totals params result :
  totals_of_recipe (collected params result).
Proof.
  apply forEach_from_collect_totals. repeat split.
Qed.

Lemma final_recipe_is_recipe params result :
  List.filter (fun item => (amount item >? epsilon)%js)
              (Totals.recipe (collected params result))
  = Totals.recipe (collected params result).
Proof.
  apply filter_all_true. intros item H.
  apply collected_recipe in H as (_ & _ & _ & H). exact H.
Qed.

(** ** The ways a call can end *)

Lemma interpret_cases params result :
  ((status result = Glp.GLP_OPT \/ status result = Glp.GLP_FEAS)
   /\ interpret (survivors params) result = success_of (collected params result))
  \/ (status result <> Glp.GLP_OPT /\ status result <> Glp.GLP_FEAS
      /\ exists message, interpret (survivors params) result = failure message).
Proof.
  unfold interpret.
  destruct (status result =? Glp.GLP_OPT)%Z eqn:Ho;
    [|destruct (status result =? Glp.GLP_FEAS)%Z eqn:Hf]; simpl.
  - left. apply Z.eqb_eq in Ho. split; [auto|].
    fold (collected params result). rewrite final_recipe_is_recipe. reflexivity.
  - left. apply Z.eqb_eq in Hf. split; [auto|].
    fold (collected params result). rewrite final_recipe_is_recipe. reflexivity.
  - right. apply Z.eqb_neq in Ho, Hf. repeat split; [assumption..|].
    eexists. reflexivity.
Qed.

Lemma calculateMix_cases GLPK params :
  (exists message, calculateMix GLPK params = ([], Resolved (failure message))
     /\ (survivors params = []
         \/ (totalWeight params <=? 0)%js = true
         \/ (increment params <=? 0)%js = true))
  \/ (survivors params <> []
      /\ (totalWeight params <=? 0)%js = false
      /\ (increment params <=? 0)%js = false
      /\ ((exists err, GLPK = inl err
             /\ calculateMix GLPK params = ([CallGLPK], Rejected err))
          \/ (exists glpk,
                GLPK = inr glpk
                /\ let model := lp (build_lp params (survivors params)) in
                   (exists err, solve glpk model = inl err
                      /\ calculateMix GLPK params
                         = ([CallGLPK; CallSolve model; ConsoleError err],
                            Resolved
                              (failure
                                 ("An unexpected error occurred during calculation: "
                                  ++ cause err))))
                   \/ (exists result, solve glpk model = inr result
                         /\ calculateMix GLPK params
                            = ([CallGLPK; CallSolve model],
                               Resolved (interpret (survivors params) result)))))).
Proof.
  unfold calculateMix. fold (survivors params).
  destruct (survivors params) as [|f fs] eqn:Hs; simpl.
  { left. eexists. split; [reflexivity|auto]. }
  destruct (totalWeight params <=? 0)%js eqn:Hw; simpl.
  { left. eexists. split; [reflexivity|auto]. }
  destruct (increment params <=? 0)%js eqn:Hi; simpl.
  { left. eexists. split; [reflexivity|auto]. }
  right. repeat split; [discriminate|].
  destruct GLPK as [err|glpk]; [left; eauto|].
  right. exists glpk. split; [reflexivity|]. simpl.
  destruct (solve glpk _) as [err|result] eqn:Hsolve; [left|right]; eauto.
Qed.

Lemma calculateMix_success GLPK params res r :
  snd (calculateMix GLPK params) = Resolved res ->
  recipe res = Some r ->
  exists glpk result,
    GLPK = inr glpk
    /\ solve glpk (lp (build_lp params (survivors params))) = inr result
    /\ (status result = Glp.GLP_OPT \/ status result = Glp.GLP_FEAS)
    /\ res = success_of (collected params result).
Proof.
  intros Hres Hr.
  destruct (calculateMix_cases GLPK params)
    as [(m & Heq & _)|(_ & _ & _ & [(err & _ & Heq)|(glpk & -> & Hsolve)])].
  - rewrite Heq in Hres. injection Hres as <-. discriminate.
  - rewrite Heq in Hres. discriminate.
  - simpl in Hsolve. destruct Hsolve as [(err & _ & Heq)|(result & Hsolve & Heq)];
      rewrite Heq in Hres; injection Hres as <-; [discriminate|].
    destruct (interpret_cases params result) as [[Hst Hi]|(_ & _ & m & Hi)];
      rewrite Hi in Hr |- *; [|discriminate].
    eauto 6.
Qed.

(** *** Numbers: the facts the interpreter needs *)

Lemma add_positive (w x : number) :
  (w === 0)%js = true \/ (w >? 0)%js = true ->
  (x >? epsilon)%js = true ->
  (w + x >? 0)%js = true.
Proof. intros [H|H]; destruct w, x; js_solve. Qed.

Lemma positive_not_zero (w : number) : (w >? 0)%js = true -> (w === 0)%js = false.
Proof. destruct w; js_solve. Qed.



Lemma final_percentage_of_nothing :
  final_percentage 0%js 0%js = 0%js.
Proof. reflexivity. Qed.

(** *** The weight of a recipe *)

Lemma fold_weight_positive (l : list RecipeIngredient) :
  forall w,
    (w >? 0)%js = true ->
    (forall item, In item l -> (amount item >? epsilon)%js = true) ->
    (fold_left (fun s item => (s + amount item)%js) l w >? 0)%js = true.
Proof.
  induction l as [|item l IH]; intros w Hw Hl; cbn [fold_left]; [assumption|].
  apply IH.
  - apply add_positive; [auto | apply Hl; now left].
  - intros i Hi. apply Hl. now right.
Qed.

Lemma total_weight_zero (r : list RecipeIngredient) :
  (forall item, In item r -> (amount item >? epsilon)%js = true) ->
  (total_weight r === 0)%js = true ->
  r = [].
Proof.
  intros Hr Hz. destruct r as [|item l]; [reflexivity|].
  unfold total_weight in Hz. cbn [fold_left] in Hz.
  rewrite positive_not_zero in Hz; [discriminate|].
  apply fold_weight_positive.
  - apply add_positive; [left; reflexivity | apply Hr; now left].
  - intros i Hi. apply Hr. now right.
Qed.

(** *** The quotient of finite totals *)


(** *** Nothing above the threshold *)

Lemma forEach_from_collect_none result (l : list Fertilizer.t) :
  forall index acc,
    (forall j x, (j < length l)%nat ->
                 vars result !! ("x" ++ string_of_index (index + j)) = Some x ->
                 (x >? epsilon)%js = false) ->
    forEach_from (collect result) index l acc = acc.
Proof.
  induction l as [|f l IH]; intros index acc H; simpl; [reflexivity|].
  destruct (collect_cases result f index acc) as [(x & Hx & Hgt & _)|[_ ->]].
  - rewrite <- (Nat.add_0_r index) in Hx.
    rewrite (H 0%nat x) in Hgt; [discriminate | simpl; lia | exact Hx].
  - apply IH. intros j x Hj Hx. apply (H (S j)); [simpl; lia|].
    now rewrite Nat.add_succ_r.
Qed.

(** ** The filter *)

Lemma zero_target_filter_true params f :
  zero_target_filter params f = true
  <-> forall nu, (target nu params === 0)%js = true ->
                 (percentage nu f >? 0)%js = false.
Proof.
  unfold zero_target_filter. split.
  - intros H nu Hnu. destruct nu; simpl in *; rewrite Hnu in H; simpl in H.
    + destruct (Fertilizer.n f >? 0)%js; [discriminate|reflexivity].
    + destruct ((targetN params === 0)%js && (Fertilizer.n f >? 0)%js); [discriminate|].
      destruct (Fertilizer.p f >? 0)%js; [discriminate|reflexivity].
    + destruct ((targetN params === 0)%js && (Fertilizer.n f >? 0)%js); [discriminate|].
      destruct ((targetP params === 0)%js && (Fertilizer.p f >? 0)%js); [discriminate|].
      destruct (Fertilizer.k f >? 0)%js; [discriminate|reflexivity].
  - intros H.
    assert (HN : (targetN params === 0)%js && (Fertilizer.n f >? 0)%js = false).
    { destruct (targetN params === 0)%js eqn:E; [|reflexivity]. exact (H Nitrogen E). }
    assert (HP : (targetP params === 0)%js && (Fertilizer.p f >? 0)%js = false).
    { destruct (targetP params === 0)%js eqn:E; [|reflexivity]. exact (H Phosphorus E). }
    assert (HK : (targetK params === 0)%js && (Fertilizer.k f >? 0)%js = false).
    { destruct (targetK params === 0)%js eqn:E; [|reflexivity]. exact (H Potassium E). }
    rewrite HN, HP, HK. reflexivity.
Qed.

Lemma nonnegative_not_positive (a : number) :
  (0 <=? a)%js = true -> ((a >? 0)%js = false <-> (a === 0)%js = true).
Proof. destruct a; js_solve; split; js_solve. Qed.

(** C4, as amended.  The filter keeps exactly the fertilizers of the
    request that, for each nutrient whose target is exactly zero, have a
    percentage of that nutrient that is not greater than zero; for a
    fertilizer whose percentages are all at least zero that is: a
    percentage that is zero. *)
Theorem zero_target_filter_spec params f :
  (In f (List.filter (zero_target_filter params) (availableFertilizers params))
   <-> In f (availableFertilizers params)
       /\ forall nu, (target nu params === 0)%js = true ->
                     (percentage nu f >? 0)%js = false)
  /\ ((forall nu, (0 <=? percentage nu f)%js = true) ->
      (In f (List.filter (zero_target_filter params) (availableFertilizers params))
       <-> In f (availableFertilizers params)
           /\ forall nu, (target nu params === 0)%js = true ->
                         (percentage nu f === 0)%js = true)).
Proof.
  assert (H : In f (List.filter (zero_target_filter params) (availableFertilizers params))
              <-> In f (availableFertilizers params)
                  /\ forall nu, (target nu params === 0)%js = true ->
                                (percentage nu f >? 0)%js = false).
  { rewrite filter_In, zero_target_filter_true. reflexivity. }
  split; [exact H|].
  intros Hpos. rewrite H. split; intros [Hin Hz]; (split; [exact Hin|]);
    intros nu Hnu; apply (nonnegative_not_positive _ (Hpos nu)); auto.
Qed.

(** ** The checks, the trivial solution, the percentages, the recipe *)

(** C3, as amended.  When some fertilizer passes the filter and the total
    weight or the increment is at most zero, the call resolves to the
    failure that says weight and increment must be positive, and does
    nothing to the outside: the solver is neither loaded nor called. *)
Theorem invalid_parameters_after_filter GLPK params :
  List.filter (zero_target_filter params) (availableFertilizers params) <> [] ->
  (totalWeight params <=? 0)%js = true \/ (increment params <=? 0)%js = true ->
  calculateMix GLPK params
  = ([], Resolved (failure "Total weight and increment must be positive.")).
Proof.
  intros Hs Hbad. unfold calculateMix.
  destruct (List.filter _ _) as [|f fs]; [congruence|]. simpl.
  destruct Hbad as [-> | ->]; [reflexivity|].
  now rewrite orb_true_r.
Qed.

(** C6.  When the request passes the checks and the solver answers with
    status optimal or feasible and every amount it reports for a surviving
    fertilizer is at most epsilon, the call resolves to a success with an
    empty recipe and no error (and zero percentages and weight). *)
Theorem trivial_solution_is_success glpk params result :
  List.filter (zero_target_filter params) (availableFertilizers params) <> [] ->
  (totalWeight params <=? 0)%js = false ->
  (increment params <=? 0)%js = false ->
  solve glpk (lp (build_lp params
                    (List.filter (zero_target_filter params)
                                 (availableFertilizers params)))) = inr result ->
  status result = Glp.GLP_OPT \/ status result = Glp.GLP_FEAS ->
  (forall index x,
      (index < length (List.filter (zero_target_filter params)
                                   (availableFertilizers params)))%nat ->
      vars result !! ("x" ++ string_of_index index) = Some x ->
      (x <=? epsilon)%js = true) ->
  snd (calculateMix (inr glpk) params)
  = Resolved {| recipe := Some [];
                error := None;
                actualNPK := Some (NPK.mk 0%js 0%js 0%js);
                actualWeight := Some 0%js |}.
Proof.
  intros Hs Hw Hi Hsolve Hst Hsmall. fold (survivors params) in *.
  destruct (calculateMix_cases (inr glpk) params)
    as [(m & _ & [H|[H|H]])|(_ & _ & _ & [(err & H & _)|(g & Hg & Hcase)])];
    try congruence.
  injection Hg as <-. cbv zeta in Hcase. rewrite Hsolve in Hcase.
  destruct Hcase as [(err & H & _)|(r & Hr & ->)]; [discriminate|].
  injection Hr as <-. cbn [snd].
  destruct (interpret_cases params result) as [[_ ->]|(Ho & Hf & _)]; [|tauto].
  unfold collected, forEach.
  rewrite forEach_from_collect_none; [reflexivity|].
  intros j x Hj Hx. apply leb_not_gtb. eapply Hsmall; [exact Hj | exact Hx].
Qed.



(** C9.  Whatever the solver does, the fertilizer of every entry of a
    returned recipe is an element of the filtered list, so it passed the
    zero-target filter. *)
Theorem recipe_within_filtered GLPK params res r item :
  snd (calculateMix GLPK params) = Resolved res ->
  recipe res = Some r ->
  In item r ->
  In (fertilizer item)
     (List.filter (zero_target_filter params) (availableFertilizers params))
  /\ zero_target_filter params (fertilizer item) = true.
Proof.
  intros Hres Hr Hitem. fold (survivors params).
  destruct (calculateMix_success _ _ _ _ Hres Hr) as (glpk & result & -> & _ & _ & ->).
  injection Hr as <-.
  apply collected_recipe in Hitem as (index & Hidx & _).
  assert (Hin : In (fertilizer item) (survivors params)).
  { apply list_elem_of_In. eapply list_elem_of_lookup_2. exact Hidx. }
  split; [exact Hin|]. apply filter_In in Hin. tauto.
Qed.

(** ** Throws *)

(** A throw of [solve] is caught and reported with its cause, and with a
    solver in hand the promise always resolves: it is rejected exactly
    when loading the solver throws. *)
Lemma solve_throw_is_reported glpk params err :
  List.filter (zero_target_filter params) (availableFertilizers params) <> [] ->
  (totalWeight params <=? 0)%js = false ->
  (increment params <=? 0)%js = false ->
  solve glpk (lp (build_lp params
                    (List.filter (zero_target_filter params)
                                 (availableFertilizers params)))) = inl err ->
  snd (calculateMix (inr glpk) params)
  = Resolved (failure ("An unexpected error occurred during calculation: "
                       ++ cause err)).
Proof.
  intros Hs Hw Hi Hsolve. fold (survivors params) in *.
  destruct (calculateMix_cases (inr glpk) params)
    as [(m & _ & [H|[H|H]])|(_ & _ & _ & [(e & H & _)|(g & Hg & Hcase)])];
    try congruence.
  injection Hg as <-. cbv zeta in Hcase. rewrite Hsolve in Hcase.
  destruct Hcase as [(e & He & ->)|(r & Hr & _)]; [|discriminate].
  injection He as <-. reflexivity.
Qed.

Lemma calculateMix_resolves_with_solver glpk params :
  exists res, snd (calculateMix (inr glpk) params) = Resolved res.
Proof.
  destruct (calculateMix_cases (inr glpk) params)
    as [(m & -> & _)|(_ & _ & _ & [(err & H & _)|(g & _ & Hcase)])];
    [eauto | discriminate |].
  cbv zeta in Hcase. destruct Hcase as [(err & _ & ->)|(r & _ & ->)]; eauto.
Qed.

Lemma calculateMix_rejects_iff GLPK params err :
  snd (calculateMix GLPK params) = Rejected err
  <-> GLPK = inl err
      /\ List.filter (zero_target_filter params) (availableFertilizers params) <> []
      /\ (totalWeight params <=? 0)%js = false
      /\ (increment params <=? 0)%js = false.
Proof.
  destruct (calculateMix_cases GLPK params)
    as [(m & Heq & Hbad)|(Hs & Hw & Hi & [(e & -> & Heq)|(g & -> & Hcase)])].
  - rewrite Heq. simpl. split; [discriminate|].
    intros (_ & Hs & Hw & Hi). fold (survivors params) in Hs.
    destruct Hbad as [H|[H|H]]; congruence.
  - rewrite Heq. simpl. split.
    + intros [= ->]. auto.
    + intros ([= ->] & _). reflexivity.
  - cbv zeta in Hcase. destruct Hcase as [(e & _ & ->)|(r & _ & ->)]; simpl;
      (split; [discriminate | intros ([=] & _)]).
Qed.

(** ** The function on the heap *)

Section HeapRuns.

Import OnHeap HeapMix.
Local Close Scope string_scope.

(** *** Running the primitives *)

Lemma bind_run {A B : Type} (m : M A) (k : A -> M B) (h h' : heap) (a : A) :
  m h = Some (a, h') -> bind m k h = k a h'.
Proof. unfold bind. now intros ->. Qed.

Lemma load_run (h : heap) (l : loc) (o : object) :
  h !! l = Some o -> load l h = Some (o, h).
Proof. unfold load. now intros ->. Qed.

Lemma store_run (h : heap) (l : loc) (o o' : object) :
  h !! l = Some o' -> store l o h = Some (tt, <[l := o]> h).
Proof. unfold store. now intros ->. Qed.

Lemma fresh_unused (h : heap) : h !! fresh (dom h) = None.
Proof. apply not_elem_of_dom, is_fresh. Qed.

Lemma load_array_run (h : heap) (l : loc) (elems : list loc) :
  h !! l = Some (ArrayObj elems) -> load_array l h = Some (elems, h).
Proof. intros H. unfold load_array. now rewrite (bind_run _ _ _ _ _ (load_run _ _ _ H)). Qed.

Lemma load_map_run (h : heap) (l : loc) (entries : gmap string loc) :
  h !! l = Some (MapObj entries) -> load_map l h = Some (entries, h).
Proof. intros H. unfold load_map. now rewrite (bind_run _ _ _ _ _ (load_run _ _ _ H)). Qed.

Lemma load_item_run (h : heap) (l f : loc) (x : number) :
  h !! l = Some (RecipeIngredientObj f x) -> load_item l h = Some ((f, x), h).
Proof. intros H. unfold load_item. now rewrite (bind_run _ _ _ _ _ (load_run _ _ _ H)). Qed.

Lemma read_fertilizer_Some (h : heap) (l : loc) (f : Fertilizer.t) :
  read_fertilizer h l = Some f <-> h !! l = Some (FertilizerObj f).
Proof.
  unfold read_fertilizer. destruct (h !! l) as [[]|]; split; congruence.
Qed.

Lemma load_fertilizer_run (h : heap) (l : loc) (f : Fertilizer.t) :
  read_fertilizer h l = Some f -> load_fertilizer l h = Some (f, h).
Proof.
  intros H%read_fertilizer_Some. unfold load_fertilizer.
  now rewrite (bind_run _ _ _ _ _ (load_run _ _ _ H)).
Qed.

Lemma read_item_Some (h : heap) (l : loc) (item : RecipeIngredient) :
  read_item h l = Some item
  <-> exists f, h !! l = Some (RecipeIngredientObj f (amount item))
                /\ h !! f = Some (FertilizerObj (fertilizer item)).
Proof.
  unfold read_item. split.
  - destruct (h !! l) as [[| | | |f x]|]; try discriminate.
    destruct (read_fertilizer h f) as [fv|] eqn:Hf; [|discriminate].
    intros [= <-]. exists f. now apply read_fertilizer_Some in Hf.
  - intros (f & -> & Hf%read_fertilizer_Some). rewrite Hf. now destruct item.
Qed.

(** *** Reading lists of references *)

Lemma read_all_app {A : Type} (read : loc -> option A) (ls ls' : list loc)
    (vs vs' : list A) :
  read_all read ls = Some vs -> read_all read ls' = Some vs' ->
  read_all read (ls ++ ls') = Some (vs ++ vs').
Proof.
  revert vs. induction ls as [|l ls IH]; intros vs; simpl.
  - now intros [= <-].
  - destruct (read l) as [a|]; [|discriminate].
    destruct (read_all read ls) as [rest|]; [|discriminate].
    intros [= <-] H. now rewrite (IH rest eq_refl H).
Qed.

Lemma read_all_weaken {A : Type} (read read' : loc -> option A) (ls : list loc)
    (vs : list A) :
  (forall l v, read l = Some v -> read' l = Some v) ->
  read_all read ls = Some vs -> read_all read' ls = Some vs.
Proof.
  intros Hw. revert vs. induction ls as [|l ls IH]; intros vs; simpl; [auto|].
  destruct (read l) as [a|] eqn:Ha; [|discriminate].
  destruct (read_all read ls) as [rest|]; [|discriminate].
  intros [= <-]. now rewrite (Hw _ _ Ha), (IH rest eq_refl).
Qed.

Lemma read_all_length {A : Type} (read : loc -> option A) (ls : list loc)
    (vs : list A) :
  read_all read ls = Some vs -> length ls = length vs.
Proof.
  revert vs. induction ls as [|l ls IH]; intros vs; simpl.
  - now intros [= <-].
  - destruct (read l) as [a|]; [|discriminate].
    destruct (read_all read ls) as [rest|]; [|discriminate].
    intros [= <-]. simpl. now rewrite (IH rest eq_refl).
Qed.

Lemma read_fertilizer_weaken (h h' : heap) (l : loc) (f : Fertilizer.t) :
  h ⊆ h' -> read_fertilizer h l = Some f -> read_fertilizer h' l = Some f.
Proof.
  intros Hsub H%read_fertilizer_Some. apply read_fertilizer_Some.
  eapply lookup_weaken; eassumption.
Qed.

Lemma mapM_load_fertilizer (h : heap) (ls : list loc) (vs : list Fertilizer.t) :
  read_all (read_fertilizer h) ls = Some vs ->
  mapM load_fertilizer ls h = Some (vs, h).
Proof.
  revert vs. induction ls as [|l ls IH]; intros vs; simpl.
  - now intros [= <-].
  - destruct (read_fertilizer h l) as [f|] eqn:Hf; [|discriminate].
    destruct (read_all (read_fertilizer h) ls) as [rest|]; [|discriminate].
    intros [= <-].
    rewrite (bind_run _ _ _ _ _ (load_fertilizer_run _ _ _ Hf)).
    now rewrite (bind_run _ _ _ _ _ (IH rest eq_refl)).
Qed.

Lemma filterM_read {A : Type} (read : loc -> option A) (p : loc -> M bool)
    (q : A -> bool) (h : heap) :
  (forall l v, read l = Some v -> p l h = Some (q v, h)) ->
  forall ls vs,
    read_all read ls = Some vs ->
    exists kept,
      filterM p ls h = Some (kept, h)
      /\ read_all read kept = Some (List.filter q vs).
Proof.
  intros Hp. induction ls as [|l ls IH]; intros vs; simpl.
  - intros [= <-]. now exists [].
  - destruct (read l) as [a|] eqn:Ha; [|discriminate].
    destruct (read_all read ls) as [rest|]; [|discriminate].
    intros [= <-]. destruct (IH rest eq_refl) as (kept & Hrun & Hkept).
    rewrite (bind_run _ _ _ _ _ (Hp _ _ Ha)), (bind_run _ _ _ _ _ Hrun).
    simpl. destruct (q a).
    + exists (l :: kept). split; [reflexivity|]. simpl. now rewrite Ha, Hkept.
    + now exists kept.
Qed.

(** *** The first loop: only the map is written *)

Lemma remember_run (fertilizerMap f : loc) (index : nat) (h : heap) entries :
  h !! fertilizerMap = Some (MapObj entries) ->
  remember fertilizerMap f index tt h
  = Some (tt, <[fertilizerMap :=
                  MapObj (<[("x" ++ string_of_index index)%string := f]> entries)]> h).
Proof.
  intros Hmap. unfold remember.
  rewrite (bind_run _ _ _ _ _ (load_map_run _ _ _ Hmap)).
  eapply store_run, Hmap.
Qed.

Lemma remember_loop (fertilizerMap : loc) (ls : list loc) :
  forall index (h : heap) entries,
    h !! fertilizerMap = Some (MapObj entries) ->
    exists entries',
      forEachM_from (remember fertilizerMap) index ls tt h
      = Some (tt, <[fertilizerMap := MapObj entries']> h).
Proof.
  induction ls as [|l ls IH]; intros index h entries Hmap; simpl.
  - exists entries. unfold ret. now rewrite insert_id.
  - rewrite (bind_run _ _ _ _ _ (remember_run _ l index _ _ Hmap)).
    edestruct (IH (S index)) as (entries' & ->); [apply lookup_insert_eq|].
    exists entries'. now rewrite insert_insert_eq.
Qed.

(** *** The second loop *)

(** Pushing a new item on the recipe keeps what the items read as. *)
Lemma read_item_after_push (h : heap) (recipe : loc) (items : list loc)
    (o : object) (l : loc) (item : RecipeIngredient) :
  h !! recipe = Some (ArrayObj items) ->
  read_item h l = Some item ->
  read_item (<[recipe := ArrayObj (items ++ [fresh (dom h)])]>
               (<[fresh (dom h) := o]> h)) l = Some item.
Proof.
  intros Hrecipe (f & Hl & Hf)%read_item_Some. apply read_item_Some.
  pose proof (fresh_unused h) as Hfresh.
  exists f. split.
  - rewrite !lookup_insert_ne by congruence. exact Hl.
  - rewrite !lookup_insert_ne by congruence. exact Hf.
Qed.

Lemma collect_loop (result : SolveResult) (recipe : loc) (h0 : heap)
    (ls : list loc) :
  h0 !! recipe = None ->
  forall fs index (h : heap) items acc s,
    read_all (read_fertilizer h0) ls = Some fs ->
    h0 ⊆ h ->
    h !! recipe = Some (ArrayObj items) ->
    read_all (read_item h) items = Some (Totals.recipe acc) ->
    sums_of s acc ->
    exists h' items' s',
      forEachM_from (collect_at result recipe) index ls s h = Some (s', h')
      /\ h0 ⊆ h'
      /\ h' !! recipe = Some (ArrayObj items')
      /\ read_all (read_item h') items'
         = Some (Totals.recipe (forEach_from (collect result) index fs acc))
      /\ sums_of s' (forEach_from (collect result) index fs acc).
Proof.
  intros Hnew. induction ls as [|l ls IH];
    intros fs index h items acc s Hfs Hsub Hrecipe Hitems Hsums; simpl in Hfs.
  - injection Hfs as <-. simpl. exists h, items, s. auto.
  - destruct (read_fertilizer h0 l) as [fv|] eqn:Hl; [|discriminate].
    destruct (read_all (read_fertilizer h0) ls) as [rest|] eqn:Hrest; [|discriminate].
    injection Hfs as <-. cbn [forEachM_from forEach_from].
    unfold collect_at at 1, collect at 2 4.
    destruct (vars result !! ("x" +:+ string_of_index index)) as [x_val|];
      [destruct (truthy x_val && (x_val >? epsilon)%js) eqn:Hcond|].
    + pose proof (fresh_unused h) as Hfresh.
      set (li := fresh (dom h)) in *.
      set (h1 := <[li := RecipeIngredientObj l x_val]> h).
      set (h2 := <[recipe := ArrayObj (items ++ [li])]> h1).
      assert (Hne : li <> recipe) by congruence.
      assert (Hsub2 : h0 ⊆ h2).
      { apply insert_subseteq_r; [exact Hnew|].
        etrans; [exact Hsub|]. now apply insert_subseteq. }
      assert (Hstep :
        (do item <- alloc (RecipeIngredientObj l x_val);
         do items0 <- load_array recipe;
         do _ <- store recipe (ArrayObj (items0 ++ [item]));
         do fv0 <- load_fertilizer l;
         ret {| sumN := (sumN s + x_val * Fertilizer.n fv0 / 100)%js;
                sumP := (sumP s + x_val * Fertilizer.p fv0 / 100)%js;
                sumK := (sumK s + x_val * Fertilizer.k fv0 / 100)%js;
                sumWeight := (sumWeight s + x_val)%js |}) h
        = Some ({| sumN := (sumN s + x_val * Fertilizer.n fv / 100)%js;
                   sumP := (sumP s + x_val * Fertilizer.p fv / 100)%js;
                   sumK := (sumK s + x_val * Fertilizer.k fv / 100)%js;
                   sumWeight := (sumWeight s + x_val)%js |}, h2)).
      { rewrite (bind_run _ _ h h1 li) by reflexivity.
        rewrite (bind_run _ _ h1 h1 items).
        2:{ apply load_array_run. unfold h1. now rewrite lookup_insert_ne. }
        rewrite (bind_run _ _ h1 h2 tt).
        2:{ eapply store_run. unfold h1. rewrite lookup_insert_ne by exact Hne.
            exact Hrecipe. }
        rewrite (bind_run _ _ h2 h2 fv); [reflexivity|].
        apply load_fertilizer_run. eapply read_fertilizer_weaken; eassumption. }
      rewrite (bind_run _ _ _ _ _ Hstep).
      apply (IH rest (S index) h2 (items ++ [li])); auto.
      * unfold h2. apply lookup_insert_eq.
      * cbn [Totals.recipe]. apply read_all_app.
        -- eapply read_all_weaken; [|exact Hitems].
           intros l' v Hv. unfold h2, h1, li.
           now apply read_item_after_push.
        -- simpl.
           assert (Hli : read_item h2 li
                         = Some {| fertilizer := fv; amount := x_val |}).
           { apply read_item_Some. exists l. simpl. split.
             - unfold h2, h1. rewrite lookup_insert_ne by congruence.
               apply lookup_insert_eq.
             - apply read_fertilizer_Some.
               eapply read_fertilizer_weaken; eassumption. }
           now rewrite Hli.
      * destruct Hsums as (HN & HP & HK & HW).
        unfold sums_of. simpl. now rewrite HN, HP, HK, HW.
    + rewrite (bind_run _ _ h h s) by reflexivity.
      now apply (IH rest (S index) h items).
    + rewrite (bind_run _ _ h h s) by reflexivity.
      now apply (IH rest (S index) h items).
Qed.

Lemma read_item_weaken (h h' : heap) (l : loc) (item : RecipeIngredient) :
  h ⊆ h' -> read_item h l = Some item -> read_item h' l = Some item.
Proof.
  intros Hsub (f & Hl & Hf)%read_item_Some. apply read_item_Some.
  exists f. split; eapply lookup_weaken; eassumption.
Qed.

Lemma alloc_extends (h : heap) (o : object) : h ⊆ <[fresh (dom h) := o]> h.
Proof. apply insert_subseteq, fresh_unused. Qed.

(** *** The interpretation of the solver's answer *)

Lemma interpret_at_run (result : SolveResult) (h : heap) (kept : list loc)
    (fs : list Fertilizer.t) :
  read_all (read_fertilizer h) kept = Some fs ->
  exists r h',
    interpret_at kept result h = Some (r, h')
    /\ h ⊆ h'
    /\ read_returned h' r = Some (interpret fs result).
Proof.
  intros Hkept. unfold interpret_at, interpret.
  destruct ((status result =? Glp.GLP_OPT)%Z || (status result =? Glp.GLP_FEAS)%Z).
  2:{ exists (failed (status_error_message (status result))), h.
      split; [reflexivity|]. split; reflexivity. }
  pose proof (fresh_unused h) as Hfresh.
  set (recipe := fresh (dom h)) in *.
  set (h1 := <[recipe := ArrayObj []]> h).
  rewrite (bind_run _ _ h h1 recipe) by reflexivity.
  destruct (collect_loop result recipe h kept Hfresh fs 0%nat h1 []
              (Totals.mk [] 0%js 0%js 0%js 0%js)
              {| sumN := 0%js; sumP := 0%js; sumK := 0%js; sumWeight := 0%js |})
    as (h2 & items & s & Hloop & Hsub2 & Hrecipe & Hitems & Hsums);
    [ exact Hkept | apply alloc_extends | apply lookup_insert_eq
    | reflexivity | repeat split | ].
  fold (forEach (collect result) fs (Totals.mk [] 0%js 0%js 0%js 0%js)) in Hitems, Hsums.
  set (acc := forEach (collect result) fs (Totals.mk [] 0%js 0%js 0%js 0%js)) in *.
  unfold forEachM. rewrite (bind_run _ _ _ _ _ Hloop).
  rewrite (bind_run _ _ _ _ _ (load_array_run _ _ _ Hrecipe)).
  destruct (filterM_read (read_item h2)
              (fun item => do '(_, x) <- load_item item; ret (x >? epsilon)%js)
              (fun item => (amount item >? epsilon)%js) h2) with (ls := items)
              (vs := Totals.recipe acc)
    as (final & Hfilter & Hfinal); [|exact Hitems|].
  { intros l v (f & Hl & _)%read_item_Some.
    now rewrite (bind_run _ _ _ _ _ (load_item_run _ _ _ _ Hl)). }
  rewrite (bind_run _ _ _ _ _ Hfilter).
  set (h3 := <[fresh (dom h2) := ArrayObj final]> h2).
  rewrite (bind_run _ _ h2 h3 (fresh (dom h2))) by reflexivity.
  eexists _, h3. split; [reflexivity|]. split.
  - etrans; [exact Hsub2|]. apply alloc_extends.
  - unfold read_returned, read_array. cbn [recipe_at].
    unfold h3 at 1. rewrite lookup_insert_eq.
    rewrite (read_all_weaken (read_item h2) (read_item h3) final _
               (fun l v => read_item_weaken h2 h3 l v (alloc_extends h2 _)) Hfinal).
    destruct Hsums as (-> & -> & -> & ->). reflexivity.
Qed.

(** *** The whole call *)

Lemma load_params_run (h : heap) (params : loc) (request : CalculateMixParams) :
  read_params h params = Some request ->
  exists fertilizers,
    load_params params h = Some ((request, fertilizers), h)
    /\ read_all (read_fertilizer h) fertilizers
       = Some (availableFertilizers request).
Proof.
  unfold read_params, read_array, load_params.
  destruct (h !! params) as [[tn tp tk tw tol inc array| | | |]|] eqn:Hp;
    try discriminate.
  destruct (h !! array) as [[|f|elems|m|f x]|] eqn:Ha; try discriminate.
  destruct (read_all (read_fertilizer h) elems) as [values|] eqn:Hv;
    [|discriminate].
  intros [= <-]. exists elems. split; [|exact Hv].
  rewrite (bind_run _ _ _ _ _ (load_run _ _ _ Hp)).
  rewrite (bind_run _ _ _ _ _ (load_array_run _ _ _ Ha)).
  now rewrite (bind_run _ _ _ _ _ (mapM_load_fertilizer _ _ _ Hv)).
Qed.

Theorem calculateMix_on_heap (GLPK : JsThrown + GlpkInstance) (h : heap)
    (params : loc) (request : CalculateMixParams) :
  read_params h params = Some request ->
  exists out h',
    calculateMix_heap GLPK params h = Some (out, h')
    /\ h ⊆ h'
    /\ fst out = fst (calculateMix GLPK request)
    /\ read_promise h' (snd out) = Some (snd (calculateMix GLPK request)).
Proof.
  intros Hparams.
  destruct (load_params_run _ _ _ Hparams) as (fertilizers & Hload & Hall).
  unfold calculateMix_heap, calculateMix.
  rewrite (bind_run _ _ _ _ _ Hload).
  destruct (filterM_read (read_fertilizer h)
              (fun f => do fv <- load_fertilizer f;
                        ret (zero_target_filter request fv))
              (zero_target_filter request) h) with (ls := fertilizers)
              (vs := availableFertilizers request)
    as (kept & Hfilter & Hkept); [|exact Hall|].
  { intros l v Hl. now rewrite (bind_run _ _ _ _ _ (load_fertilizer_run _ _ _ Hl)). }
  rewrite (bind_run _ _ _ _ _ Hfilter).
  set (h1 := <[fresh (dom h) := ArrayObj kept]> h).
  rewrite (bind_run _ _ h h1 (fresh (dom h))) by reflexivity.
  assert (Hsub1 : h ⊆ h1) by apply alloc_extends.
  rewrite (read_all_length _ _ _ Hkept).
  set (fs := List.filter (zero_target_filter request) (availableFertilizers request)) in *.
  destruct (length fs =? 0)%nat.
  { eexists _, h1. split; [reflexivity|]. auto. }
  destruct ((totalWeight request <=? 0)%js || (increment request <=? 0)%js).
  { eexists _, h1. split; [reflexivity|]. auto. }
  destruct GLPK as [err|glpk].
  { eexists _, h1. split; [reflexivity|]. auto. }
  set (h2 := <[fresh (dom h1) := MapObj ∅]> h1).
  rewrite (bind_run _ _ h1 h2 (fresh (dom h1))) by reflexivity.
  destruct (remember_loop (fresh (dom h1)) kept 0%nat h2 ∅) as (entries & Hloop);
    [apply lookup_insert_eq|].
  unfold forEachM. rewrite (bind_run _ _ _ _ _ Hloop).
  set (h3 := <[fresh (dom h1) := MapObj entries]> h2).
  assert (Hsub3 : h ⊆ h3).
  { etrans; [exact Hsub1|]. unfold h3, h2. rewrite insert_insert_eq.
    apply alloc_extends. }
  assert (Hkept3 : read_all (read_fertilizer h3) kept = Some fs).
  { eapply read_all_weaken; [|exact Hkept].
    intros l v. now apply read_fertilizer_weaken. }
  rewrite (bind_run _ _ _ _ _ (mapM_load_fertilizer _ _ _ Hkept3)).
  destruct (solve glpk (lp (build_lp request fs))) as [err|result].
  { eexists _, h3. split; [reflexivity|]. auto. }
  destruct (interpret_at_run result h3 kept fs Hkept3) as (r & h4 & Hrun & Hsub4 & Hread).
  rewrite (bind_run _ _ _ _ _ Hrun).
  eexists _, h4. split; [reflexivity|].
  split; [etrans; [exact Hsub3 | exact Hsub4]|].
  split; [reflexivity|]. cbn [snd read_promise]. now rewrite Hread.
Qed.

Lemma read_params_weaken (h h' : heap) (params : loc)
    (request : CalculateMixParams) :
  h ⊆ h' -> read_params h params = Some request ->
  read_params h' params = Some request.
Proof.
  intros Hsub. unfold read_params, read_array.
  destruct (h !! params) as [[tn tp tk tw tol inc array| | | |]|] eqn:Hp;
    try discriminate.
  destruct (h !! array) as [[|f|elems|m|f x]|] eqn:Ha; try discriminate.
  destruct (read_all (read_fertilizer h) elems) as [values|] eqn:Hv;
    [|discriminate].
  intros [= <-].
  rewrite (lookup_weaken _ _ _ _ Hp Hsub), (lookup_weaken _ _ _ _ Ha Hsub).
  rewrite (read_all_weaken (read_fertilizer h) (read_fertilizer h') elems values
             (fun l v => read_fertilizer_weaken h h' l v Hsub) Hv).
  reflexivity.
Qed.

(** C10.  On a heap that holds a request, its array of fertilizers and
    the fertilizers, the call returns, and every object that was in the
    heap before the call is in it, unchanged, after the call: the request
    object, the array and each fertilizer among them, so that the request
    reads back as before.  What the call writes are objects it created. *)
Theorem calculateMix_leaves_input_unchanged (GLPK : JsThrown + GlpkInstance)
    (h : heap) (params : loc) (request : CalculateMixParams) :
  read_params h params = Some request ->
  exists out h',
    calculateMix_heap GLPK params h = Some (out, h')
    /\ (forall l o, h !! l = Some o -> h' !! l = Some o)
    /\ read_params h' params = Some request.
Proof.
  intros Hparams.
  destruct (calculateMix_on_heap GLPK h params request Hparams)
    as (out & h' & Hrun & Hsub & _).
  exists out, h'. split; [exact Hrun|]. split.
  - intros l o Hl. eapply lookup_weaken; eassumption.
  - eapply read_params_weaken; eassumption.
Qed.

Lemma calculateMix_leaves_input_unchanged_witness :
  read_params sample_heap 1%positive = Some sample_params
  /\ exists out h',
      calculateMix_heap (inr (answering blend_result)) 1%positive sample_heap
      = Some (out, h')
      /\ (forall l o, sample_heap !! l = Some o -> h' !! l = Some o)
      /\ read_params h' 1%positive = Some sample_params.
Proof.
  split; [vm_compute; reflexivity|].
  apply (calculateMix_leaves_input_unchanged (inr (answering blend_result))
           sample_heap 1%positive sample_params).
  vm_compute; reflexivity.
Defined.

(** The recipe that is returned refers to the fertilizers of the caller:
    on the sample heap its items point at the objects 3, 4 and 5 of the
    request. *)
Example sample_recipe_shares_fertilizers :
  exists out h' recipe items,
    calculateMix_heap (inr (answering blend_result)) 1%positive sample_heap
    = Some (out, h')
    /\ snd out = Resolved {| recipe_at := Some recipe;
                             error_text := None;
                             npk := Some sample_npk;
                             weight := Some (Fin 1000) |}
    /\ h' !! recipe = Some (ArrayObj items)
    /\ mapM load_item items h'
       = Some ([(3%positive, Fin 180); (4%positive, Fin 650); (5%positive, Fin 170)], h').
Proof.
  eexists _, _, _, _. split; [vm_compute; reflexivity|].
  split; [vm_compute; reflexivity|]. split; vm_compute; reflexivity.
Qed.

End HeapRuns.

(** * The statements at the sample data *)

Lemma sample_model_called :
  In (CallSolve sample_model)
     (fst (calculateMix (inr (answering blend_result)) sample_params)).
Proof. right. left. reflexivity. Qed.

Lemma usage_lower_0_in_sample_model : In usage_lower_0 (LP.subjectTo sample_model).
Proof. vm_compute. do 2 right. left. reflexivity. Qed.

(** C1 as stated fails: five grams with the indicator at 0 satisfy the
    Usage-lower row of the first fertilizer, although five is above
    epsilon. *)
Lemma usage_lower_alone_leaves_used_free :
  In (CallSolve sample_model)
     (fst (calculateMix (inr (answering blend_result)) sample_params))
  /\ In usage_lower_0 (LP.subjectTo sample_model)
  /\ is_binary (five_unused ("y" ++ string_of_index 0)) = true
  /\ satisfies five_unused usage_lower_0 = true
  /\ (five_unused ("x" ++ string_of_index 0) >? epsilon)%js = true
  /\ (five_unused ("y" ++ string_of_index 0) === 1)%js = false.
Proof.
  split; [exact sample_model_called|].
  split; [exact usage_lower_0_in_sample_model|].
  repeat split; reflexivity.
Qed.

Lemma usage_upper_0_in_sample_model : In usage_upper_0 (LP.subjectTo sample_model).
Proof. vm_compute. right. left. reflexivity. Qed.

(** The sample blend meets both rows of the first fertilizer, with 180
    grams and the indicator at 1. *)
Lemma sample_blend_meets_usage_rows :
  satisfies blend_assignment usage_lower_0 = true
  /\ satisfies blend_assignment usage_upper_0 = true
  /\ (blend_assignment ("x" ++ string_of_index 0) >? 0)%js = true
  /\ (blend_assignment ("y" ++ string_of_index 0) === 1)%js = true.
Proof. repeat split; vm_compute; reflexivity. Qed.

Lemma usage_rows_link_amount_and_used_witness :
  (In (CallSolve sample_model)
      (fst (calculateMix (inr (answering blend_result)) sample_params))
   /\ survivors sample_params !! 0%nat = Some urea)
  /\ exists M,
      let lower := usage_lower_row 0 in
      let upper := usage_upper_row M 0 in
      let amount_i := blend_assignment ("x" ++ string_of_index 0) in
      let used_i := blend_assignment ("y" ++ string_of_index 0) in
      (In lower (LP.subjectTo sample_model) /\ In upper (LP.subjectTo sample_model))
      /\ (forall r, In r (LP.subjectTo sample_model) ->
            (Constraint.name r = Constraint.name lower -> r = lower)
            /\ (Constraint.name r = Constraint.name upper -> r = upper))
      /\ (satisfies blend_assignment lower = true -> (used_i === 1)%js = true ->
          (epsilon <=? amount_i)%js = true)
      /\ ((used_i === 0)%js = true ->
          satisfies blend_assignment lower = (0 <=? amount_i)%js)
      /\ (is_binary used_i = true -> satisfies blend_assignment upper = true ->
          (amount_i >? 0)%js = true -> (used_i === 1)%js = true)
      /\ (is_binary used_i = true -> satisfies blend_assignment upper = true ->
          (amount_i >? epsilon)%js = true -> (used_i === 1)%js = true).
Proof.
  split.
  - split; [exact sample_model_called | reflexivity].
  - apply (usage_rows_link_amount_and_used
             (inr (answering blend_result)) sample_params sample_model 0
             urea blend_assignment).
    + exact sample_model_called.
    + reflexivity.
Defined.

(** C2 fails on the code: when loading the solver throws, the promise of
    [calculateMix] is rejected with what was thrown. *)
Theorem load_failure_escapes :
  calculateMix (inl load_failure) sample_params = ([CallGLPK], Rejected load_failure).
Proof. vm_compute. reflexivity. Qed.

(** C3 as stated fails: with a total weight of zero and no fertilizer the
    failure is the one about fertilizers, not the one about weight. *)
Lemma weightless_empty_reports_no_fertilizers :
  (totalWeight weightless_empty_params <=? 0)%js = true
  /\ snd (calculateMix (inr (answering blend_result)) weightless_empty_params)
     = Resolved (failure "No fertilizers selected for mixing.")
  /\ snd (calculateMix (inr (answering blend_result)) weightless_empty_params)
     <> Resolved (failure "Total weight and increment must be positive.").
Proof. repeat split; try reflexivity. vm_compute. discriminate. Qed.

Lemma invalid_parameters_after_filter_witness :
  (List.filter (zero_target_filter weightless_params)
               (availableFertilizers weightless_params) <> []
   /\ ((totalWeight weightless_params <=? 0)%js = true
       \/ (increment weightless_params <=? 0)%js = true))
  /\ calculateMix (inl load_failure) weightless_params
     = ([], Resolved (failure "Total weight and increment must be positive.")).
Proof.
  split.
  - split; [vm_compute; discriminate | left; reflexivity].
  - apply (invalid_parameters_after_filter (inl load_failure) weightless_params).
    + vm_compute; discriminate.
    + left; reflexivity.
Defined.

(** C4 as stated fails: sawdust passes the filter of a request without
    nitrogen, and its nitrogen percentage is not zero. *)
Lemma sawdust_kept_without_nitrogen :
  In sawdust (List.filter (zero_target_filter no_nitrogen_params)
                          (availableFertilizers no_nitrogen_params))
  /\ (target Nitrogen no_nitrogen_params === 0)%js = true
  /\ (percentage Nitrogen sawdust === 0)%js = false.
Proof. split; [vm_compute; left; reflexivity | split; reflexivity]. Qed.

Lemma zero_target_filter_spec_witness :
  (forall nu, (0 <=? percentage nu potassium_chloride)%js = true)
  /\ (In potassium_chloride
         (List.filter (zero_target_filter no_nitrogen_params)
                      (availableFertilizers no_nitrogen_params))
      <-> In potassium_chloride (availableFertilizers no_nitrogen_params)
          /\ forall nu, (target nu no_nitrogen_params === 0)%js = true ->
                        (percentage nu potassium_chloride === 0)%js = true).
Proof.
  split.
  - intros []; reflexivity.
  - apply (proj2 (zero_target_filter_spec no_nitrogen_params potassium_chloride)).
    intros []; reflexivity.
Defined.

Lemma tolerance_row_emitted_iff_witness :
  In (CallSolve sample_model)
     (fst (calculateMix (inr (answering blend_result)) sample_params))
  /\ ((exists r, In r (LP.subjectTo sample_model)
                 /\ Constraint.name r = tolerance_row_name Nitrogen)
      <-> ((target Nitrogen sample_params === 0)%js = false
           \/ exists f, In f (survivors sample_params)
                        /\ (percentage Nitrogen f === 0)%js = false))
  /\ (forall r, In r (LP.subjectTo sample_model) ->
                Constraint.name r = tolerance_row_name Nitrogen ->
                r = spec_tolerance_row sample_params (survivors sample_params) Nitrogen).
Proof.
  split; [exact sample_model_called|].
  apply (tolerance_row_emitted_iff (inr (answering blend_result)) sample_params
           sample_model Nitrogen).
  exact sample_model_called.
Defined.

Lemma trivial_solution_is_success_witness :
  status trivial_result = Glp.GLP_FEAS
  /\ snd (calculateMix (inr (answering trivial_result)) sample_params)
     = Resolved {| recipe := Some [];
                   error := None;
                   actualNPK := Some (NPK.mk 0%js 0%js 0%js);
                   actualWeight := Some 0%js |}.
Proof.
  split; [reflexivity|].
  apply (trivial_solution_is_success (answering trivial_result) sample_params
           trivial_result).
  - vm_compute; discriminate.
  - reflexivity.
  - reflexivity.
  - reflexivity.
  - right; reflexivity.
  - intros index x Hindex.
    destruct index as [|[|[|index]]];
      [| | | exfalso; vm_compute in Hindex; lia];
      vm_compute; intros [= <-]; reflexivity.
Defined.




Lemma recipe_within_filtered_witness :
  In {| fertilizer := urea; amount := Fin 180 |} sample_recipe
  /\ In urea (List.filter (zero_target_filter sample_params)
                          (availableFertilizers sample_params))
  /\ zero_target_filter sample_params urea = true.
Proof.
  split; [left; reflexivity|].
  apply (recipe_within_filtered (inr (answering blend_result)) sample_params
           sample_success sample_recipe {| fertilizer := urea; amount := Fin 180 |}).
  - vm_compute; reflexivity.
  - reflexivity.
  - left; reflexivity.
Defined.

(** * More of the code *)

(** ** The problem object as a whole *)

Lemma imap_shift {A B : Type} (g : nat -> A -> B) (index : nat) (l : list A) :
  imap (fun j => g (index + S j)%nat) l = imap (fun j => g (S index + j)%nat) l.
Proof. apply imap_ext. intros j x _. now rewrite Nat.add_succ_r. Qed.

Lemma forEach_from_declare_lp tw inc M (l : list Fertilizer.t) :
  forall index st,
    lp (forEach_from (declare_fertilizer tw inc M) index l st)
    = LP.mk (LP.name (lp st))
        (Objective.mk
           (Objective.direction (LP.objective (lp st)))
           (Objective.name (LP.objective (lp st)))
           (List.app
              (Objective.vars (LP.objective (lp st)))
              (imap (fun j _ => Coef.mk ("y" ++ string_of_index (index + j)) 1%js) l)))
        (List.app
           (LP.subjectTo (lp st))
           (concat (imap (fun j _ => rows_of_index inc M (index + j)) l)))
        (List.app
           (LP.bounds (lp st))
           (concat (imap (fun j _ =>
                            [ Bound.mk ("x" ++ string_of_index (index + j))
                                       Glp.GLP_DB 0%js tw;
                              Bound.mk ("z" ++ string_of_index (index + j))
                                       Glp.GLP_DB 0%js (floor (tw / inc)%js);
                              Bound.mk ("y" ++ string_of_index (index + j))
                                       Glp.GLP_DB 0%js 1%js ]) l)))
        (List.app
           (LP.binaries (lp st))
           (imap (fun j _ => "y" ++ string_of_index (index + j)) l))
        (List.app
           (LP.generals (lp st))
           (imap (fun j _ => "z" ++ string_of_index (index + j)) l)).
Proof.
  induction l as [|f l IH]; intros index st.
  - cbn [forEach_from imap concat]. rewrite !app_nil_r.
    now destruct (lp st) as [? [] ? ? ? ?].
  - cbn [forEach_from]. rewrite IH. cbn [imap concat].
    unfold compose.
    rewrite !(imap_shift (fun i (_ : Fertilizer.t) =>
                Coef.mk ("y" ++ string_of_index i) 1%js)).
    rewrite !(imap_shift (fun i (_ : Fertilizer.t) => rows_of_index inc M i)).
    rewrite !(imap_shift (fun i (_ : Fertilizer.t) =>
                [ Bound.mk ("x" ++ string_of_index i) Glp.GLP_DB 0%js tw;
                  Bound.mk ("z" ++ string_of_index i) Glp.GLP_DB 0%js
                           (floor (tw / inc)%js);
                  Bound.mk ("y" ++ string_of_index i) Glp.GLP_DB 0%js 1%js ])).
    rewrite !(imap_shift (fun i (_ : Fertilizer.t) => "y" ++ string_of_index i)).
    rewrite !(imap_shift (fun i (_ : Fertilizer.t) => "z" ++ string_of_index i)).
    rewrite !Nat.add_0_r.
    unfold declare_fertilizer, rows_of_index. cbn -[String.append].
    rewrite <- !app_assoc. reflexivity.
Qed.

Lemma build_lp_closed_form params fs :
  lp (build_lp params fs) = closed_form_lp params fs.
Proof.
  unfold build_lp. cbv zeta.
  pose proof (necessary_iff_emitted params fs Nitrogen) as HN.
  pose proof (necessary_iff_emitted params fs Phosphorus) as HP.
  pose proof (necessary_iff_emitted params fs Potassium) as HK.
  cbn [target percentage] in HN, HP, HK. rewrite HN, HP, HK. clear HN HP HK.
  unfold forEach. rewrite forEach_from_declare_lp.
  unfold closed_form_lp, tolerance_rows. cbn [flat_map].
  destruct (spec_tolerance_row_emitted params fs Nitrogen),
           (spec_tolerance_row_emitted params fs Phosphorus),
           (spec_tolerance_row_emitted params fs Potassium);
    unfold LP.push_subjectTo;
    cbn [app LP.name LP.objective LP.subjectTo LP.bounds LP.binaries LP.generals
         Objective.direction Objective.name Objective.vars empty_lp lp Nat.add];
    rewrite <- ?app_assoc; reflexivity.
Qed.

Lemma length_concat_imap {A B : Type} (g : nat -> A -> list B) (k : nat)
    (l : list A) :
  (forall i x, length (g i x) = k) ->
  length (concat (imap g l)) = (k * length l)%nat.
Proof.
  intros Hg. revert g Hg. induction l as [|x l IH]; intros g Hg; cbn [imap concat].
  - simpl. lia.
  - rewrite length_app, Hg, IH by (intros; apply Hg). simpl. lia.
Qed.

(** X2.  The problem handed to the solver has, for [n] surviving
    fertilizers, [n] terms in the objective, [n] binaries, [n] general
    integers, [3 n] bounds and [3 n + 1] rows plus one row per nutrient
    whose tolerance row is emitted, so at most [3 n + 4]. *)
Theorem model_sizes GLPK params model :
  In (CallSolve model) (fst (calculateMix GLPK params)) ->
  let n := length (survivors params) in
  length (Objective.vars (LP.objective model)) = n
  /\ length (LP.binaries model) = n
  /\ length (LP.generals model) = n
  /\ length (LP.bounds model) = (3 * n)%nat
  /\ length (LP.subjectTo model)
     = (3 * n + 1 + length (tolerance_rows params (survivors params)))%nat
  /\ (length (LP.subjectTo model) <= 3 * n + 4)%nat.
Proof.
  intros Hm n. apply calculateMix_model in Hm as (-> & _).
  rewrite build_lp_closed_form. unfold closed_form_lp. cbn [LP.objective
    Objective.vars LP.binaries LP.generals LP.bounds LP.subjectTo].
  rewrite !length_imap, length_app.
  rewrite !(length_concat_imap _ 3) by reflexivity.
  fold n. cbn [length].
  assert (Ht : (length (tolerance_rows params (survivors params)) <= 3)%nat).
  { unfold tolerance_rows. cbn [flat_map].
    destruct (spec_tolerance_row_emitted _ _ Nitrogen),
             (spec_tolerance_row_emitted _ _ Phosphorus),
             (spec_tolerance_row_emitted _ _ Potassium); simpl; lia. }
  repeat split; lia.
Qed.

(** ** How a call ends *)

Lemma status_error_message_not_no_candidates (s : Z) :
  status_error_message s <> "No fertilizers selected for mixing.".
Proof.
  unfold status_error_message.
  destruct (s =? Glp.GLP_NOFEAS)%Z; [discriminate|].
  destruct (s =? Glp.GLP_UNBND)%Z; [discriminate|].
  destruct (s =? Glp.GLP_UNDEF)%Z; discriminate.
Qed.

(** X3.  The call answers "No fertilizers selected for mixing." exactly
    when no fertilizer of the request passes the zero-target filter (an
    empty request among them); no other path produces that message. *)
Theorem no_candidates_iff GLPK params :
  snd (calculateMix GLPK params)
  = Resolved (failure "No fertilizers selected for mixing.")
  <-> survivors params = [].
Proof.
  split.
  - intros Hres.
    destruct (calculateMix_cases GLPK params)
      as [(m & Heq & Hbad)|(Hs & Hw & Hi & [(err & _ & Heq)|(glpk & _ & Hcase)])].
    + destruct (survivors params) as [|f fs] eqn:Hsurv; [reflexivity|].
      exfalso. revert Hres. unfold calculateMix. fold (survivors params).
      rewrite Hsurv. cbn [length Nat.eqb].
      destruct Hbad as [Hbad|[Hbad|Hbad]]; [discriminate| |];
        rewrite Hbad, ?orb_true_r; cbn [orb snd]; intros [=].
    + rewrite Heq in Hres. discriminate.
    + cbv zeta in Hcase.
      destruct Hcase as [(err & _ & Heq)|(result & _ & Heq)];
        rewrite Heq in Hres; cbn [snd] in Hres.
      * injection Hres as Hres. discriminate.
      * destruct (interpret_cases params result) as [[_ Hi']|(_ & _ & m & Hi')];
          rewrite Hi' in Hres; [discriminate|].
        exfalso. revert Hi' Hres. unfold interpret.
        destruct ((status result =? Glp.GLP_OPT)%Z || (status result =? Glp.GLP_FEAS)%Z);
          [discriminate|].
        intros [= <-]. intros [= H].
        now apply status_error_message_not_no_candidates in H.
  - intros Hs. unfold calculateMix. fold (survivors params). now rewrite Hs.
Qed.

(** X4.  Nothing is done to the outside (the solver is not loaded, not
    called, nothing is logged) exactly when the request fails one of the
    two checks: no fertilizer passes the filter, or the total weight or
    the increment is at most zero.  Otherwise the first thing done is to
    load the solver. *)
Theorem silent_iff_invalid GLPK params :
  (fst (calculateMix GLPK params) = []
   <-> survivors params = []
       \/ (totalWeight params <=? 0)%js = true
       \/ (increment params <=? 0)%js = true)
  /\ (fst (calculateMix GLPK params) <> [] ->
      hd_error (fst (calculateMix GLPK params)) = Some CallGLPK).
Proof.
  destruct (calculateMix_cases GLPK params)
    as [(m & Heq & Hbad)|(Hs & Hw & Hi & [(err & _ & Heq)|(glpk & _ & Hcase)])].
  - rewrite Heq. cbn [fst]. split; [tauto | congruence].
  - rewrite Heq. cbn [fst]. split; [|reflexivity].
    split; [discriminate|]. intros [H|[H|H]]; congruence.
  - cbv zeta in Hcase.
    destruct Hcase as [(err & _ & Heq)|(result & _ & Heq)]; rewrite Heq; cbn [fst];
      (split; [|reflexivity]); (split; [discriminate|]);
      intros [H|[H|H]]; congruence.
Qed.

Lemma resolved_cases GLPK params res :
  snd (calculateMix GLPK params) = Resolved res ->
  (exists result, res = success_of (collected params result))
  \/ (exists message, res = failure message).
Proof.
  intros Hres.
  destruct (calculateMix_cases GLPK params)
    as [(m & Heq & _)|(_ & _ & _ & [(err & _ & Heq)|(glpk & _ & Hcase)])].
  - rewrite Heq in Hres. injection Hres as <-. eauto.
  - rewrite Heq in Hres. discriminate.
  - cbv zeta in Hcase.
    destruct Hcase as [(err & _ & Heq)|(result & _ & Heq)];
      rewrite Heq in Hres; injection Hres as <-; [eauto|].
    destruct (interpret_cases params result) as [[_ ->]|(_ & _ & m & ->)]; eauto.
Qed.

(** X5.  A call that resolves populates exactly one side of the result:
    either recipe, actual percentages and actual weight, and no error; or
    an error message and nothing else. *)
Theorem result_is_success_or_failure GLPK params res :
  snd (calculateMix GLPK params) = Resolved res ->
  (exists r npk w,
      res = {| recipe := Some r; error := None;
               actualNPK := Some npk; actualWeight := Some w |})
  \/ (exists message, res = failure message).
Proof.
  intros Hres.
  destruct (resolved_cases GLPK params res Hres) as [(result & ->)|(m & ->)].
  - left. unfold success_of. eauto.
  - right. eauto.
Qed.

(** X6.  When the solver answers with a status that is neither optimal nor
    feasible, the call resolves to a failure whose message is fixed by the
    status alone: one message each for no feasible solution, unbounded and
    undefined, and for any other status (infeasible among them) a message
    that ends with the status in decimal. *)
Theorem other_status_is_failure glpk params result :
  survivors params <> [] ->
  (totalWeight params <=? 0)%js = false ->
  (increment params <=? 0)%js = false ->
  solve glpk (closed_form_lp params (survivors params)) = inr result ->
  status result <> Glp.GLP_OPT ->
  status result <> Glp.GLP_FEAS ->
  exists message,
    snd (calculateMix (inr glpk) params) = Resolved (failure message)
    /\ (status result = Glp.GLP_NOFEAS ->
        message = "No feasible solution could be found for the given parameters. Try adjusting NPK targets, tolerance, or available fertilizers.")
    /\ (status result = Glp.GLP_UNBND ->
        message = "The problem is unbounded (variables can increase indefinitely without violating constraints).")
    /\ (status result = Glp.GLP_UNDEF ->
        message = "The problem is undefined (e.g., due to contradictory constraints or numerical instability).")
    /\ (status result <> Glp.GLP_NOFEAS -> status result <> Glp.GLP_UNBND ->
        status result <> Glp.GLP_UNDEF ->
        message = "Solver finished with status: " ++ string_of_status (status result)).
Proof.
  intros Hs Hw Hi Hsolve Ho Hf. rewrite <- build_lp_closed_form in Hsolve.
  destruct (calculateMix_cases (inr glpk) params)
    as [(m & _ & [H|[H|H]])|(_ & _ & _ & [(err & H & _)|(g & Hg & Hcase)])];
    try congruence.
  injection Hg as <-. cbv zeta in Hcase. rewrite Hsolve in Hcase.
  destruct Hcase as [(err & H & _)|(r & Hr & ->)]; [discriminate|].
  injection Hr as <-. cbn [snd].
  exists (status_error_message (status result)). split.
  - unfold interpret.
    apply Z.eqb_neq in Ho, Hf. now rewrite Ho, Hf.
  - unfold status_error_message. repeat split.
    + now intros ->.
    + now intros ->.
    + now intros ->.
    + intros H1 H2 H3. apply Z.eqb_neq in H1, H2, H3. now rewrite H1, H2, H3.
Qed.

(** ** The recipe *)

Lemma filter_sublist {A : Type} (p : A -> bool) (l : list A) :
  sublist (List.filter p l) l.
Proof.
  induction l as [|x l IH]; simpl; [constructor|].
  destruct (p x); now constructor.
Qed.

Lemma forEach_from_collect_sublist result (l : list Fertilizer.t) :
  forall index acc,
    exists r',
      Totals.recipe (forEach_from (collect result) index l acc)
      = List.app (Totals.recipe acc) r'
      /\ sublist (List.map fertilizer r') l.
Proof.
  induction l as [|f l IH]; intros index acc; cbn [forEach_from].
  - exists []. rewrite app_nil_r. split; [reflexivity | constructor].
  - destruct (IH (S index) (collect result f index acc)) as (r' & -> & Hsub).
    destruct (collect_cases result f index acc) as [(x & _ & _ & ->)|[_ ->]].
    + exists ({| fertilizer := f; amount := x |} :: r'). cbn [Totals.recipe].
      rewrite <- app_assoc. split; [reflexivity|]. simpl. now constructor.
    + exists r'. split; [reflexivity | now constructor].
Qed.

(** X7.  The fertilizers of a returned recipe are, in this order, a
    subsequence of the request's list of fertilizers: the recipe never
    reorders them, never has more entries than the request has
    fertilizers, and lists no fertilizer twice unless the request does. *)
Theorem recipe_is_subsequence GLPK params res r :
  snd (calculateMix GLPK params) = Resolved res ->
  recipe res = Some r ->
  sublist (List.map fertilizer r) (availableFertilizers params)
  /\ (length r <= length (availableFertilizers params))%nat
  /\ (NoDup (availableFertilizers params) -> NoDup (List.map fertilizer r)).
Proof.
  intros Hres Hr.
  destruct (calculateMix_success _ _ _ _ Hres Hr) as (glpk & result & _ & _ & _ & ->).
  injection Hr as <-.
  destruct (forEach_from_collect_sublist result (survivors params) 0
              (Totals.mk [] 0%js 0%js 0%js 0%js)) as (r' & Heq & Hsub).
  unfold collected, forEach. rewrite Heq. cbn [Totals.recipe app].
  assert (Hall : sublist (List.map fertilizer r') (availableFertilizers params)).
  { etrans; [exact Hsub | apply filter_sublist]. }
  split; [exact Hall|]. split.
  - apply sublist_length in Hall. now rewrite length_map in Hall.
  - intros Hnd. eapply sublist_NoDup; eassumption.
Qed.

Lemma total_weight_positive (r : list RecipeIngredient) :
  r <> [] ->
  (forall item, In item r -> (amount item >? epsilon)%js = true) ->
  (total_weight r >? 0)%js = true.
Proof.
  intros Hne Hr. destruct r as [|item l]; [congruence|].
  unfold total_weight. cbn [fold_left].
  apply fold_weight_positive.
  - apply add_positive; [left; reflexivity | apply Hr; now left].
  - intros i Hi. apply Hr. now right.
Qed.

(** X8.  In a success result the recipe is empty exactly when the actual
    weight is zero, and then the three actual percentages are zero too; a
    recipe that is not empty has an actual weight above zero. *)
Theorem empty_recipe_iff_zero_weight GLPK params res r w npk :
  snd (calculateMix GLPK params) = Resolved res ->
  recipe res = Some r ->
  actualWeight res = Some w ->
  actualNPK res = Some npk ->
  (r = [] <-> (w === 0)%js = true)
  /\ (r <> [] -> (w >? 0)%js = true)
  /\ (r = [] -> npk = NPK.mk 0%js 0%js 0%js).
Proof.
  intros Hres Hr Hw Hnpk.
  destruct (calculateMix_success _ _ _ _ Hres Hr) as (glpk & result & _ & _ & _ & ->).
  injection Hr as <-. injection Hw as <-. injection Hnpk as <-.
  destruct (collected_totals params result) as (HN & HP & HK & HW).
  set (acc := collected params result) in *.
  assert (Habove : forall item, In item (Totals.recipe acc) ->
                                (amount item >? epsilon)%js = true).
  { intros item Hitem. now apply collected_recipe in Hitem as (_ & _ & _ & H). }
  split; [split|split].
  - intros He. rewrite HW, He. reflexivity.
  - intros Hz. rewrite HW in Hz. now apply total_weight_zero in Hz.
  - intros Hne. rewrite HW. now apply total_weight_positive.
  - intros He. rewrite HN, HP, HK, HW, He. reflexivity.
Qed.

(** ** The filter and the request *)

Lemma filter_idempotent {A : Type} (p : A -> bool) (l : list A) :
  List.filter p (List.filter p l) = List.filter p l.
Proof.
  induction l as [|x l IH]; simpl; [reflexivity|].
  destruct (p x) eqn:Hp; simpl; [rewrite Hp, IH|]; auto.
Qed.

(** X9.  Filtering beforehand changes nothing: a request whose list of
    fertilizers is replaced by the ones that pass the zero-target filter
    gets the same events and the same result. *)
Theorem prefiltering_is_redundant GLPK params :
  calculateMix GLPK (with_fertilizers params (survivors params))
  = calculateMix GLPK params.
Proof.
  unfold calculateMix, with_fertilizers, survivors.
  cbn [availableFertilizers totalWeight increment].
  change (zero_target_filter
            {| targetN := targetN params; targetP := targetP params;
               targetK := targetK params; totalWeight := totalWeight params;
               tolerance := tolerance params; increment := increment params;
               availableFertilizers :=
                 List.filter (zero_target_filter params)
                             (availableFertilizers params) |})
    with (zero_target_filter params).
  rewrite filter_idempotent. reflexivity.
Qed.

(** ** What the rows ask of an answer, and what the recipe keeps of it *)

Lemma named_increment inc M j r s :
  In r (rows_of_index inc M j) ->
  Constraint.name r = "c_increment_" ++ s ->
  r = Constraint.mk ("c_increment_" ++ s)
        [Coef.mk ("x" ++ s) 1%js; Coef.mk ("z" ++ s) (- inc)%js]
        (Bnds.mk Glp.GLP_FX (Some 0%js) (Some 0%js)).
Proof.
  unfold rows_of_index. simpl.
  intros [<-|[<-|[<-|[]]]]; simpl; intros H; try discriminate.
  apply String.app_inj in H. rewrite <- H. reflexivity.
Qed.

(** X10.  In every model handed to the solver, an assignment that
    satisfies the dosing row of an index with a finite increment and a
    finite dose count has [amount = increment * doseCount]; and one that
    satisfies the Usage-upper row with the indicator at 0 has an amount
    that is at most 0. *)
Theorem dosing_and_unused_rows GLPK params model index r (a : Assignment) :
  In (CallSolve model) (fst (calculateMix GLPK params)) ->
  In r (LP.subjectTo model) ->
  satisfies a r = true ->
  (Constraint.name r = "c_increment_" ++ string_of_index index ->
   is_finite (increment params) = true ->
   is_finite (a ("z" ++ string_of_index index)) = true ->
   (a ("x" ++ string_of_index index)
    === increment params * a ("z" ++ string_of_index index))%js = true)
  /\ (Constraint.name r = "c_bigM_upper_" ++ string_of_index index ->
      (a ("y" ++ string_of_index index) === 0)%js = true ->
      (a ("x" ++ string_of_index index) <=? 0)%js = true).
Proof.
  intros Hm Hr Hsat. apply calculateMix_model in Hm as (-> & _).
  split; intros Hname.
  - apply build_lp_rows in Hr as [(j & f & _ & Hr)|[->|(nu & _ & ->)]];
      [|discriminate|destruct nu; discriminate].
    rewrite (named_increment _ _ _ _ _ Hr Hname) in Hsat. revert Hsat.
    unfold satisfies, row_value. simpl.
    destruct (increment params) as [| |inc|],
             (a ("x" ++ string_of_index index)) as [| |x|],
             (a ("z" ++ string_of_index index)) as [| |z|]; js_solve.
  - destruct (model_row_cases params r _ Hr (or_intror Hname)) as [j Hj].
    rewrite (named_usage_upper _ _ _ _ _ Hj Hname) in Hsat. revert Hsat.
    unfold satisfies, row_value. simpl.
    destruct (totalWeight params * 2)%js as [| |m|],
             (a ("x" ++ string_of_index index)) as [| |x|],
             (a ("y" ++ string_of_index index)) as [| |y|]; js_solve.
Qed.

(** ** What the returned recipe refers to *)

Section HeapReferences.

Import OnHeap HeapMix.
Local Close Scope string_scope.

Lemma bind_inv {A B : Type} (m : M A) (k : A -> M B) (h : heap)
    (r : B * heap) :
  bind m k h = Some r -> exists a h1, m h = Some (a, h1) /\ k a h1 = Some r.
Proof.
  unfold bind. destruct (m h) as [[a h1]|]; [eauto | discriminate].
Qed.

Lemma filterM_keeps_elements {A : Type} (p : A -> M bool) (ls : list A) :
  forall (h h' : heap) kept,
    filterM p ls h = Some (kept, h') -> forall l, In l kept -> In l ls.
Proof.
  induction ls as [|a ls IH]; intros h h' kept; cbn [filterM].
  - intros [= <- <-] l [].
  - intros (keep & h1 & _ & Hrest)%bind_inv.
    apply bind_inv in Hrest as (rest & h2 & Hrest & Hret).
    injection Hret as <- <-. intros l Hl.
    destruct keep; [destruct Hl as [<-|Hl]|];
      [now left | right; eapply IH; eassumption | right; eapply IH; eassumption].
Qed.

Lemma collect_loop_refs (result : SolveResult) (recipe : loc) (h0 : heap)
    (all ls : list loc) :
  h0 !! recipe = None ->
  (forall l, In l ls -> In l all) ->
  forall fs index (h : heap) items s,
    read_all (read_fertilizer h0) ls = Some fs ->
    h0 ⊆ h ->
    h !! recipe = Some (ArrayObj items) ->
    Forall (refers_into h0 h all) items ->
    exists h' items' s',
      forEachM_from (collect_at result recipe) index ls s h = Some (s', h')
      /\ h0 ⊆ h'
      /\ h' !! recipe = Some (ArrayObj items')
      /\ Forall (refers_into h0 h' all) items'.
Proof.
  intros Hnew. induction ls as [|l ls IH];
    intros Hall fs index h items s Hfs Hsub Hrecipe Hitems; simpl in Hfs.
  - exists h, items, s. auto.
  - destruct (read_fertilizer h0 l) as [fv|] eqn:Hl; [|discriminate].
    destruct (read_all (read_fertilizer h0) ls) as [rest|] eqn:Hrest; [|discriminate].
    assert (Hall' : forall l', In l' ls -> In l' all)
      by (intros l' Hl'; apply Hall; now right).
    cbn [forEachM_from]. unfold collect_at at 1.
    destruct (vars result !! ("x" +:+ string_of_index index)) as [x_val|];
      [destruct (truthy x_val && (x_val >? epsilon)%js) eqn:Hcond|].
    + pose proof (fresh_unused h) as Hfresh.
      set (li := fresh (dom h)) in *.
      set (h1 := <[li := RecipeIngredientObj l x_val]> h).
      set (h2 := <[recipe := ArrayObj (items ++ [li])]> h1).
      assert (Hne : li <> recipe) by congruence.
      assert (Hsub2 : h0 ⊆ h2).
      { apply insert_subseteq_r; [exact Hnew|].
        etrans; [exact Hsub|]. now apply insert_subseteq. }
      assert (Hstep :
        (do item <- alloc (RecipeIngredientObj l x_val);
         do items0 <- load_array recipe;
         do _ <- store recipe (ArrayObj (items0 ++ [item]));
         do fv0 <- load_fertilizer l;
         ret {| sumN := (sumN s + x_val * Fertilizer.n fv0 / 100)%js;
                sumP := (sumP s + x_val * Fertilizer.p fv0 / 100)%js;
                sumK := (sumK s + x_val * Fertilizer.k fv0 / 100)%js;
                sumWeight := (sumWeight s + x_val)%js |}) h
        = Some ({| sumN := (sumN s + x_val * Fertilizer.n fv / 100)%js;
                   sumP := (sumP s + x_val * Fertilizer.p fv / 100)%js;
                   sumK := (sumK s + x_val * Fertilizer.k fv / 100)%js;
                   sumWeight := (sumWeight s + x_val)%js |}, h2)).
      { rewrite (bind_run _ _ h h1 li) by reflexivity.
        rewrite (bind_run _ _ h1 h1 items).
        2:{ apply load_array_run. unfold h1. now rewrite lookup_insert_ne. }
        rewrite (bind_run _ _ h1 h2 tt).
        2:{ eapply store_run. unfold h1. rewrite lookup_insert_ne by exact Hne.
            exact Hrecipe. }
        rewrite (bind_run _ _ h2 h2 fv); [reflexivity|].
        apply load_fertilizer_run. eapply read_fertilizer_weaken; eassumption. }
      rewrite (bind_run _ _ _ _ _ Hstep).
      apply (IH Hall' rest (S index) h2 (items ++ [li])); auto.
      * unfold h2. apply lookup_insert_eq.
      * apply Forall_app. split.
        -- eapply Forall_impl; [exact Hitems|].
           intros item (Hnone & f & x & Hitem & Hf). split; [exact Hnone|].
           exists f, x. split; [|exact Hf].
           unfold h2, h1. rewrite !lookup_insert_ne by congruence. exact Hitem.
        -- constructor; [|constructor]. split.
           ++ eapply lookup_weaken_None; eassumption.
           ++ exists l, x_val. split; [|apply Hall; now left].
              unfold h2, h1. rewrite lookup_insert_ne by congruence.
              apply lookup_insert_eq.
    + rewrite (bind_run _ _ h h s) by reflexivity.
      now apply (IH Hall' rest (S index) h items).
    + rewrite (bind_run _ _ h h s) by reflexivity.
      now apply (IH Hall' rest (S index) h items).
Qed.

Lemma interpret_at_refs (result : SolveResult) (h : heap) (all kept : list loc)
    (fs : list Fertilizer.t) :
  read_all (read_fertilizer h) kept = Some fs ->
  (forall l, In l kept -> In l all) ->
  exists r h',
    interpret_at kept result h = Some (r, h')
    /\ h ⊆ h'
    /\ forall recipe, recipe_at r = Some recipe ->
         h !! recipe = None
         /\ exists items, h' !! recipe = Some (ArrayObj items)
                          /\ Forall (refers_into h h' all) items.
Proof.
  intros Hkept Hall. unfold interpret_at.
  destruct ((status result =? Glp.GLP_OPT)%Z || (status result =? Glp.GLP_FEAS)%Z).
  2:{ exists (failed (status_error_message (status result))), h.
      split; [reflexivity|]. split; [reflexivity|]. intros recipe [=]. }
  pose proof (fresh_unused h) as Hfresh.
  set (recipe := fresh (dom h)) in *.
  set (h1 := <[recipe := ArrayObj []]> h).
  rewrite (bind_run _ _ h h1 recipe) by reflexivity.
  destruct (collect_loop_refs result recipe h all kept Hfresh Hall fs 0%nat h1 []
              {| sumN := 0%js; sumP := 0%js; sumK := 0%js; sumWeight := 0%js |})
    as (h2 & items & s & Hloop & Hsub2 & Hrecipe & Hitems);
    [ exact Hkept | apply alloc_extends | apply lookup_insert_eq | constructor | ].
  unfold forEachM. rewrite (bind_run _ _ _ _ _ Hloop).
  rewrite (bind_run _ _ _ _ _ (load_array_run _ _ _ Hrecipe)).
  destruct (collect_loop result recipe h kept Hfresh fs 0%nat h1 []
              (Totals.mk [] 0%js 0%js 0%js 0%js)
              {| sumN := 0%js; sumP := 0%js; sumK := 0%js; sumWeight := 0%js |})
    as (h2' & items' & s' & Hloop' & _ & Hrecipe' & Hread & _);
    [ exact Hkept | apply alloc_extends | apply lookup_insert_eq
    | reflexivity | repeat split | ].
  rewrite Hloop in Hloop'. injection Hloop' as <- <-.
  rewrite Hrecipe in Hrecipe'. injection Hrecipe' as <-.
  destruct (filterM_read (read_item h2)
              (fun item => do '(_, x) <- load_item item; ret (x >? epsilon)%js)
              (fun item => (amount item >? epsilon)%js) h2) with (ls := items)
              (vs := Totals.recipe
                       (forEach_from (collect result) 0 fs
                          (Totals.mk [] 0%js 0%js 0%js 0%js)))
    as (final & Hfilter & _); [|exact Hread|].
  { intros l v (f & Hl & _)%read_item_Some.
    now rewrite (bind_run _ _ _ _ _ (load_item_run _ _ _ _ Hl)). }
  rewrite (bind_run _ _ _ _ _ Hfilter).
  pose proof (fresh_unused h2) as Hfresh2.
  set (final_loc := fresh (dom h2)) in *.
  set (h3 := <[final_loc := ArrayObj final]> h2).
  rewrite (bind_run _ _ h2 h3 final_loc) by reflexivity.
  eexists _, h3. split; [reflexivity|]. split.
  { etrans; [exact Hsub2|]. apply alloc_extends. }
  intros l [= <-]. split.
  { eapply lookup_weaken_None; eassumption. }
  exists final. split; [apply lookup_insert_eq|].
  apply Forall_forall. intros item Hitem%list_elem_of_In.
  apply (filterM_keeps_elements _ _ _ _ _ Hfilter) in Hitem.
  rewrite Forall_forall in Hitems.
  destruct (Hitems item) as (Hnone & f & x & Hobj & Hf);
    [now apply list_elem_of_In|].
  split; [exact Hnone|]. exists f, x. split; [|exact Hf].
  eapply lookup_weaken; [exact Hobj | apply alloc_extends].
Qed.

Lemma load_params_fertilizers (h : heap) (params : loc)
    (request : CalculateMixParams) :
  read_params h params = Some request ->
  exists fertilizers,
    request_fertilizers h params = fertilizers
    /\ load_params params h = Some ((request, fertilizers), h)
    /\ read_all (read_fertilizer h) fertilizers
       = Some (availableFertilizers request).
Proof.
  unfold read_params, read_array, load_params, request_fertilizers.
  destruct (h !! params) as [[tn tp tk tw tol inc array| | | |]|] eqn:Hp;
    try discriminate.
  destruct (h !! array) as [[|f|elems|m|f x]|] eqn:Ha; try discriminate.
  destruct (read_all (read_fertilizer h) elems) as [values|] eqn:Hv;
    [|discriminate].
  intros [= <-]. exists elems. split; [reflexivity|]. split; [|exact Hv].
  rewrite (bind_run _ _ _ _ _ (load_run _ _ _ Hp)).
  rewrite (bind_run _ _ _ _ _ (load_array_run _ _ _ Ha)).
  now rewrite (bind_run _ _ _ _ _ (mapM_load_fertilizer _ _ _ Hv)).
Qed.

(** X12.  On a heap that holds a request, the call returns, and when it
    returns a recipe, the recipe array and its entries are objects the
    call created, and every entry refers to one of the fertilizer
    objects of the request's array: to the caller's object itself, which
    is unchanged, not to a copy of it. *)
Theorem recipe_refers_to_request_fertilizers (GLPK : JsThrown + GlpkInstance)
    (h : heap) (params : loc) (request : CalculateMixParams) :
  read_params h params = Some request ->
  exists out h',
    calculateMix_heap GLPK params h = Some (out, h')
    /\ forall returned recipe,
         snd out = Resolved returned ->
         recipe_at returned = Some recipe ->
         h !! recipe = None
         /\ exists items,
              h' !! recipe = Some (ArrayObj items)
              /\ forall item, In item items ->
                   h !! item = None
                   /\ exists f x,
                        h' !! item = Some (RecipeIngredientObj f x)
                        /\ In f (request_fertilizers h params)
                        /\ h' !! f = h !! f.
Proof.
  intros Hparams.
  destruct (load_params_fertilizers _ _ _ Hparams)
    as (fertilizers & Hreq & Hload & Hall).
  rewrite Hreq. unfold calculateMix_heap.
  rewrite (bind_run _ _ _ _ _ Hload).
  destruct (filterM_read (read_fertilizer h)
              (fun f => do fv <- load_fertilizer f;
                        ret (zero_target_filter request fv))
              (zero_target_filter request) h) with (ls := fertilizers)
              (vs := availableFertilizers request)
    as (kept & Hfilter & Hkept); [|exact Hall|].
  { intros l v Hl. now rewrite (bind_run _ _ _ _ _ (load_fertilizer_run _ _ _ Hl)). }
  pose proof (filterM_keeps_elements _ _ _ _ _ Hfilter) as Hin.
  rewrite (bind_run _ _ _ _ _ Hfilter).
  set (h1 := <[fresh (dom h) := ArrayObj kept]> h).
  rewrite (bind_run _ _ h h1 (fresh (dom h))) by reflexivity.
  assert (Hsub1 : h ⊆ h1) by apply alloc_extends.
  destruct (length kept =? 0)%nat.
  { eexists _, h1. split; [reflexivity|]. intros ? ? [= <-] [=]. }
  destruct ((totalWeight request <=? 0)%js || (increment request <=? 0)%js).
  { eexists _, h1. split; [reflexivity|]. intros ? ? [= <-] [=]. }
  destruct GLPK as [err|glpk].
  { eexists _, h1. split; [reflexivity|]. intros ? ? [=]. }
  set (h2 := <[fresh (dom h1) := MapObj ∅]> h1).
  rewrite (bind_run _ _ h1 h2 (fresh (dom h1))) by reflexivity.
  destruct (remember_loop (fresh (dom h1)) kept 0%nat h2 ∅) as (entries & Hloop);
    [apply lookup_insert_eq|].
  unfold forEachM. rewrite (bind_run _ _ _ _ _ Hloop).
  set (h3 := <[fresh (dom h1) := MapObj entries]> h2).
  assert (Hsub3 : h ⊆ h3).
  { etrans; [exact Hsub1|]. unfold h3, h2. rewrite insert_insert_eq.
    apply alloc_extends. }
  assert (Hkept3 : read_all (read_fertilizer h3) kept
                   = Some (List.filter (zero_target_filter request)
                                       (availableFertilizers request))).
  { eapply read_all_weaken; [|exact Hkept].
    intros l v. now apply read_fertilizer_weaken. }
  rewrite (bind_run _ _ _ _ _ (mapM_load_fertilizer _ _ _ Hkept3)).
  destruct (solve glpk _) as [err|result].
  { eexists _, h3. split; [reflexivity|]. intros ? ? [= <-] [=]. }
  destruct (interpret_at_refs result h3 fertilizers kept _ Hkept3 Hin)
    as (r & h4 & Hrun & Hsub4 & Hrefs).
  rewrite (bind_run _ _ _ _ _ Hrun).
  eexists _, h4. split; [reflexivity|].
  intros returned recipe [= <-] Hrecipe.
  destruct (Hrefs recipe Hrecipe) as (Hnone & items & Hitems & Hall4).
  split; [eapply lookup_weaken_None; eassumption|].
  exists items. split; [exact Hitems|].
  intros item Hitem. rewrite Forall_forall in Hall4.
  destruct (Hall4 item) as (Hnone' & f & x & Hobj & Hf);
    [now apply list_elem_of_In|].
  split; [eapply lookup_weaken_None; eassumption|].
  exists f, x. split; [exact Hobj|]. split; [exact Hf|].
  assert (Hfv : exists fv, h !! f = Some (FertilizerObj fv)).
  { clear - Hall Hf. revert Hall. generalize (availableFertilizers request).
    induction fertilizers as [|l ls IH]; intros vs; [destruct Hf|].
    simpl. destruct (read_fertilizer h l) as [fv|] eqn:Hl; [|discriminate].
    destruct (read_all (read_fertilizer h) ls) as [rest|] eqn:Hrest; [|discriminate].
    intros _. destruct Hf as [<-|Hf].
    - exists fv. now apply read_fertilizer_Some.
    - now apply (IH Hf rest). }
  destruct Hfv as (fv & Hfv). rewrite Hfv.
  eapply lookup_weaken; [exact Hfv|]. etrans; eassumption.
Qed.

Lemma recipe_refers_to_request_fertilizers_witness :
  read_params sample_heap 1%positive = Some sample_params
  /\ exists out h',
      calculateMix_heap (inr (answering blend_result)) 1%positive sample_heap
      = Some (out, h')
      /\ forall returned recipe,
           snd out = Resolved returned ->
           recipe_at returned = Some recipe ->
           sample_heap !! recipe = None
           /\ exists items,
                h' !! recipe = Some (ArrayObj items)
                /\ forall item, In item items ->
                     sample_heap !! item = None
                     /\ exists f x,
                          h' !! item = Some (RecipeIngredientObj f x)
                          /\ In f (request_fertilizers sample_heap 1%positive)
                          /\ h' !! f = sample_heap !! f.
Proof.
  split; [vm_compute; reflexivity|].
  apply (recipe_refers_to_request_fertilizers (inr (answering blend_result))
           sample_heap 1%positive sample_params).
  vm_compute; reflexivity.
Defined.

End HeapReferences.

(** ** The failure about weight and increment *)

Lemma status_error_message_not_invalid (s : Z) :
  status_error_message s <> "Total weight and increment must be positive.".
Proof.
  unfold status_error_message.
  destruct (s =? Glp.GLP_NOFEAS)%Z; [discriminate|].
  destruct (s =? Glp.GLP_UNBND)%Z; [discriminate|].
  destruct (s =? Glp.GLP_UNDEF)%Z; discriminate.
Qed.

Lemma invalid_parameters_answer GLPK params :
  snd (calculateMix GLPK params)
  = Resolved (failure "Total weight and increment must be positive.")
  <-> survivors params <> []
      /\ ((totalWeight params <=? 0)%js = true
          \/ (increment params <=? 0)%js = true).
Proof.
  split.
  - intros Hres.
    destruct (calculateMix_cases GLPK params)
      as [(m & Heq & Hbad)|(Hs & Hw & Hi & [(err & _ & Heq)|(glpk & _ & Hcase)])].
    + destruct (survivors params) as [|f fs] eqn:Hsurv.
      * exfalso. revert Hres. unfold calculateMix. fold (survivors params).
        rewrite Hsurv. cbn [length Nat.eqb snd]. intros [=].
      * split; [discriminate|]. destruct Hbad as [Hbad|Hbad]; [discriminate|tauto].
    + rewrite Heq in Hres. discriminate.
    + cbv zeta in Hcase.
      destruct Hcase as [(err & _ & Heq)|(result & _ & Heq)];
        rewrite Heq in Hres; cbn [snd] in Hres.
      * injection Hres as Hres. discriminate.
      * destruct (interpret_cases params result) as [[_ Hi']|(_ & _ & m & Hi')];
          rewrite Hi' in Hres; [discriminate|].
        exfalso. revert Hi' Hres. unfold interpret.
        destruct ((status result =? Glp.GLP_OPT)%Z || (status result =? Glp.GLP_FEAS)%Z);
          [discriminate|].
        intros [= <-]. intros [= H].
        now apply status_error_message_not_invalid in H.
  - intros [Hs Hbad]. unfold calculateMix. fold (survivors params).
    destruct (survivors params) as [|f fs]; [congruence|]. cbn [length Nat.eqb].
    destruct Hbad as [-> | ->]; rewrite ?orb_true_r; reflexivity.
Qed.

(** X13.  The call answers "Total weight and increment must be positive."
    exactly when some fertilizer passes the filter and the total weight or
    the increment is at most zero; a total weight or an increment that is
    NaN passes the check. *)
Theorem invalid_parameters_iff GLPK params :
  (snd (calculateMix GLPK params)
   = Resolved (failure "Total weight and increment must be positive.")
   <-> survivors params <> []
       /\ ((totalWeight params <=? 0)%js = true
           \/ (increment params <=? 0)%js = true))
  /\ (totalWeight params = NaN -> (totalWeight params <=? 0)%js = false)
  /\ (increment params = NaN -> (increment params <=? 0)%js = false).
Proof.
  split; [apply invalid_parameters_answer|].
  split; intros ->; reflexivity.
Qed.

(** ** The mixer *)

Lemma getSafeNumber_not_nan S2N value (d : number) :
  is_nan d = false -> is_nan (Mixer.getSafeNumber S2N value d) = false.
Proof.
  intros Hd. unfold Mixer.getSafeNumber.
  destruct value as [v|[|c s]]; cbn [Number]; try exact Hd.
  - destruct (is_nan v) eqn:Hv; [exact Hd | exact Hv].
  - destruct (is_nan (S2N (String c s))) eqn:Hv; [exact Hd | exact Hv].
Qed.

Lemma not_nan_not_below_is_above (a : number) :
  is_nan a = false -> (a <=? 0)%js = false -> (a >? 0)%js = true.
Proof. destruct a; js_solve. Qed.

(** X14.  When the mixer's [handleCalculateMix] does anything to the
    outside, it is the call of [calculateMix] on the request built from
    the fields, and that request has a total weight and an increment
    above zero and targets that are not NaN, whatever text or number the
    fields hold; the state then shows the result of that call. *)
Theorem mixer_calls_with_checked_request S2N GLPK st :
  let outcome := Mixer.handleCalculateMix S2N GLPK st in
  let params := Mixer.request S2N st in
  fst (fst outcome) <> [] ->
  fst (fst outcome) = fst (calculateMix GLPK params)
  /\ (totalWeight params >? 0)%js = true
  /\ (increment params >? 0)%js = true
  /\ is_nan (targetN params) = false
  /\ is_nan (targetP params) = false
  /\ is_nan (targetK params) = false
  /\ availableFertilizers params = Mixer.selectedFertilizers st
  /\ match snd (calculateMix GLPK params) with
     | Resolved result =>
         Mixer.calculationResult (snd (fst outcome)) = Some result
         /\ snd outcome = None
     | Rejected err =>
         Mixer.calculationResult (snd (fst outcome)) = None
         /\ snd outcome = Some err
     end.
Proof.
  intros outcome params. subst outcome. unfold Mixer.handleCalculateMix.
  pose proof (getSafeNumber_not_nan S2N (Mixer.totalWeight st) 0%js eq_refl) as Hnw.
  pose proof (getSafeNumber_not_nan S2N (Mixer.increment st) 0%js eq_refl) as Hni.
  destruct (Mixer.getSafeNumber S2N (Mixer.totalWeight st) 0 <=? 0)%js eqn:Hw;
    [intros H; now destruct H|].
  destruct (Mixer.getSafeNumber S2N (Mixer.increment st) 0 <=? 0)%js eqn:Hi;
    [intros H; now destruct H|].
  fold params.
  destruct (calculateMix GLPK params) as [events [result|err]]; cbn [fst snd];
    intros _;
    (split; [reflexivity|]);
    (split; [now apply not_nan_not_below_is_above|]);
    (split; [now apply not_nan_not_below_is_above|]);
    (split; [now apply getSafeNumber_not_nan|]);
    (split; [now apply getSafeNumber_not_nan|]);
    (split; [now apply getSafeNumber_not_nan|]);
    (split; [reflexivity|]); split; reflexivity.
Qed.

(** X15.  The mixer never shows the failure "Total weight and increment
    must be positive." of [calculateMix]: its own checks of the weight and
    of the increment come first and have their own messages. *)
Theorem mixer_never_shows_the_inner_check S2N GLPK st :
  Mixer.calculationResult (snd (fst (Mixer.handleCalculateMix S2N GLPK st)))
  <> Some (failure "Total weight and increment must be positive.").
Proof.
  unfold Mixer.handleCalculateMix.
  destruct (Mixer.getSafeNumber S2N (Mixer.totalWeight st) 0 <=? 0)%js eqn:Hw;
    [cbn; discriminate|].
  destruct (Mixer.getSafeNumber S2N (Mixer.increment st) 0 <=? 0)%js eqn:Hi;
    [cbn; discriminate|].
  destruct (calculateMix GLPK (Mixer.request S2N st)) as [events [result|err]] eqn:Hc;
    cbn [fst snd Mixer.calculationResult Mixer.setCalculationResult]; [|discriminate].
  intros [= ->].
  assert (Hres : snd (calculateMix GLPK (Mixer.request S2N st))
                 = Resolved (failure "Total weight and increment must be positive."))
    by now rewrite Hc.
  apply invalid_parameters_answer in Hres as [_ [H|H]];
    cbn [Mixer.request totalWeight increment] in H; congruence.
Qed.

Lemma truthy_positive (w : number) : (w >? 0)%js = true -> truthy w = true.
Proof. destruct w; js_solve. Qed.

Lemma can_save_after_calculateMix GLPK params res :
  snd (calculateMix GLPK params) = Resolved res ->
  Mixer.can_save (Some res)
  = match recipe res with
    | Some (_ :: _) => true
    | _ => false
    end.
Proof.
  intros Hres.
  destruct (recipe res) as [r|] eqn:Hr.
  - destruct (calculateMix_success _ _ _ _ Hres Hr) as (glpk & result & _ & _ & _ & ->).
    injection Hr as <-.
    destruct (collected_totals params result) as (_ & _ & _ & HW).
    set (acc := collected params result) in *.
    assert (Habove : forall item, In item (Totals.recipe acc) ->
                                  (amount item >? epsilon)%js = true).
    { intros item Hitem. now apply collected_recipe in Hitem as (_ & _ & _ & H). }
    unfold Mixer.can_save, success_of. cbn [recipe actualNPK actualWeight error].
    rewrite HW. destruct (Totals.recipe acc) as [|item r] eqn:Hrec; [reflexivity|].
    cbn [negb andb]. apply truthy_positive, total_weight_positive; [discriminate|].
    exact Habove.
  - unfold Mixer.can_save. now rewrite Hr.
Qed.

(** X16.  After a calculation, Save Blend adds exactly one blend, at the
    end of the saved blends, when the calculation gave a recipe that is
    not empty: the blend has that recipe and the actual weight of the
    result as its total weight.  Otherwise (a failure, a rejected call, an
    empty recipe) it changes nothing and reports that it cannot save. *)
Theorem save_after_calculation S2N GLPK randomUUID localeString isoString st :
  let st1 := snd (fst (Mixer.handleCalculateMix S2N GLPK st)) in
  let saved := Mixer.handleSaveBlend S2N randomUUID localeString isoString st1 in
  match Mixer.calculationResult st1 with
  | Some {| recipe := Some (item :: r); actualWeight := Some w |} =>
      Mixer.pastBlends (fst saved)
      = List.app (Mixer.pastBlends st)
          [ Blend.mk randomUUID ("Blend " ++ localeString) isoString
              (NPK.mk (Mixer.getSafeNumber S2N (Mixer.targetN st) 0%js)
                      (Mixer.getSafeNumber S2N (Mixer.targetP st) 0%js)
                      (Mixer.getSafeNumber S2N (Mixer.targetK st) 0%js))
              w (item :: r) ]
      /\ snd saved = "Blend saved successfully!"
  | _ =>
      fst saved = st1
      /\ Mixer.pastBlends st1 = Mixer.pastBlends st
      /\ snd saved
         = "Cannot save blend: no successful calculation result found or missing NPK/Weight data."
  end.
Proof.
  intros st1 saved. subst saved st1. unfold Mixer.handleCalculateMix.
  destruct (Mixer.getSafeNumber S2N (Mixer.totalWeight st) 0 <=? 0)%js;
    [cbn; auto|].
  destruct (Mixer.getSafeNumber S2N (Mixer.increment st) 0 <=? 0)%js;
    [cbn; auto|].
  destruct (calculateMix GLPK (Mixer.request S2N st)) as [events [res|err]] eqn:Hc;
    cbn [fst snd]; [|cbn; auto].
  assert (Hres : snd (calculateMix GLPK (Mixer.request S2N st)) = Resolved res)
    by now rewrite Hc.
  pose proof (can_save_after_calculateMix _ _ _ Hres) as Hsave.
  destruct (resolved_cases GLPK (Mixer.request S2N st) res Hres)
    as [(result & ->)|(m & ->)].
  - unfold success_of in *. cbn [recipe] in Hsave.
    unfold Mixer.handleSaveBlend.
    cbn [Mixer.calculationResult Mixer.setCalculationResult recipe actualNPK
         actualWeight].
    rewrite Hsave.
    destruct (Totals.recipe (collected (Mixer.request S2N st) result)) as [|item r];
      cbn; auto.
  - cbn. auto.
Qed.

(** ** The saved blends *)

Lemma filter_other_ids {A : Type} (key : A -> string) (id : string) (l : list A) :
  (forall x, In x l -> key x <> id) ->
  List.filter (fun x => negb (String.eqb (key x) id)) l = l.
Proof.
  intros H. apply filter_all_true. intros x Hx.
  apply negb_true_iff, String.eqb_neq. now apply H.
Qed.

(** X17.  Saving a blend and then deleting the blend of the new identifier
    gives back the saved blends as they were, provided no earlier blend
    has that identifier; when Save Blend refuses to save, the deletion
    removes nothing. *)
Theorem save_then_delete_blend S2N randomUUID localeString isoString st :
  (forall b, In b (Mixer.pastBlends st) -> Blend.id b <> randomUUID) ->
  PastBlends.handleDeleteBlend true randomUUID
    (Mixer.pastBlends
       (fst (Mixer.handleSaveBlend S2N randomUUID localeString isoString st)))
  = Mixer.pastBlends st.
Proof.
  intros Hfresh. unfold PastBlends.handleDeleteBlend, Mixer.handleSaveBlend.
  destruct (Mixer.calculationResult st) as [res|];
    [|now apply filter_other_ids].
  destruct (recipe res) as [r|]; [|now apply filter_other_ids].
  destruct (actualNPK res) as [npk|]; [|now apply filter_other_ids].
  destruct (actualWeight res) as [w|]; [|now apply filter_other_ids].
  destruct (Mixer.can_save _); [|now apply filter_other_ids].
  cbn [fst Mixer.pastBlends Mixer.setPastBlends].
  rewrite List.filter_app, (filter_other_ids Blend.id) by exact Hfresh.
  cbn [List.filter Blend.id]. rewrite String.eqb_refl. cbn [negb].
  apply app_nil_r.
Qed.

(** ** The library and its dialog *)

Lemma handleChange_keeps_id S2N input value formState :
  Fertilizer.id (FertilizerForm.handleChange S2N input value formState)
  = Fertilizer.id formState.
Proof. now destruct input. Qed.

Lemma handleChanges_keeps_id S2N events :
  forall formState,
    Fertilizer.id (FertilizerForm.handleChanges S2N events formState)
    = Fertilizer.id formState.
Proof.
  unfold FertilizerForm.handleChanges.
  induction events as [|e events IH]; intros formState; cbn [fold_left];
    [reflexivity|].
  now rewrite IH, handleChange_keeps_id.
Qed.

Lemma nonempty_true (s : string) : nonempty s = true <-> s <> "".
Proof. unfold nonempty. rewrite negb_true_iff. apply String.eqb_neq. Qed.

(** X18.  Editing a fertilizer that has an identifier, whatever is typed
    into the dialog, and saving: the library has the same identifiers at
    the same places as before (none added, none removed, none moved); at
    every place that had the identifier of the edited fertilizer stands
    the state of the form, every other place is unchanged; and the dialog
    is closed. *)
Theorem edit_keeps_identifiers S2N now f events st :
  Fertilizer.id f <> "" ->
  let st' := edit_and_save S2N now (Some f) events st in
  let edited := FertilizerForm.handleChanges S2N events f in
  List.map Fertilizer.id (FertilizerLibrary.fertilizers st')
  = List.map Fertilizer.id (FertilizerLibrary.fertilizers st)
  /\ (forall i g,
        FertilizerLibrary.fertilizers st !! i = Some g ->
        FertilizerLibrary.fertilizers st' !! i
        = Some (if String.eqb (Fertilizer.id g) (Fertilizer.id f)
                then edited else g))
  /\ Fertilizer.id edited = Fertilizer.id f
  /\ FertilizerLibrary.open st' = false.
Proof.
  intros Hid st' edited. subst st' edited.
  unfold edit_and_save, FertilizerLibrary.handleEdit, FertilizerLibrary.handleSave.
  cbn [FertilizerLibrary.selectedFertilizer FertilizerForm.initial
       FertilizerLibrary.fertilizers].
  set (edited := FertilizerForm.handleChanges S2N events f).
  assert (He : Fertilizer.id edited = Fertilizer.id f)
    by apply handleChanges_keeps_id.
  rewrite He. apply nonempty_true in Hid. rewrite Hid.
  cbn [FertilizerLibrary.fertilizers FertilizerLibrary.open].
  split; [|split; [|split; reflexivity]].
  - rewrite List.map_map. apply List.map_ext. intros g.
    destruct (String.eqb (Fertilizer.id g) (Fertilizer.id f)) eqn:Hg; [|reflexivity].
    apply String.eqb_eq in Hg. congruence.
  - intros i g Hi.
    change (List.map ?h ?l) with (h <$> l).
    rewrite list_lookup_fmap, Hi. reflexivity.
Qed.

Lemma add_appends_one_aux S2N now events st :
  FertilizerLibrary.fertilizers (edit_and_save S2N now None events st)
  = List.app (FertilizerLibrary.fertilizers st)
      [ Fertilizer.mk (string_of_time now)
          (Fertilizer.name (FertilizerForm.handleChanges S2N events
                              FertilizerForm.emptyFertilizer))
          (Fertilizer.n (FertilizerForm.handleChanges S2N events
                           FertilizerForm.emptyFertilizer))
          (Fertilizer.p (FertilizerForm.handleChanges S2N events
                           FertilizerForm.emptyFertilizer))
          (Fertilizer.k (FertilizerForm.handleChanges S2N events
                           FertilizerForm.emptyFertilizer)) ].
Proof.
  unfold edit_and_save, FertilizerLibrary.handleAdd, FertilizerLibrary.handleSave.
  cbn [FertilizerLibrary.selectedFertilizer FertilizerForm.initial
       FertilizerLibrary.fertilizers].
  rewrite handleChanges_keeps_id. reflexivity.
Qed.

(** X19.  Adding a fertilizer through the dialog appends exactly one entry
    to the library and leaves the earlier entries as they are: the new
    entry has the name and the percentages of the form and the time of
    saving, in decimal, as its identifier. *)
Theorem add_appends_one S2N now events st :
  let st' := edit_and_save S2N now None events st in
  let typed := FertilizerForm.handleChanges S2N events FertilizerForm.emptyFertilizer in
  FertilizerLibrary.fertilizers st'
  = List.app (FertilizerLibrary.fertilizers st)
      [ Fertilizer.mk (string_of_time now) (Fertilizer.name typed)
                      (Fertilizer.n typed) (Fertilizer.p typed) (Fertilizer.k typed) ]
  /\ length (FertilizerLibrary.fertilizers st')
     = S (length (FertilizerLibrary.fertilizers st))
  /\ FertilizerLibrary.open st' = false.
Proof.
  intros st' typed. subst st' typed.
  unfold edit_and_save, FertilizerLibrary.handleAdd, FertilizerLibrary.handleSave.
  cbn [FertilizerLibrary.selectedFertilizer FertilizerForm.initial
       FertilizerLibrary.fertilizers].
  rewrite handleChanges_keeps_id.
  cbn [FertilizerForm.emptyFertilizer Fertilizer.id nonempty String.eqb negb
       FertilizerLibrary.fertilizers FertilizerLibrary.open].
  split; [reflexivity|]. split; [|reflexivity].
  rewrite length_app. simpl. lia.
Qed.

(** X20.  Adding a fertilizer and then deleting the fertilizer of the new
    identifier gives back the library's list as it was, provided no
    earlier fertilizer has that identifier; a deletion that is not
    confirmed changes nothing. *)
Theorem add_then_delete S2N now events st :
  (forall g, In g (FertilizerLibrary.fertilizers st) ->
             Fertilizer.id g <> string_of_time now) ->
  FertilizerLibrary.fertilizers
    (FertilizerLibrary.handleDelete true (string_of_time now)
       (edit_and_save S2N now None events st))
  = FertilizerLibrary.fertilizers st
  /\ FertilizerLibrary.handleDelete false (string_of_time now)
       (edit_and_save S2N now None events st)
     = edit_and_save S2N now None events st.
Proof.
  intros Hfresh. split; [|reflexivity].
  unfold FertilizerLibrary.handleDelete. cbn [FertilizerLibrary.fertilizers].
  rewrite add_appends_one_aux.
  rewrite List.filter_app, (filter_other_ids Fertilizer.id) by exact Hfresh.
  cbn [List.filter Fertilizer.id]. rewrite String.eqb_refl. cbn [negb].
  apply app_nil_r.
Qed.

(** ** The text of a number field *)

Lemma append_cons (c : Ascii.ascii) (a r : string) :
  String c a ++ r = String c (a ++ r).
Proof. reflexivity. Qed.

Lemma append_empty_r (a : string) : a ++ "" = a.
Proof.
  induction a as [|c a IH]; [reflexivity|]. now rewrite append_cons, IH.
Qed.

Lemma skip_digits_split (s : string) :
  exists a,
    all_digits a = true /\ s = a ++ Mixer.skip_digits s
    /\ forall c r, Mixer.skip_digits s = String c r -> Mixer.is_digit c = false.
Proof.
  induction s as [|c s (a & Ha & Hs & Hnext)]; cbn [Mixer.skip_digits].
  - exists "". split; [reflexivity|]. split; [reflexivity|]. discriminate.
  - destruct (Mixer.is_digit c) eqn:Hc.
    + exists (String c a). cbn [all_digits]. rewrite Hc, Ha.
      split; [reflexivity|]. split; [|exact Hnext].
      rewrite append_cons. now rewrite <- Hs.
    + exists "". split; [reflexivity|]. split; [reflexivity|].
      now intros c' r [= <- _].
Qed.

Lemma skip_digits_app (a r : string) :
  all_digits a = true -> Mixer.skip_digits (a ++ r) = Mixer.skip_digits r.
Proof.
  induction a as [|c a IH]; [reflexivity|].
  cbn [all_digits]. intros [Hc Ha]%andb_true_iff.
  rewrite append_cons. cbn [Mixer.skip_digits]. rewrite Hc. now apply IH.
Qed.

Lemma skip_digits_all (a : string) :
  all_digits a = true -> Mixer.skip_digits a = "".
Proof.
  intros Ha. rewrite <- (append_empty_r a) at 1. now rewrite skip_digits_app.
Qed.

Lemma skip_digits_not_digit (c : Ascii.ascii) (r : string) :
  Mixer.is_digit c = false -> Mixer.skip_digits (String c r) = String c r.
Proof. intros Hc. cbn [Mixer.skip_digits]. now rewrite Hc. Qed.

Lemma number_text_iff (value : string) :
  Mixer.number_text value = true
  <-> exists a b,
        all_digits a = true /\ all_digits b = true
        /\ (value = a \/ value = a ++ "." ++ b).
Proof.
  unfold Mixer.number_text. rewrite String.eqb_eq. split.
  - intros Hend.
    destruct (skip_digits_split value) as (a & Ha & Hv & Hnext).
    destruct (Mixer.skip_digits value) as [|c r] eqn:Hr.
    + exists a, "". rewrite Hv. split; [exact Ha|]. split; [reflexivity|].
      left. apply append_empty_r.
    + pose proof (Hnext c r eq_refl) as Hc. cbn [Mixer.skip_dot] in Hend.
      destruct (Ascii.eqb c (Ascii.ascii_of_nat 46)) eqn:Hdot.
      * apply Ascii.eqb_eq in Hdot. subst c.
        destruct (skip_digits_split r) as (b & Hb & Hrb & _).
        rewrite Hend, append_empty_r in Hrb. exists a, b.
        split; [exact Ha|]. split; [exact Hb|]. right. rewrite Hv, Hrb.
        reflexivity.
      * rewrite (skip_digits_not_digit c r Hc) in Hend. discriminate.
  - intros (a & b & Ha & Hb & [-> | ->]).
    + rewrite (skip_digits_all a Ha). reflexivity.
    + rewrite (skip_digits_app a _ Ha).
      change ("." ++ b) with (String (Ascii.ascii_of_nat 46) b).
      rewrite skip_digits_not_digit by reflexivity.
      cbn [Mixer.skip_dot]. rewrite Ascii.eqb_refl.
      now apply skip_digits_all.
Qed.

(** X21.  A number field of the mixer takes the text of a change event
    exactly when the text is digits, or digits, one dot and digits (either
    run of digits may be empty, so the empty text and a lone dot are
    taken); for any other text, one with a sign, a letter or a space, the
    field keeps the value it had. *)
Theorem number_field_takes_decimal_text current value :
  let decimal :=
    exists a b, all_digits a = true /\ all_digits b = true
                /\ (value = a \/ value = a ++ "." ++ b) in
  (decimal -> Mixer.handleNumberInputChange current value = StringValue value)
  /\ (~ decimal -> Mixer.handleNumberInputChange current value = current).
Proof.
  intros decimal. subst decimal. unfold Mixer.handleNumberInputChange. split.
  - intros H%number_text_iff. rewrite H. now rewrite orb_true_r.
  - intros H.
    destruct (Mixer.number_text value) eqn:Hn.
    + exfalso. apply H. now apply number_text_iff.
    + destruct (String.eqb value "") eqn:He; [|reflexivity].
      apply String.eqb_eq in He. subst value. discriminate.
Qed.

(** ** These statements at the sample data *)

Lemma model_sizes_witness :
  In (CallSolve sample_model)
     (fst (calculateMix (inr (answering blend_result)) sample_params))
  /\ length (Objective.vars (LP.objective sample_model)) = 3%nat
  /\ length (LP.binaries sample_model) = 3%nat
  /\ length (LP.generals sample_model) = 3%nat
  /\ length (LP.bounds sample_model) = 9%nat
  /\ length (LP.subjectTo sample_model)
     = (3 * 3 + 1 + length (tolerance_rows sample_params (survivors sample_params)))%nat
  /\ (length (LP.subjectTo sample_model) <= 3 * 3 + 4)%nat.
Proof.
  split; [exact sample_model_called|].
  apply (model_sizes (inr (answering blend_result)) sample_params sample_model).
  exact sample_model_called.
Defined.

Lemma result_is_success_or_failure_witness :
  snd (calculateMix (inr (answering blend_result)) sample_params)
  = Resolved sample_success
  /\ ((exists r npk w,
          sample_success = {| recipe := Some r; error := None;
                              actualNPK := Some npk; actualWeight := Some w |})
      \/ (exists message, sample_success = failure message)).
Proof.
  split; [vm_compute; reflexivity|].
  apply (result_is_success_or_failure (inr (answering blend_result)) sample_params
           sample_success).
  vm_compute; reflexivity.
Defined.

Lemma other_status_is_failure_witness :
  exists message,
    snd (calculateMix (inr (answering infeasible_result)) sample_params)
    = Resolved (failure message)
    /\ (status infeasible_result = Glp.GLP_NOFEAS ->
        message = "No feasible solution could be found for the given parameters. Try adjusting NPK targets, tolerance, or available fertilizers.")
    /\ (status infeasible_result = Glp.GLP_UNBND ->
        message = "The problem is unbounded (variables can increase indefinitely without violating constraints).")
    /\ (status infeasible_result = Glp.GLP_UNDEF ->
        message = "The problem is undefined (e.g., due to contradictory constraints or numerical instability).")
    /\ (status infeasible_result <> Glp.GLP_NOFEAS ->
        status infeasible_result <> Glp.GLP_UNBND ->
        status infeasible_result <> Glp.GLP_UNDEF ->
        message = "Solver finished with status: "
                  ++ string_of_status (status infeasible_result)).
Proof.
  apply (other_status_is_failure (answering infeasible_result) sample_params
           infeasible_result).
  - vm_compute; discriminate.
  - reflexivity.
  - reflexivity.
  - reflexivity.
  - vm_compute; discriminate.
  - vm_compute; discriminate.
Defined.

Lemma recipe_is_subsequence_witness :
  snd (calculateMix (inr (answering blend_result)) sample_params)
  = Resolved sample_success
  /\ sublist (List.map fertilizer sample_recipe) (availableFertilizers sample_params)
  /\ (length sample_recipe <= length (availableFertilizers sample_params))%nat
  /\ (NoDup (availableFertilizers sample_params) ->
      NoDup (List.map fertilizer sample_recipe)).
Proof.
  split; [vm_compute; reflexivity|].
  apply (recipe_is_subsequence (inr (answering blend_result)) sample_params
           sample_success sample_recipe).
  - vm_compute; reflexivity.
  - reflexivity.
Defined.

Lemma empty_recipe_iff_zero_weight_witness :
  snd (calculateMix (inr (answering blend_result)) sample_params)
  = Resolved sample_success
  /\ (sample_recipe = [] <-> (Fin 1000 === 0)%js = true)
  /\ (sample_recipe <> [] -> (Fin 1000 >? 0)%js = true)
  /\ (sample_recipe = [] -> sample_npk = NPK.mk 0%js 0%js 0%js).
Proof.
  split; [vm_compute; reflexivity|].
  apply (empty_recipe_iff_zero_weight (inr (answering blend_result)) sample_params
           sample_success sample_recipe (Fin 1000) sample_npk).
  - vm_compute; reflexivity.
  - reflexivity.
  - reflexivity.
  - reflexivity.
Defined.

Lemma dosing_row_0_in_sample_model : In dosing_row_0 (LP.subjectTo sample_model).
Proof. vm_compute. left. reflexivity. Qed.

Lemma dosing_and_unused_rows_witness :
  satisfies blend_assignment dosing_row_0 = true
  /\ (Constraint.name dosing_row_0 = "c_increment_" ++ string_of_index 0 ->
      is_finite (increment sample_params) = true ->
      is_finite (blend_assignment ("z" ++ string_of_index 0)) = true ->
      (blend_assignment ("x" ++ string_of_index 0)
       === increment sample_params * blend_assignment ("z" ++ string_of_index 0))%js
      = true)
  /\ (Constraint.name dosing_row_0 = "c_bigM_upper_" ++ string_of_index 0 ->
      (blend_assignment ("y" ++ string_of_index 0) === 0)%js = true ->
      (blend_assignment ("x" ++ string_of_index 0) <=? 0)%js = true).
Proof.
  split; [vm_compute; reflexivity|].
  apply (dosing_and_unused_rows (inr (answering blend_result)) sample_params
           sample_model 0 dosing_row_0 blend_assignment).
  - exact sample_model_called.
  - exact dosing_row_0_in_sample_model.
  - vm_compute; reflexivity.
Defined.

Lemma mixer_calls_with_checked_request_witness :
  fst (fst (Mixer.handleCalculateMix integer_text
              (inr (answering blend_result)) sample_mixer)) <> []
  /\ (totalWeight (Mixer.request integer_text sample_mixer) >? 0)%js = true
  /\ (increment (Mixer.request integer_text sample_mixer) >? 0)%js = true.
Proof.
  assert (H : fst (fst (Mixer.handleCalculateMix integer_text
                          (inr (answering blend_result)) sample_mixer)) <> [])
    by (vm_compute; discriminate).
  split; [exact H|].
  pose proof (mixer_calls_with_checked_request integer_text
                (inr (answering blend_result)) sample_mixer H) as (_ & Hw & Hi & _).
  split; [exact Hw | exact Hi].
Defined.

Lemma save_then_delete_blend_witness :
  (forall b, In b (Mixer.pastBlends calculated_mixer) -> Blend.id b <> "b7e3")
  /\ PastBlends.handleDeleteBlend true "b7e3"
       (Mixer.pastBlends
          (fst (Mixer.handleSaveBlend integer_text "b7e3" "1/11/2026" "2026-11-01"
                  calculated_mixer)))
     = Mixer.pastBlends calculated_mixer.
Proof.
  assert (H : forall b, In b (Mixer.pastBlends calculated_mixer) ->
                        Blend.id b <> "b7e3")
    by (intros b Hb; vm_compute in Hb; destruct Hb).
  split; [exact H|].
  apply (save_then_delete_blend integer_text "b7e3" "1/11/2026" "2026-11-01"
           calculated_mixer H).
Defined.

Lemma edit_keeps_identifiers_witness :
  Fertilizer.id urea <> ""
  /\ List.map Fertilizer.id
       (FertilizerLibrary.fertilizers
          (edit_and_save integer_text 1700000000000 (Some urea)
             [(FertilizerForm.n, "45")] sample_library))
     = List.map Fertilizer.id (FertilizerLibrary.fertilizers sample_library).
Proof.
  assert (H : Fertilizer.id urea <> "") by (vm_compute; discriminate).
  split; [exact H|].
  apply (edit_keeps_identifiers integer_text 1700000000000 urea
           [(FertilizerForm.n, "45")] sample_library H).
Defined.

Lemma add_then_delete_witness :
  (forall g, In g (FertilizerLibrary.fertilizers sample_library) ->
             Fertilizer.id g <> string_of_time 1700000000000)
  /\ FertilizerLibrary.fertilizers
       (FertilizerLibrary.handleDelete true (string_of_time 1700000000000)
          (edit_and_save integer_text 1700000000000 None
             [(FertilizerForm.name, "Compost"); (FertilizerForm.n, "2")]
             sample_library))
     = FertilizerLibrary.fertilizers sample_library.
Proof.
  assert (H : forall g, In g (FertilizerLibrary.fertilizers sample_library) ->
                        Fertilizer.id g <> string_of_time 1700000000000).
  { intros g [<-|[<-|[<-|[]]]]; vm_compute; discriminate. }
  split; [exact H|].
  apply (add_then_delete integer_text 1700000000000
           [(FertilizerForm.name, "Compost"); (FertilizerForm.n, "2")]
           sample_library H).
Defined.

(** The mixer on the sample: the calculation shows the blend, and saving
    it stores one blend of 1000 g with the three ingredients. *)
Example sample_mixer_session :
  Mixer.calculationResult calculated_mixer = Some sample_success
  /\ List.map (fun b => (Blend.id b, Blend.totalWeight b, length (Blend.recipe b)))
       (Mixer.pastBlends
          (fst (Mixer.handleSaveBlend integer_text "b7e3" "1/11/2026" "2026-11-01"
                  calculated_mixer)))
     = [("b7e3", Fin 1000, 3%nat)].
Proof. split; vm_compute; reflexivity. Qed.

Example text_fields :
  Mixer.handleNumberInputChange (NumberValue (Fin 10)) "12.5" = StringValue "12.5"
  /\ Mixer.handleNumberInputChange (NumberValue (Fin 10)) "-3" = NumberValue (Fin 10)
  /\ Mixer.handleNumberInputChange (NumberValue (Fin 10)) "1e3" = NumberValue (Fin 10)
  /\ Mixer.handleNumberInputChange (NumberValue (Fin 10)) "." = StringValue "."
  /\ Mixer.getSafeNumber integer_text (StringValue "") (Fin 7) = Fin 7
  /\ Mixer.getSafeNumber integer_text (StringValue "250") 0%js = Fin 250.
Proof. repeat split; vm_compute; reflexivity. Qed.

(** * Properties that hold whatever the arithmetic

    What is proved here is proved of [Rounded.calculateMix] for every
    arithmetic, so for the binary64 arithmetic of a JavaScript engine as
    for the exact one. *)

(** ** The problem object as a whole *)

(** Over the exact arithmetic the function is the one embedded first. *)

Lemma calculateMix_exact GLPK params :
  Rounded.calculateMix Rounded.exact_arithmetic GLPK params
  = calculateMix GLPK params.
Proof. reflexivity. Qed.

Lemma rounded_declare_lp A tw inc M (l : list Fertilizer.t) :
  forall index st,
    lp (forEach_from (Rounded.declare_fertilizer A tw inc M) index l st)
    = LP.mk (LP.name (lp st))
        (Objective.mk
           (Objective.direction (LP.objective (lp st)))
           (Objective.name (LP.objective (lp st)))
           (List.app
              (Objective.vars (LP.objective (lp st)))
              (imap (fun j _ => Coef.mk ("y" ++ string_of_index (index + j)) 1%js) l)))
        (List.app
           (LP.subjectTo (lp st))
           (concat (imap (fun j _ => Rounded.rows_of_index A inc M (index + j)) l)))
        (List.app
           (LP.bounds (lp st))
           (concat (imap (fun j _ => Rounded.declared_bounds A tw inc (index + j)) l)))
        (List.app
           (LP.binaries (lp st))
           (imap (fun j _ => "y" ++ string_of_index (index + j)) l))
        (List.app
           (LP.generals (lp st))
           (imap (fun j _ => "z" ++ string_of_index (index + j)) l)).
Proof.
  induction l as [|f l IH]; intros index st.
  - cbn [forEach_from imap concat]. rewrite !app_nil_r.
    now destruct (lp st) as [? [] ? ? ? ?].
  - cbn [forEach_from]. rewrite IH. cbn [imap concat].
    unfold compose.
    rewrite !(imap_shift (fun i (_ : Fertilizer.t) =>
                Coef.mk ("y" ++ string_of_index i) 1%js)).
    rewrite !(imap_shift (fun i (_ : Fertilizer.t) => Rounded.rows_of_index A inc M i)).
    rewrite !(imap_shift (fun i (_ : Fertilizer.t) => Rounded.declared_bounds A tw inc i)).
    rewrite !(imap_shift (fun i (_ : Fertilizer.t) => "y" ++ string_of_index i)).
    rewrite !(imap_shift (fun i (_ : Fertilizer.t) => "z" ++ string_of_index i)).
    rewrite !Nat.add_0_r.
    unfold Rounded.declare_fertilizer, Rounded.rows_of_index, Rounded.declared_bounds.
    cbn [lp LP.push_objective_var LP.push_binary LP.push_general LP.push_bound
         LP.push_subjectTo LP.name LP.objective LP.subjectTo LP.bounds LP.binaries
         LP.generals Objective.direction Objective.name Objective.vars app].
    rewrite <- !app_assoc. reflexivity.
Qed.

Lemma rounded_build_lp_closed_form A params fs :
  lp (Rounded.build_lp A params fs) = Rounded.closed_form_lp A params fs.
Proof.
  unfold Rounded.build_lp. cbv zeta.
  pose proof (necessary_iff_emitted params fs Nitrogen) as HN.
  pose proof (necessary_iff_emitted params fs Phosphorus) as HP.
  pose proof (necessary_iff_emitted params fs Potassium) as HK.
  cbn [target percentage] in HN, HP, HK. rewrite HN, HP, HK. clear HN HP HK.
  unfold forEach. rewrite rounded_declare_lp.
  unfold Rounded.closed_form_lp, Rounded.tolerance_rows. cbn [flat_map].
  destruct (spec_tolerance_row_emitted params fs Nitrogen),
           (spec_tolerance_row_emitted params fs Phosphorus),
           (spec_tolerance_row_emitted params fs Potassium);
    unfold LP.push_subjectTo;
    cbn [app LP.name LP.objective LP.subjectTo LP.bounds LP.binaries LP.generals
         Objective.direction Objective.name Objective.vars empty_lp lp Nat.add];
    rewrite <- ?app_assoc; reflexivity.
Qed.

Lemma rounded_calculateMix_cases A GLPK params :
  (exists message,
      Rounded.calculateMix A GLPK params = ([], Resolved (failure message))
      /\ (survivors params = []
          \/ (totalWeight params <=? 0)%js = true
          \/ (increment params <=? 0)%js = true))
  \/ (survivors params <> []
      /\ (totalWeight params <=? 0)%js = false
      /\ (increment params <=? 0)%js = false
      /\ ((exists err, GLPK = inl err
             /\ Rounded.calculateMix A GLPK params = ([CallGLPK], Rejected err))
          \/ (exists glpk,
                GLPK = inr glpk
                /\ let model := Rounded.closed_form_lp A params (survivors params) in
                   (exists err, solve glpk model = inl err
                      /\ Rounded.calculateMix A GLPK params
                         = ([CallGLPK; CallSolve model; ConsoleError err],
                            Resolved
                              (failure
                                 ("An unexpected error occurred during calculation: "
                                  ++ cause err))))
                   \/ (exists result, solve glpk model = inr result
                         /\ Rounded.calculateMix A GLPK params
                            = ([CallGLPK; CallSolve model],
                               Resolved (Rounded.interpret A (survivors params) result)))))).
Proof.
  unfold Rounded.calculateMix. fold (survivors params).
  rewrite rounded_build_lp_closed_form.
  destruct (survivors params) as [|f fs] eqn:Hs; simpl.
  { left. eexists. split; [reflexivity|auto]. }
  destruct (totalWeight params <=? 0)%js eqn:Hw; simpl.
  { left. eexists. split; [reflexivity|auto]. }
  destruct (increment params <=? 0)%js eqn:Hi; simpl.
  { left. eexists. split; [reflexivity|auto]. }
  right. repeat split; [discriminate|].
  destruct GLPK as [err|glpk]; [left; eauto|].
  right. exists glpk. split; [reflexivity|]. cbv zeta.
  destruct (solve glpk _) as [err|result] eqn:Hsolve; [left|right]; eauto.
Qed.

(** X1.  Whatever the arithmetic, the problem handed to the solver is,
    field by field: the name and a minimisation of the sum of the
    indicators [y_i], one term of coefficient 1 per surviving fertilizer in
    order; per index the three rows of dosing and linking, with the
    coefficients [-increment], [-M] for the computed [M = totalWeight * 2]
    and [-epsilon]; then the total weight row, then the tolerance rows that
    are emitted, in the order N, P, K; per index the bounds of [x_i] in
    [0, totalWeight], [z_i] in [0, floor q] for the computed quotient
    [q = totalWeight / increment], and [y_i] in [0, 1]; the [y_i] as
    binaries and the [z_i] as general integers.  The computed numbers are
    those of the arithmetic: in binary64 the bound of [z_i] for 0.3 in
    steps of 0.1 is 2. *)
Theorem model_in_closed_form (A : Rounded.Arithmetic) GLPK params model :
  In (CallSolve model) (fst (Rounded.calculateMix A GLPK params)) ->
  model = Rounded.closed_form_lp A params (survivors params).
Proof.
  intros Hm.
  destruct (rounded_calculateMix_cases A GLPK params)
    as [(m & Heq & _)|(_ & _ & _ & [(err & _ & Heq)|(glpk & _ & Hsolve)])].
  - rewrite Heq in Hm. destruct Hm.
  - rewrite Heq in Hm. destruct Hm as [H|[]]. discriminate.
  - cbv zeta in Hsolve.
    destruct Hsolve as [(err & _ & Heq)|(result & _ & Heq)]; rewrite Heq in Hm;
      cbn [fst In] in Hm.
    + destruct Hm as [H|[H|[H|[]]]]; try discriminate. now injection H as <-.
    + destruct Hm as [H|[H|[]]]; try discriminate. now injection H as <-.
Qed.
(** ** The amounts of the recipe and the total weight *)

Lemma rounded_collect_cases A result f index acc :
  (exists x_val,
      vars result !! ("x" ++ string_of_index index) = Some x_val
      /\ truthy x_val && (x_val >? Rounded.epsilon A)%js = true
      /\ Totals.recipe (Rounded.collect A result f index acc)
         = (Totals.recipe acc ++ [{| fertilizer := f; amount := x_val |}])%list)
  \/ ((forall x_val, vars result !! ("x" ++ string_of_index index) = Some x_val ->
                     truthy x_val && (x_val >? Rounded.epsilon A)%js = false)
      /\ Rounded.collect A result f index acc = acc).
Proof.
  unfold Rounded.collect.
  destruct (vars result !! ("x" ++ string_of_index index)) as [x_val|] eqn:Hx.
  - destruct (truthy x_val && (x_val >? Rounded.epsilon A)%js) eqn:Hgt.
    + left. exists x_val. auto.
    + right. split; [|reflexivity]. intros ? [= <-]. assumption.
  - right. split; [discriminate | reflexivity].
Qed.

Lemma total_weight_snoc (r : list RecipeIngredient) (item : RecipeIngredient) :
  total_weight (r ++ [item]) = (total_weight r + amount item)%js.
Proof. unfold total_weight. now rewrite fold_left_app. Qed.

Lemma row_value_fold_step (a : Assignment) (s q : Q) (v : string) :
  a v = Fin q ->
  (Fin s + 1 * a v)%js = Fin (s + 1 * q).
Proof. now intros ->. Qed.

Lemma dropped_below (q e : Q) :
  (0 <= q)%Q -> (0 <= e)%Q ->
  truthy (Fin q) && (Fin q >? Fin e)%js = false -> (q <= e)%Q.
Proof.
  intros Hq He. rewrite andb_false_iff. intros [H|H]; revert H.
  - cbn [truthy]. rewrite negb_false_iff, Qeq_bool_iff. intros ->. exact He.
  - js_solve.
Qed.

(** The sum of the reported amounts and the sum of the amounts of the
    recipe the second loop collects, side by side: each index adds its
    amount to the first, and to the second unless the amount is at most
    epsilon. *)
Lemma recipe_weight_bounds A result (e : Q) (l : list Fertilizer.t) :
  Rounded.epsilon A = Fin e -> (0 <= e)%Q ->
  forall index (s w : Q) acc,
    (forall j f, l !! j = Some f ->
                 exists q, vars result !! ("x" ++ string_of_index (index + j))
                           = Some (Fin q) /\ (0 <= q)%Q) ->
    total_weight (Totals.recipe acc) = Fin w ->
    (forall item, In item (Totals.recipe acc) ->
                  (amount item >? Rounded.epsilon A)%js = true) ->
    exists s' w',
      fold_left (fun t c => (t + Coef.coef c * assignment_of result (Coef.name c))%js)
                (imap (fun j (_ : Fertilizer.t) =>
                         Coef.mk ("x" ++ string_of_index (index + j)) 1%js) l)
                (Fin s) = Fin s'
      /\ total_weight
           (Totals.recipe (forEach_from (Rounded.collect A result) index l acc))
         = Fin w'
      /\ (forall item,
             In item (Totals.recipe
                        (forEach_from (Rounded.collect A result) index l acc)) ->
             (amount item >? Rounded.epsilon A)%js = true)
      /\ (w' - w <= s' - s)%Q
      /\ (s' - s - inject_Z (Z.of_nat (length l)) * e <= w' - w)%Q.
Proof.
  intros He He0.
  induction l as [|f l IH]; intros index s w acc Hvars Hw Habove.
  - exists s, w. cbn [imap fold_left forEach_from length].
    change (inject_Z (Z.of_nat 0)) with 0%Q.
    split; [reflexivity|]. split; [exact Hw|]. split; [exact Habove|]. split; lra.
  - destruct (Hvars 0%nat f eq_refl) as (q & Hq & Hq0).
    rewrite Nat.add_0_r in Hq.
    cbn [imap fold_left forEach_from]. unfold compose.
    rewrite (imap_shift (fun i (_ : Fertilizer.t) =>
               Coef.mk ("x" ++ string_of_index i) 1%js)).
    rewrite Nat.add_0_r. cbn [Coef.coef Coef.name].
    assert (Ha : assignment_of result ("x" ++ string_of_index index) = Fin q).
    { unfold assignment_of. now rewrite Hq. }
    rewrite (row_value_fold_step _ s q _ Ha).
    assert (Hrest : forall j g, l !! j = Some g ->
              exists q', vars result !! ("x" ++ string_of_index (S index + j))
                         = Some (Fin q') /\ (0 <= q')%Q).
    { intros j g Hj. destruct (Hvars (S j) g Hj) as (q' & Hq' & Hq'0).
      exists q'. rewrite Nat.add_succ_r in Hq'. auto. }
    assert (Hlen : (inject_Z (Z.of_nat (length (f :: l)))
                    == inject_Z (Z.of_nat (length l)) + 1)%Q).
    { cbn [length]. rewrite Nat2Z.inj_succ. unfold Z.succ.
      rewrite inject_Z_plus. reflexivity. }
    destruct (rounded_collect_cases A result f index acc)
      as [(x & Hx & Hkeep & Heq)|[Hno Heq]].
    + rewrite Hq in Hx. injection Hx as <-.
      destruct (IH (S index) (s + 1 * q)%Q (w + q)%Q
                   (Rounded.collect A result f index acc) Hrest)
        as (s' & w' & Hs' & Hw' & Hab & Hle & Hge).
      { rewrite Heq, total_weight_snoc, Hw. reflexivity. }
      { rewrite Heq. intros item [Hi|Hi]%in_app_iff; [now apply Habove|].
        destruct Hi as [<-|[]]. cbn [amount].
        apply andb_true_iff in Hkeep as [_ Hkeep]. exact Hkeep. }
      exists s', w'. split; [exact Hs'|]. split; [exact Hw'|]. split; [exact Hab|].
      rewrite Hlen. split; lra.
    + pose proof (Hno _ Hq) as Hsmall. rewrite He in Hsmall.
      apply dropped_below in Hsmall; [|assumption..].
      rewrite Heq.
      destruct (IH (S index) (s + 1 * q)%Q w acc Hrest Hw Habove)
        as (s' & w' & Hs' & Hw' & Hab & Hle & Hge).
      exists s', w'. split; [exact Hs'|]. split; [exact Hw'|]. split; [exact Hab|].
      rewrite Hlen. split; nra.
Qed.

(** X11.  Whatever the arithmetic, for an epsilon that is a rational of at
    least 0: when the answer of the solver is optimal or feasible, reports
    a finite amount of at least 0 for every surviving fertilizer and
    satisfies the total weight row for a finite total weight [W], the
    amounts listed in the recipe add up to at most [W] and to at least [W]
    less epsilon per surviving fertilizer: only amounts of at most epsilon
    are left out of the recipe.  The sum is the sum of the listed amounts
    themselves, not the rounded [actualWeight]. *)
Theorem recipe_weight_close_to_total (A : Rounded.Arithmetic) glpk params result
    (W e : Q) :
  survivors params <> [] ->
  (totalWeight params <=? 0)%js = false ->
  (increment params <=? 0)%js = false ->
  solve glpk (Rounded.closed_form_lp A params (survivors params)) = inr result ->
  status result = Glp.GLP_OPT \/ status result = Glp.GLP_FEAS ->
  totalWeight params = Fin W ->
  Rounded.epsilon A = Fin e ->
  (0 <= e)%Q ->
  (forall index f,
      survivors params !! index = Some f ->
      exists q, vars result !! ("x" ++ string_of_index index) = Some (Fin q)
                /\ (0 <= q)%Q) ->
  satisfies (assignment_of result) (total_weight_row params (survivors params)) = true ->
  exists res r w,
    snd (Rounded.calculateMix A (inr glpk) params) = Resolved res
    /\ recipe res = Some r
    /\ total_weight r = Fin w
    /\ (w <= W)%Q
    /\ (W - inject_Z (Z.of_nat (length (survivors params))) * e <= w)%Q.
Proof.
  intros Hs Hw Hi Hsolve Hst HW He He0 Hvars Hsat.
  destruct (rounded_calculateMix_cases A (inr glpk) params)
    as [(m & _ & [H|[H|H]])|(_ & _ & _ & [(err & H & _)|(g & Hg & Hcase)])];
    try congruence.
  injection Hg as <-. cbv zeta in Hcase. rewrite Hsolve in Hcase.
  destruct Hcase as [(err & H & _)|(r & Hr & Heq)]; [discriminate|].
  injection Hr as <-. rewrite Heq. cbn [snd].
  destruct (recipe_weight_bounds A result e (survivors params) He He0 0 0%Q 0%Q
              (Totals.mk [] 0%js 0%js 0%js 0%js))
    as (s' & w' & Hs' & Hw' & Hab & Hle & Hge);
    [exact Hvars | reflexivity | intros item [] |].
  unfold Rounded.interpret.
  assert (Hok : (status result =? Glp.GLP_OPT)%Z || (status result =? Glp.GLP_FEAS)%Z
                = true).
  { destruct Hst as [-> | ->]; reflexivity. }
  rewrite Hok. cbv zeta. unfold forEach.
  eexists _, _, w'. split; [reflexivity|]. cbn [recipe].
  rewrite (filter_all_true _ _ Hab).
  split; [reflexivity|]. split; [exact Hw'|].
  revert Hsat. unfold satisfies, row_value, total_weight_row.
  cbn [Constraint.bnds Constraint.vars Bnds.type Bnds.lb].
  cbn [Z.eqb Glp.GLP_FX Glp.GLP_LO Glp.GLP_UP Glp.GLP_DB Pos.eqb].
  cbn [Nat.add] in Hs'. rewrite Hs', HW.
  intros Hsat. assert (Hsw : (s' == W)%Q) by (revert Hsat; js_solve).
  split; lra.
Qed.

(** ** These statements at sample data, in binary64 *)

Example binary64_tenth :
  Rounded.to_binary64 (1 # 10) = Fin (3602879701896397 # 36028797018963968).
Proof. vm_compute. reflexivity. Qed.

(** [0.1 + 0.2] is above [0.3], [0.3 / 0.1] is below 3, and [1e308 * 2]
    is infinite. *)
Example binary64_rounds :
  let A := Rounded.binary64_arithmetic in
  (Rounded.add (Rounded.decimal (1 # 10)) (Rounded.decimal (2 # 10))
   >? Rounded.decimal (3 # 10))%js = true
  /\ floor (Rounded.div (Rounded.decimal (3 # 10)) (Rounded.decimal (1 # 10))) = 2%js
  /\ floor (Fin (3 # 10) / Fin (1 # 10))%js = Fin 3
  /\ Rounded.mul (Rounded.decimal (inject_Z (10 ^ 308))) 2%js = PosInf.
Proof. repeat split; vm_compute; reflexivity. Qed.

Lemma tenths_model_called :
  In (CallSolve tenths_model)
     (fst (Rounded.calculateMix Rounded.binary64_arithmetic
             (inr (answering tenths_result)) tenths_params)).
Proof. vm_compute. right. left. reflexivity. Qed.

(** For three tenths of a gram in steps of a tenth the model allows two
    doses of each fertilizer. *)
Example tenths_model_doses :
  In (Bound.mk "z0" Glp.GLP_DB 0%js 2%js) (LP.bounds tenths_model).
Proof. right. left. reflexivity. Qed.

(** The amounts 0.1 and 0.2 are listed; the actual weight is their rounded
    sum, which is above the total weight 0.3 of the request. *)
Example tenths_actual_weight :
  match snd (Rounded.calculateMix Rounded.binary64_arithmetic
               (inr (answering tenths_result)) tenths_params) with
  | Resolved res =>
      recipe res = Some [ {| fertilizer := urea;
                             amount := Rounded.to_binary64 (1 # 10) |};
                          {| fertilizer := bone_meal;
                             amount := Rounded.to_binary64 (2 # 10) |} ]
      /\ exists w, actualWeight res = Some w
                   /\ (w >? totalWeight tenths_params)%js = true
  | Rejected _ => False
  end.
Proof. vm_compute. split; [reflexivity|]. eexists. split; reflexivity. Qed.

Lemma model_in_closed_form_witness :
  In (CallSolve tenths_model)
     (fst (Rounded.calculateMix Rounded.binary64_arithmetic
             (inr (answering tenths_result)) tenths_params))
  /\ tenths_model
     = Rounded.closed_form_lp Rounded.binary64_arithmetic tenths_params
                              (survivors tenths_params).
Proof.
  split; [exact tenths_model_called|].
  apply (model_in_closed_form Rounded.binary64_arithmetic
           (inr (answering tenths_result)) tenths_params tenths_model).
  exact tenths_model_called.
Defined.

Lemma recipe_weight_close_to_total_witness :
  (Rounded.epsilon Rounded.binary64_arithmetic = Fin binary64_epsilon
   /\ satisfies (assignment_of dyadic_result)
                (total_weight_row dyadic_params (survivors dyadic_params)) = true)
  /\ exists res r w,
      snd (Rounded.calculateMix Rounded.binary64_arithmetic
             (inr (answering dyadic_result)) dyadic_params) = Resolved res
      /\ recipe res = Some r
      /\ total_weight r = Fin w
      /\ (w <= 769 # 1024)%Q
      /\ ((769 # 1024)
          - inject_Z (Z.of_nat (length (survivors dyadic_params))) * binary64_epsilon
          <= w)%Q.
Proof.
  split; [split; vm_compute; reflexivity|].
  apply (recipe_weight_close_to_total Rounded.binary64_arithmetic
           (answering dyadic_result) dyadic_params dyadic_result
           (769 # 1024)%Q binary64_epsilon).
  - vm_compute; discriminate.
  - reflexivity.
  - reflexivity.
  - reflexivity.
  - left; reflexivity.
  - reflexivity.
  - vm_compute; reflexivity.
  - vm_compute; discriminate.
  - intros index f.
    destruct index as [|[|[|index]]]; vm_compute; intros [= <-];
      eexists; (split; [reflexivity | discriminate]).
  - vm_compute; reflexivity.
Defined.
